(** * The Great Divide Trail: a shallow embedding of the simulation core

  Sources: [game/player.py], [game/resources.py], [game/party.py],
  [game/hunting.py], [game/gathering.py].

  Python [int] is modelled as [Z]; Python [float] as the kernel's binary64
  floats ([PrimFloat.float]), so that rounding is the one CPython performs.
  Operations that can raise (int-to-float overflow, [int] of an infinite
  float, division by zero, [KeyError]) return [option]: [None] is the
  exception.  The global [random] module is an explicit stream of raw draws
  threaded through the code in call order. *)

From Stdlib Require Import ZArith Bool List String Lia Ascii.
From Stdlib Require Import Floats.
Import ListNotations.

#[local] Set Warnings "-inexact-float".

Open Scope Z_scope.

(** ** Python numbers *)

Module Py.

Notation "x <- c ;; k" := (match c with Some x => k | None => None end)
  (at level 61, c at next level, right associativity).

(** [float(z)]: correctly rounded; [OverflowError] when out of range. *)
Definition float_of_int (z : Z) : option float :=
  let f := SF2Prim (SpecFloat.binary_normalize FloatOps.prec FloatOps.emax z 0 false) in
  if PrimFloat.is_infinity f then None else Some f.

(** [int(f)]: truncation toward zero; [OverflowError] on infinities,
    [ValueError] on NaN. *)
Definition int_of_float (f : float) : option Z :=
  match Prim2SF f with
  | S754_zero _ => Some 0
  | S754_finite s m e =>
      let v := if 0 <=? e then Z.shiftl (Zpos m) e else Z.shiftr (Zpos m) (- e) in
      Some (if s then - v else v)
  | _ => None
  end.

(** [a / b] on two ints: the correctly rounded quotient;
    [ZeroDivisionError] when [b = 0], [OverflowError] when too large. *)
Definition true_div (a b : Z) : option float :=
  match b with
  | Z0 => None
  | _ =>
    match a with
    | Z0 => Some (if b <? 0 then (-0)%float else 0%float)
    | _ =>
      let q := SpecFloat.SFdiv FloatOps.prec FloatOps.emax
                 (S754_finite (a <? 0) (Z.to_pos (Z.abs a)) 0)
                 (S754_finite (b <? 0) (Z.to_pos (Z.abs b)) 0) in
      let f := SF2Prim q in
      if PrimFloat.is_infinity f then None else Some f
    end
  end.

(** [z * f] with [z] an int and [f] a float. *)
Definition mul_if (z : Z) (f : float) : option float :=
  x <- float_of_int z ;; Some (x * f)%float.

(** [z + f] with [z] an int and [f] a float. *)
Definition add_if (z : Z) (f : float) : option float :=
  x <- float_of_int z ;; Some (x + f)%float.

(** [z - f] with [z] an int and [f] a float. *)
Definition sub_if (z : Z) (f : float) : option float :=
  x <- float_of_int z ;; Some (x - f)%float.

(** Builtin [min(a, b)]: [a] unless [b < a]. *)
Definition min_f (a b : float) : float := if (b <? a)%float then b else a.

(** The [random] module, as a stream of raw draws.  Each call consumes
    one draw; an exhausted stream yields 0. *)
Definition Rng := list Z.

Definition next (s : Rng) : Z * Rng :=
  match s with
  | [] => (0, [])
  | z :: s' => (z, s')
  end.

(** [random.random()]: a multiple of 2^-53 in [0, 1). *)
Definition random (s : Rng) : float * Rng :=
  let '(z, s') := next s in
  (SF2Prim (SpecFloat.binary_normalize FloatOps.prec FloatOps.emax
              (z mod 2 ^ 53) (-53) false), s').

(** [random.randint(a, b)]: an int of [a..b]. *)
Definition randint (a b : Z) (s : Rng) : Z * Rng :=
  let '(z, s') := next s in (a + z mod (b - a + 1), s').

(** [random.uniform(a, b)] = [a + (b - a) * random()]. *)
Definition uniform (a b : float) (s : Rng) : float * Rng :=
  let '(r, s') := random s in ((a + (b - a) * r)%float, s').

(** [random.choice(xs)] on a non-empty list. *)
Definition choice {A} (d : A) (xs : list A) (s : Rng) : A * Rng :=
  let '(z, s') := next s in
  (nth (Z.to_nat (z mod Z.of_nat (List.length xs))) xs d, s').

(** Dictionaries with string keys, as association lists. *)
Fixpoint get {A} (k : string) (d : list (string * A)) : option A :=
  match d with
  | [] => None
  | (k', v) :: d' => if String.eqb k k' then Some v else get k d'
  end.

Definition get_or {A} (k : string) (d : list (string * A)) (dflt : A) : A :=
  match get k d with Some v => v | None => dflt end.

End Py.

Import Py.

(** ** player.py *)

Module Player.

Inductive Role :=
| TRAVELER | TRAIL_LEADER | HUNTER | MEDIC | SCOUT | MECHANIC.

Inductive Condition :=
| HEALTHY | INJURED | HYPOTHERMIA | DYSENTERY | SCURVY | FROSTBITE
| INFECTION | EXHAUSTED | STARVING | DEHYDRATED.

Definition Condition_eq_dec (a b : Condition) : {a = b} + {a <> b}.
Proof. decide equality. Defined.

Definition Condition_eqb (a b : Condition) : bool :=
  if Condition_eq_dec a b then true else false.

(** [ROLE_BONUSES] *)
Definition ROLE_BONUSES (r : Role) : list (string * Z) :=
  match r with
  | TRAVELER =>
      [("navigation", 0); ("hunting", 0); ("healing", 0); ("scouting", 0); ("repair", 0)]
  | TRAIL_LEADER =>
      [("navigation", 25); ("hunting", 0); ("healing", 0); ("scouting", 10); ("repair", 0)]
  | HUNTER =>
      [("navigation", 0); ("hunting", 30); ("healing", 0); ("scouting", 5); ("repair", 0)]
  | MEDIC =>
      [("navigation", 0); ("hunting", 0); ("healing", 35); ("scouting", 0); ("repair", 0)]
  | SCOUT =>
      [("navigation", 15); ("hunting", 10); ("healing", 0); ("scouting", 40); ("repair", 0)]
  | MECHANIC =>
      [("navigation", 0); ("hunting", 0); ("healing", 0); ("scouting", 0); ("repair", 40)]
  end%string.

Record ConditionEffect := {
  health_drain : Z; morale_drain : Z; travel_speed : Z; can_work : bool }.

(** [CONDITION_EFFECTS] *)
Definition CONDITION_EFFECTS (c : Condition) : ConditionEffect :=
  match c with
  | HEALTHY     => {| health_drain := 0; morale_drain := 0; travel_speed := 0;   can_work := true |}
  | INJURED     => {| health_drain := 2; morale_drain := 3; travel_speed := -15; can_work := true |}
  | HYPOTHERMIA => {| health_drain := 5; morale_drain := 5; travel_speed := -25; can_work := false |}
  | DYSENTERY   => {| health_drain := 4; morale_drain := 4; travel_speed := -20; can_work := false |}
  | SCURVY      => {| health_drain := 2; morale_drain := 3; travel_speed := -10; can_work := true |}
  | FROSTBITE   => {| health_drain := 3; morale_drain := 4; travel_speed := -15; can_work := true |}
  | INFECTION   => {| health_drain := 6; morale_drain := 5; travel_speed := -20; can_work := false |}
  | EXHAUSTED   => {| health_drain := 1; morale_drain := 5; travel_speed := -20; can_work := true |}
  | STARVING    => {| health_drain := 5; morale_drain := 8; travel_speed := -25; can_work := false |}
  | DEHYDRATED  => {| health_drain := 6; morale_drain := 6; travel_speed := -30; can_work := false |}
  end.

(** [class Player] *)
Record Player := mkPlayer {
  name : string;
  role : Role;
  health : Z;
  max_health : Z;
  morale : Z;
  conditions : list Condition;
  days_survived : Z;
  _is_alive : bool }.

(** [Player(name, role, health, morale)] *)
Definition new_player (n : string) (r : Role) (h m : Z) : Player :=
  mkPlayer n r h 100 m [] 0 true.

Definition set_health (p : Player) (h : Z) : Player :=
  mkPlayer (name p) (role p) h (max_health p) (morale p) (conditions p)
           (days_survived p) (_is_alive p).
Definition set_morale (p : Player) (m : Z) : Player :=
  mkPlayer (name p) (role p) (health p) (max_health p) m (conditions p)
           (days_survived p) (_is_alive p).
Definition set_conditions (p : Player) (cs : list Condition) : Player :=
  mkPlayer (name p) (role p) (health p) (max_health p) (morale p) cs
           (days_survived p) (_is_alive p).
Definition set_days_survived (p : Player) (d : Z) : Player :=
  mkPlayer (name p) (role p) (health p) (max_health p) (morale p) (conditions p)
           d (_is_alive p).
Definition set_dead (p : Player) : Player :=
  mkPlayer (name p) (role p) 0 (max_health p) (morale p) (conditions p)
           (days_survived p) false.

(** [is_alive] *)
Definition is_alive (p : Player) : bool := _is_alive p && (0 <? health p).

(** [is_healthy] *)
Definition is_healthy (p : Player) : bool :=
  match conditions p with [] => true | _ => false end.

(** [get_skill_bonus] *)
Definition get_skill_bonus (p : Player) (skill : string) : Z :=
  get_or skill (ROLE_BONUSES (role p)) 0.

(** [get_effective_skill] *)
Definition get_effective_skill (p : Player) (skill : string) (base_value : Z) : option Z :=
  let bonus := get_skill_bonus p skill in
  health_modifier <- true_div (health p) 100 ;;
  m200 <- true_div (morale p) 200 ;;
  let morale_modifier := (0.5 + m200)%float in
  b100 <- true_div bonus 100 ;;
  r1 <- add_if 1 b100 ;;
  e1 <- mul_if base_value r1 ;;
  let effective := (e1 * health_modifier * morale_modifier)%float in
  int_of_float effective.

(** [take_damage]: returns [(actual damage, died)] and the new state. *)
Definition take_damage (p : Player) (amount : Z) : (Z * bool) * Player :=
  if negb (is_alive p) then ((0, true), p) else
  let actual_damage := Z.min amount (health p) in
  let p1 := set_health p (health p - actual_damage) in
  if health p1 <=? 0 then ((actual_damage, true), set_dead p1)
  else ((actual_damage, false), p1).

(** [heal]: returns the amount healed and the new state. *)
Definition heal (p : Player) (amount : Z) (has_medic_bonus : bool) : option (Z * Player) :=
  if negb (is_alive p) then Some (0, p) else
  amount' <- (if has_medic_bonus
              then (f <- mul_if amount 1.35 ;; int_of_float f)
              else Some amount) ;;
  let old_health := health p in
  let p1 := set_health p (Z.min (max_health p) (health p + amount')) in
  Some (health p1 - old_health, p1).

Definition in_conditions (c : Condition) (cs : list Condition) : bool :=
  existsb (Condition_eqb c) cs.

(** [list.remove]: drops the first occurrence. *)
Fixpoint list_remove (c : Condition) (cs : list Condition) : list Condition :=
  match cs with
  | [] => []
  | c' :: cs' => if Condition_eqb c c' then cs' else c' :: list_remove c cs'
  end.

(** [add_condition] *)
Definition add_condition (p : Player) (c : Condition) : bool * Player :=
  if negb (in_conditions c (conditions p)) && negb (Condition_eqb c HEALTHY)
  then (true, set_conditions p (conditions p ++ [c]))
  else (false, p).

(** [remove_condition] *)
Definition remove_condition (p : Player) (c : Condition) : bool * Player :=
  if in_conditions c (conditions p)
  then (true, set_conditions p (list_remove c (conditions p)))
  else (false, p).

(** [change_morale] *)
Definition change_morale (p : Player) (amount : Z) : Player :=
  set_morale p (Z.max 0 (Z.min 100 (morale p + amount))).

Definition boost_morale (p : Player) (amount : Z) : Player := change_morale p (Z.abs amount).
Definition reduce_morale (p : Player) (amount : Z) : Player := change_morale p (- Z.abs amount).

Record DailyResult := {
  health_change : Z; morale_change : Z;
  conditions_worsened : list Condition; conditions_improved : list Condition;
  died : bool }.

Definition no_change : DailyResult :=
  {| health_change := 0; morale_change := 0; conditions_worsened := [];
     conditions_improved := []; died := false |}.

Definition sum_drain (f : ConditionEffect -> Z) (cs : list Condition) : Z :=
  fold_left (fun acc c => acc + f (CONDITION_EFFECTS c)) cs 0.

(** One iteration of the worsen/recover loop of [daily_update]. *)
Definition condition_roll (st : Player * list Condition * list Condition * Rng)
    (c : Condition) : Player * list Condition * list Condition * Rng :=
  let '(p, worse, better, s) := st in
  let '(p, worse, s) :=
    if Condition_eqb c INJURED then
      let '(r, s) := random s in
      if (r <? 0.10)%float then
        let '(added, p) := add_condition p INFECTION in
        (p, (if added then worse ++ [INFECTION] else worse), s)
      else (p, worse, s)
    else (p, worse, s) in
  if Condition_eqb c EXHAUSTED || Condition_eqb c INJURED then
    let '(r, s) := random s in
    if (r <? 0.05)%float then
      (snd (remove_condition p c), worse, better ++ [c], s)
    else (p, worse, better, s)
  else (p, worse, better, s).

(** [daily_update] *)
Definition daily_update (p : Player) (s : Rng) : DailyResult * Player * Rng :=
  if negb (is_alive p) then (no_change, p, s) else
  let p := set_days_survived p (days_survived p + 1) in
  let total_health_drain := sum_drain health_drain (conditions p) in
  let total_morale_drain := sum_drain morale_drain (conditions p) in
  let '(hc, dd, p) :=
    if 0 <? total_health_drain then
      let '((damage, d), p) := take_damage p total_health_drain in (- damage, d, p)
    else (0, false, p) in
  let '(mc, p) :=
    if 0 <? total_morale_drain then
      (- total_morale_drain, reduce_morale p total_morale_drain)
    else (0, p) in
  let '(mc, p, s) :=
    if is_healthy p && (morale p <? 50) then
      let '(recovery, s) := randint 1 3 s in
      (mc + recovery, boost_morale p recovery, s)
    else (mc, p, s) in
  let '(p, worse, better, s) :=
    fold_left condition_roll (conditions p) (p, [], [], s) in
  ({| health_change := hc; morale_change := mc; conditions_worsened := worse;
      conditions_improved := better; died := dd |}, p, s).

(** [get_travel_speed_modifier] *)
Definition get_travel_speed_modifier (p : Player) : Z :=
  let modifier := sum_drain travel_speed (conditions p) in
  if health p <? 30 then modifier - 20
  else if health p <? 50 then modifier - 10
  else modifier.

(** The operations a caller can perform on one traveler. *)
Inductive TravelerOp :=
| OpTakeDamage (amount : Z)
| OpHeal (amount : Z) (has_medic_bonus : bool)
| OpDailyUpdate (s : Rng)
| OpAddCondition (c : Condition)
| OpRemoveCondition (c : Condition)
| OpChangeMorale (amount : Z).

Definition step (p : Player) (op : TravelerOp) : option Player :=
  match op with
  | OpTakeDamage a => Some (snd (take_damage p a))
  | OpHeal a m => r <- heal p a m ;; Some (snd r)
  | OpDailyUpdate s => let '(_, p, _) := daily_update p s in Some p
  | OpAddCondition c => Some (snd (add_condition p c))
  | OpRemoveCondition c => Some (snd (remove_condition p c))
  | OpChangeMorale a => Some (change_morale p a)
  end.

(** A sequence of operations; [None] when one of them raises. *)
Fixpoint run (p : Player) (ops : list TravelerOp) : option Player :=
  match ops with
  | [] => Some p
  | op :: ops' => p' <- step p op ;; run p' ops'
  end.

(** Travelers as the game creates them ([Player(...)] with a health in
    [0, 100]) and changes them; the callers of [heal] pass non-negative
    amounts (rest: 5..15, pace and difficulty bonuses: positive). *)
Inductive reachable : Player -> Prop :=
| reach_new n r h m : 0 <= h <= 100 -> reachable (new_player n r h m)
| reach_step p op p' :
    reachable p ->
    (forall a b, op = OpHeal a b -> 0 <= a) ->
    step p op = Some p' -> reachable p'.

End Player.

(** ** resources.py *)

Module Resources.

Inductive ResourceType :=
| FOOD | WATER | AMMUNITION | MEDICAL | CLOTHING | TOOLS | MONEY.

Definition ResourceType_eq_dec (a b : ResourceType) : {a = b} + {a <> b}.
Proof. decide equality. Defined.

Definition ResourceType_eqb (a b : ResourceType) : bool :=
  if ResourceType_eq_dec a b then true else false.

(** [ResourceType.value] *)
Definition value (t : ResourceType) : string :=
  match t with
  | FOOD => "food" | WATER => "water" | AMMUNITION => "ammunition"
  | MEDICAL => "medical" | CLOTHING => "clothing" | TOOLS => "tools"
  | MONEY => "money"
  end%string.

(** The arithmetic of [Resource.add] and [Resource.remove] is Python's
    generic one: the same code runs on ints and on floats. *)
Class PyNum (A : Type) := {
  nzero : A;
  nadd : A -> A -> A;
  nsub : A -> A -> A;
  nltb : A -> A -> bool;
  nleb : A -> A -> bool }.

(** Python [int]. *)
#[export] Instance PyNum_int : PyNum Z :=
  {| nzero := 0; nadd := Z.add; nsub := Z.sub; nltb := Z.ltb; nleb := Z.leb |}.

(** Python [float]. *)
#[export] Instance PyNum_float : PyNum float :=
  {| nzero := 0%float; nadd := PrimFloat.add; nsub := PrimFloat.sub;
     nltb := PrimFloat.ltb; nleb := PrimFloat.leb |}.

(** Builtins [min(a, b)] ([a] unless [b < a]) and [max(a, b)]
    ([a] unless [b > a]). *)
Definition py_min {A} `{PyNum A} (a b : A) : A := if nltb b a then b else a.
Definition py_max {A} `{PyNum A} (a b : A) : A := if nltb a b then b else a.

(** [@dataclass class Resource] *)
Record Resource (A : Type) := mkResource {
  resource_type : ResourceType;
  quantity : A;
  max_capacity : A;
  quality : A }.
Arguments mkResource {A}.
Arguments resource_type {A}.
Arguments quantity {A}.
Arguments max_capacity {A}.
Arguments quality {A}.

Definition set_quantity {A} (r : Resource A) (q : A) : Resource A :=
  mkResource (resource_type r) q (max_capacity r) (quality r).

(** [Resource.add]: returns the amount actually added. *)
Definition add {A} `{PyNum A} (r : Resource A) (amount : A) : A * Resource A :=
  if nleb amount nzero then (nzero, r) else
  let space_available := nsub (max_capacity r) (quantity r) in
  let actual_add := py_min amount space_available in
  (actual_add, set_quantity r (nadd (quantity r) actual_add)).

(** [Resource.remove]: returns the amount actually removed. *)
Definition remove {A} `{PyNum A} (r : Resource A) (amount : A) : A * Resource A :=
  if nleb amount nzero then (nzero, r) else
  let actual_remove := py_min amount (quantity r) in
  (actual_remove, set_quantity r (nsub (quantity r) actual_remove)).

(** [Resource.percentage] *)
Definition percentage (r : Resource float) : float :=
  if (max_capacity r <=? 0)%float then 0%float
  else (quantity r / max_capacity r * 100)%float.

(** [DECAY_RATES.get(t, 0)] *)
Definition DECAY_RATES (t : ResourceType) : float :=
  match t with
  | FOOD => 0.02 | WATER => 0.01 | CLOTHING => 0.005 | _ => 0
  end%float.

(** [Resource.apply_decay]: returns the amount lost. *)
Definition apply_decay (r : Resource float) (rate_multiplier : float) : float * Resource float :=
  let base_rate := DECAY_RATES (resource_type r) in
  if (base_rate <=? 0)%float then (0%float, r) else
  let effective_rate := (base_rate * rate_multiplier)%float in
  let decay_amount := (quantity r * effective_rate)%float in
  (decay_amount,
   mkResource (resource_type r)
     (py_max 0%float (quantity r - decay_amount)%float)
     (max_capacity r)
     (py_max 0%float (quality r - effective_rate * 10)%float)).

(** [WEATHER_DECAY_MULTIPLIERS] *)
Definition WEATHER_DECAY_MULTIPLIERS : list (string * float) :=
  [("clear", 1.0); ("cloudy", 1.0); ("rain", 1.5); ("storm", 2.0);
   ("snow", 0.5); ("blizzard", 0.5); ("hot", 2.5); ("cold", 0.5)]%string%float.

(** [TERRAIN_CONSUMPTION_MULTIPLIERS] *)
Definition TERRAIN_CONSUMPTION_MULTIPLIERS : list (string * list (string * float)) :=
  [("desert", [("water", 2.0); ("food", 1.0)]);
   ("plains", [("water", 1.0); ("food", 1.0)]);
   ("mountains", [("water", 1.0); ("food", 1.5)]);
   ("forest", [("water", 0.8); ("food", 1.0)]);
   ("tundra", [("water", 0.5); ("food", 1.5)]);
   ("river", [("water", 0.5); ("food", 1.0)])]%string%float.

(** [DAILY_CONSUMPTION] *)
Definition DAILY_CONSUMPTION : list (ResourceType * Z) := [(FOOD, 2); (WATER, 1)].

(** [class ResourceManager]: the [resources] dict, in insertion order. *)
Definition ResourceManager := list (ResourceType * Resource float).

Fixpoint rm_get (t : ResourceType) (rm : ResourceManager) : option (Resource float) :=
  match rm with
  | [] => None
  | (t', r) :: rm' => if ResourceType_eqb t t' then Some r else rm_get t rm'
  end.

Fixpoint rm_put (t : ResourceType) (r : Resource float) (rm : ResourceManager) : ResourceManager :=
  match rm with
  | [] => [(t, r)]
  | (t', r') :: rm' => if ResourceType_eqb t t' then (t', r) :: rm' else (t', r') :: rm_put t r rm'
  end.

(** [ResourceManager()] *)
Definition new_manager : ResourceManager :=
  map (fun '(t, c) => (t, mkResource t 0%float c 100%float))
    [(FOOD, 500); (WATER, 100); (AMMUNITION, 200); (MEDICAL, 50);
     (CLOTHING, 20); (TOOLS, 10); (MONEY, 10000)]%float.

(** [get_quantity] *)
Definition get_quantity (rm : ResourceManager) (t : ResourceType) : float :=
  match rm_get t rm with Some r => quantity r | None => 0%float end.

(** [ResourceManager.remove] *)
Definition rm_remove (rm : ResourceManager) (t : ResourceType) (amount : float)
    : float * ResourceManager :=
  match rm_get t rm with
  | Some r => let '(a, r') := remove r amount in (a, rm_put t r' rm)
  | None => (0%float, rm)
  end.

(** [set_quantity] *)
Definition rm_set_quantity (rm : ResourceManager) (t : ResourceType) (amount : float)
    : ResourceManager :=
  match rm_get t rm with
  | Some r => rm_put t (set_quantity r (py_max 0%float (py_min amount (max_capacity r)))) rm
  | None => rm
  end.

(** [calculate_daily_consumption] *)
Definition calculate_daily_consumption (party_size : Z) (terrain rationing : string)
    : option (list (ResourceType * float)) :=
  let ration_mult := get_or rationing
    [("filling", 1.5); ("normal", 1.0); ("meager", 0.5); ("starving", 0.25)]%string%float
    1.0%float in
  let terrain_mults := get_or terrain TERRAIN_CONSUMPTION_MULTIPLIERS [] in
  let fix go (rates : list (ResourceType * Z)) :=
    match rates with
    | [] => Some []
    | (t, base_rate) :: rest =>
        let terrain_mult := get_or (value t) terrain_mults 1.0%float in
        d <- mul_if (base_rate * party_size) ration_mult ;;
        let daily := (d * terrain_mult)%float in
        tl <- go rest ;;
        Some ((t, daily) :: tl)
    end in
  go DAILY_CONSUMPTION.

Fixpoint assoc_get {B} (t : ResourceType) (l : list (ResourceType * B)) : option B :=
  match l with
  | [] => None
  | (t', b) :: l' => if ResourceType_eqb t t' then Some b else assoc_get t l'
  end.

(** The entries of the [warnings] list of [consume_daily]. *)
Inductive Warning :=
| NotEnough (t : ResourceType) (needed available : float)
| RunningLow (t : ResourceType) (q : float)
| FoodCriticallyLow.

Record Consumption := {
  consumed : list (ResourceType * float);
  shortages : list (ResourceType * float);
  warnings : list Warning }.

(** [consume_daily] *)
Definition consume_daily (rm : ResourceManager) (party_size : Z) (terrain rationing : string)
    : option (Consumption * ResourceManager) :=
  consumption <- calculate_daily_consumption party_size terrain rationing ;;
  let '(used, short, warn, rm) :=
    fold_left
      (fun '(used, short, warn, rm) '(t, needed) =>
         let available := get_quantity rm t in
         let '(actual, rm) := rm_remove rm t needed in
         if (actual <? needed)%float then
           (used ++ [(t, actual)], short ++ [(t, (needed - actual)%float)],
            warn ++ [NotEnough t needed available], rm)
         else (used ++ [(t, actual)], short, warn, rm))
      consumption ([], [], [], rm) in
  let warn :=
    fold_left
      (fun warn t =>
         let q := get_quantity rm t in
         match rm_get t rm with
         | Some r =>
             if (0 <? q)%float && (percentage r <? 20)%float
             then warn ++ [RunningLow t q] else warn
         | None => warn
         end)
      [FOOD; WATER; AMMUNITION] warn in
  Some ({| consumed := used; shortages := short; warnings := warn |}, rm).

(** [apply_daily_decay]: the losses and the new stock. *)
Definition apply_daily_decay (rm : ResourceManager) (weather : string)
    : list (ResourceType * float) * ResourceManager :=
  let weather_mult := get_or weather WEATHER_DECAY_MULTIPLIERS 1.0%float in
  fold_left
    (fun '(losses, rm) t =>
       match rm_get t rm with
       | Some r =>
           if (0 <? quantity r)%float then
             let '(loss, r') := apply_decay r weather_mult in
             let rm := rm_put t r' rm in
             if (0 <? loss)%float then (losses ++ [(t, loss)], rm) else (losses, rm)
           else (losses, rm)
       | None => (losses, rm)
       end)
    [FOOD; WATER; CLOTHING] ([], rm).

(** [days_of_supplies(party_size, rationing)] (terrain defaults to plains). *)
Definition days_of_supplies (rm : ResourceManager) (party_size : Z) (rationing : string)
    : option (list (ResourceType * Z)) :=
  consumption <- calculate_daily_consumption party_size "plains" rationing ;;
  let fix go (l : list (ResourceType * float)) :=
    match l with
    | [] => Some []
    | (t, daily) :: l' =>
        d <- (if (0 <? daily)%float
              then int_of_float (get_quantity rm t / daily)%float
              else Some 999) ;;
        tl <- go l' ;;
        Some ((t, d) :: tl)
    end in
  go consumption.

End Resources.

(** ** party.py *)

Module Party.

Import Player Resources.

Definition MAX_PARTY_SIZE : Z := 5.

(** [MORALE_EVENTS] *)
Definition MORALE_EVENTS : list (string * Z) :=
  [("death", -25); ("successful_hunt", 10); ("failed_hunt", -5);
   ("rest_day", 15); ("good_weather", 5); ("bad_weather", -5);
   ("found_supplies", 10); ("low_food", -10); ("no_food", -20);
   ("reached_landmark", 15); ("injury", -10); ("healed", 5)]%string.

(** [Role.value] *)
Definition role_name (r : Role) : string :=
  match r with
  | TRAVELER => "Traveler" | TRAIL_LEADER => "Trail Leader" | HUNTER => "Hunter"
  | MEDIC => "Medic" | SCOUT => "Scout" | MECHANIC => "Mechanic"
  end%string.

Definition Role_eq_dec (a b : Role) : {a = b} + {a <> b}.
Proof. decide equality. Defined.

(** Equality of two members.  [Player] defines no [__eq__], so [in] and
    [list.remove] compare by identity; members are values here, and value
    equality stands in for identity for a traveler taken from the list. *)
Definition Player_eq_dec (a b : Player) : {a = b} + {a <> b}.
Proof.
  decide equality;
    first [ apply bool_dec | apply Z.eq_dec | apply Role_eq_dec
          | apply string_dec | apply (list_eq_dec Condition_eq_dec) ].
Defined.

(** An entry of [death_log]. *)
Record DeathEntry := {
  d_name : string; d_role : string; d_day : Z; d_cause : string;
  d_days_survived : Z }.

(** [class Party] *)
Record Party := mkParty {
  party_name : string;
  members : list Player;
  resources : ResourceManager;
  days_traveled : Z;
  miles_traveled : Z;
  current_rationing : string;
  death_log : list DeathEntry }.

(** [Party(name)] *)
Definition new_party (n : string) : Party :=
  mkParty n [] new_manager 0 0 "normal" [].

Definition set_members (p : Party) (ms : list Player) : Party :=
  mkParty (party_name p) ms (resources p) (days_traveled p) (miles_traveled p)
          (current_rationing p) (death_log p).
Definition set_resources (p : Party) (rm : ResourceManager) : Party :=
  mkParty (party_name p) (members p) rm (days_traveled p) (miles_traveled p)
          (current_rationing p) (death_log p).
Definition set_days_traveled (p : Party) (d : Z) : Party :=
  mkParty (party_name p) (members p) (resources p) d (miles_traveled p)
          (current_rationing p) (death_log p).
Definition set_death_log (p : Party) (l : list DeathEntry) : Party :=
  mkParty (party_name p) (members p) (resources p) (days_traveled p)
          (miles_traveled p) (current_rationing p) l.

(** [add_member] *)
Definition add_member (p : Party) (pl : Player) : bool * Party :=
  if MAX_PARTY_SIZE <=? Z.of_nat (List.length (members p)) then (false, p)
  else (true, set_members p (members p ++ [pl])).

Fixpoint list_remove_player (pl : Player) (ms : list Player) : list Player :=
  match ms with
  | [] => []
  | m :: ms' => if Player_eq_dec pl m then ms' else m :: list_remove_player pl ms'
  end.

(** [remove_member] *)
Definition remove_member (p : Party) (pl : Player) : bool * Party :=
  if in_dec Player_eq_dec pl (members p)
  then (true, set_members p (list_remove_player pl (members p)))
  else (false, p).

(** [alive_members], [alive_count] *)
Definition alive_members (p : Party) : list Player := filter is_alive (members p).
Definition alive_count (p : Party) : Z := Z.of_nat (List.length (alive_members p)).

(** [has_role] *)
Definition has_role (p : Party) (r : Role) : bool :=
  existsb (fun m => if Role_eq_dec (role m) r then true else false) (alive_members p).

(** [get_party_skill_bonus] *)
Definition get_party_skill_bonus (p : Party) (skill : string) : Z :=
  fold_left (fun best m =>
               let bonus := get_skill_bonus m skill in
               if best <? bonus then bonus else best)
            (alive_members p) 0.

(** [change_party_morale] *)
Definition change_party_morale (p : Party) (amount : Z) : Party :=
  set_members p (map (fun m => if is_alive m then change_morale m amount else m) (members p)).

(** [apply_morale_event] *)
Definition apply_morale_event (p : Party) (event_type : string) : Party :=
  let amount := get_or event_type MORALE_EVENTS 0 in
  if amount =? 0 then p else change_party_morale p amount.

(** [for member in self.alive_members: member.add_condition(c)] *)
Definition add_condition_alive (p : Party) (c : Condition) : Party :=
  set_members p (map (fun m => if is_alive m then snd (add_condition m c) else m) (members p)).

(** [get_travel_speed_modifier] *)
Definition get_travel_speed_modifier (p : Party) : option Z :=
  match alive_members p with
  | [] => Some (-100)
  | alive =>
    let worst := fold_left (fun worst m =>
                              let modifier := Player.get_travel_speed_modifier m in
                              if modifier <? worst then modifier else worst) alive 0 in
    let scout_bonus := get_party_skill_bonus p "navigation" in
    if (0 <? scout_bonus) && (worst <? 0) then
      q <- true_div scout_bonus 200 ;;
      f <- sub_if 1 q ;;
      w <- mul_if worst f ;;
      int_of_float w
    else Some worst
  end.

(** [_record_death] *)
Definition record_death (p : Party) (m : Player) (cause : string) : Party :=
  set_death_log p (death_log p ++
    [{| d_name := name m; d_role := role_name (role m); d_day := days_traveled p;
        d_cause := cause; d_days_survived := days_survived m |}]).

Fixpoint update_nth {A} (i : nat) (x : A) (l : list A) : list A :=
  match l, i with
  | [], _ => []
  | _ :: l', O => x :: l'
  | y :: l', S i' => y :: update_nth i' x l'
  end.

(** Step 1 of [process_day] once [consume_daily] has reported: the
    starvation and dehydration checks. *)
Definition apply_shortages (p : Party) (c : Consumption) : Party * list string :=
  let '(p, ev) :=
    match assoc_get FOOD (shortages c) with
    | Some _ =>
        let p := apply_morale_event p "no_food" in
        (add_condition_alive p STARVING, ["The party is starving!"%string])
    | None => (p, [])
    end in
  match assoc_get WATER (shortages c) with
  | Some _ => (add_condition_alive p DEHYDRATED, ev ++ ["The party is dehydrated!"%string])
  | None => (p, ev)
  end.

Record DayReport := {
  day : Z;
  consumption : option Consumption;
  decay : list (ResourceType * float);
  member_updates : list (string * DailyResult);
  deaths : list string;
  report_warnings : list Warning;
  events : list string }.

(** Step 3 of [process_day], one member: [daily_update], and on death the
    log entry and the party-wide death morale event. *)
Definition member_step
    (st : Party * Rng * list (string * DailyResult) * list string * list string)
    (i : nat) : Party * Rng * list (string * DailyResult) * list string * list string :=
  let '(p, s, ups, ds, ev) := st in
  match nth_error (members p) i with
  | Some m =>
      if is_alive m then
        let '(u, m, s) := daily_update m s in
        let p := set_members p (update_nth i m (members p)) in
        let ups := ups ++ [(name m, u)] in
        if died u then
          let p := record_death p m "conditions" in
          (apply_morale_event p "death", s, ups, ds ++ [name m],
           ev ++ [(name m ++ " has died.")%string])
        else (p, s, ups, ds, ev)
      else (p, s, ups, ds, ev)
  | None => (p, s, ups, ds, ev)
  end.

(** [process_day(terrain, weather)] *)
Definition process_day (p : Party) (terrain weather : string) (s : Rng)
    : option (DayReport * Party * Rng) :=
  let day0 := days_traveled p + 1 in
  let p := set_days_traveled p (days_traveled p + 1) in
  (* 1. consumption, starvation, dehydration *)
  r1 <- (if 0 <? alive_count p then
           crm <- consume_daily (resources p) (alive_count p) terrain (current_rationing p) ;;
           let '(c, rm) := crm in
           let '(p, ev) := apply_shortages (set_resources p rm) c in
           Some (Some c, warnings c, ev, p)
         else Some (None, [], [], p)) ;;
  let '(cons0, warn, ev, p) := r1 in
  (* 2. decay *)
  let '(dec, rm) := apply_daily_decay (resources p) weather in
  let p := set_resources p rm in
  (* 3. members *)
  let '(p, s, ups, ds, ev) :=
    fold_left member_step (seq 0 (List.length (members p))) (p, s, [], [], ev) in
  (* 4. weather *)
  let '(p, ev, s) :=
    if String.eqb weather "storm" || String.eqb weather "blizzard" then
      (apply_morale_event p "bad_weather", ev ++ ["The harsh weather dampens spirits."%string], s)
    else if String.eqb weather "clear" then
      let '(r, s) := random s in
      if (r <? 0.3)%float then (apply_morale_event p "good_weather", ev, s) else (p, ev, s)
    else (p, ev, s) in
  (* 5. low food *)
  food_days <- days_of_supplies (resources p) (alive_count p) "normal" ;;
  let fd := match assoc_get FOOD food_days with Some d => d | None => 999 end in
  let '(p, warn) :=
    if (fd <? 3) && (0 <? fd) then (apply_morale_event p "low_food", warn ++ [FoodCriticallyLow])
    else (p, warn) in
  Some ({| day := day0; consumption := cons0; decay := dec; member_updates := ups;
           deaths := ds; report_warnings := warn; events := ev |}, p, s).

Record RestReport := {
  days_rested : Z;
  healing : list (string * Z);
  morale_boost : Z;
  conditions_cleared : list (string * Condition) }.

(** The condition loop of [rest] for one member. *)
Definition rest_clear (st : Player * list (string * Condition) * Rng) (c : Condition)
    : Player * list (string * Condition) * Rng :=
  let '(m, cl, s) := st in
  if Condition_eqb c EXHAUSTED || Condition_eqb c INJURED then
    let '(r, s) := random s in
    if (r <? 0.3)%float then (snd (remove_condition m c), cl ++ [(name m, c)], s)
    else (m, cl, s)
  else (m, cl, s).

(** The loop body of [rest] for the member at index [i]. *)
Definition rest_member (has_medic : bool)
    (st : option (Party * list (string * Z) * list (string * Condition) * Rng)) (i : nat)
    : option (Party * list (string * Z) * list (string * Condition) * Rng) :=
  st' <- st ;;
  let '(p, hl, cl, s) := st' in
  match nth_error (members p) i with
  | Some m =>
      let '(heal_amount, s) := randint 5 15 s in
      hm <- heal m heal_amount has_medic ;;
      let '(healed, m) := hm in
      let hl := if 0 <? healed then hl ++ [(name m, healed)] else hl in
      let '(m, cl, s) := fold_left rest_clear (conditions m) (m, cl, s) in
      Some (set_members p (update_nth i m (members p)), hl, cl, s)
  | None => Some (p, hl, cl, s)
  end.

Definition alive_indices (p : Party) : list nat :=
  filter (fun i => match nth_error (members p) i with
                   | Some m => is_alive m | None => false end)
         (seq 0 (List.length (members p))).

(** One day of [rest]. *)
Definition rest_day (st : option (Party * RestReport * Rng)) : option (Party * RestReport * Rng) :=
  st' <- st ;;
  let '(p, rep, s) := st' in
  let p := set_days_traveled p (days_traveled p + 1) in
  let has_medic := has_role p MEDIC in
  r <- fold_left (rest_member has_medic) (alive_indices p) (Some (p, healing rep, conditions_cleared rep, s)) ;;
  let '(p, hl, cl, s) := r in
  let p := apply_morale_event p "rest_day" in
  crm <- consume_daily (resources p) (alive_count p) "plains" (current_rationing p) ;;
  let p := set_resources p (snd crm) in
  Some (p, {| days_rested := days_rested rep; healing := hl;
              morale_boost := morale_boost rep + 15; conditions_cleared := cl |}, s).

(** [rest(days)] *)
Definition rest (p : Party) (days : Z) (s : Rng) : option (RestReport * Party * Rng) :=
  r <- Nat.iter (Z.to_nat days) rest_day
         (Some (p, {| days_rested := days; healing := []; morale_boost := 0;
                      conditions_cleared := [] |}, s)) ;;
  let '(p, rep, s) := r in Some (rep, p, s).

End Party.

(** ** hunting.py *)

Module Hunting.

Inductive HuntingStyle := CONSERVATIVE | NORMAL | AGGRESSIVE.

Inductive GameAnimal :=
| RABBIT | DEER | ELK | BISON | BEAR | MOOSE | MOUNTAIN_GOAT | WATERFOWL.

Record AnimalData := {
  food_yield : Z * Z;
  difficulty : Z;
  ammo_cost : Z * Z;
  danger : Z;
  terrain : list string }.

(** [ANIMAL_DATA]; [ANIMALS] is its key order. *)
Definition ANIMAL_DATA (a : GameAnimal) : AnimalData :=
  match a with
  | RABBIT => {| food_yield := (5, 10); difficulty := 20; ammo_cost := (1, 2); danger := 0;
                 terrain := ["plains"; "forest"; "mountains"; "desert"] |}
  | WATERFOWL => {| food_yield := (8, 15); difficulty := 35; ammo_cost := (2, 4); danger := 0;
                    terrain := ["plains"; "forest"] |}
  | DEER => {| food_yield := (30, 50); difficulty := 40; ammo_cost := (2, 4); danger := 5;
               terrain := ["forest"; "plains"; "mountains"] |}
  | ELK => {| food_yield := (100, 150); difficulty := 50; ammo_cost := (3, 6); danger := 10;
              terrain := ["forest"; "mountains"] |}
  | MOUNTAIN_GOAT => {| food_yield := (40, 60); difficulty := 60; ammo_cost := (2, 5); danger := 15;
                        terrain := ["mountains"; "tundra"] |}
  | BISON => {| food_yield := (200, 400); difficulty := 55; ammo_cost := (4, 8); danger := 20;
                terrain := ["plains"] |}
  | MOOSE => {| food_yield := (150, 250); difficulty := 50; ammo_cost := (3, 6); danger := 25;
                terrain := ["forest"; "tundra"] |}
  | BEAR => {| food_yield := (150, 200); difficulty := 65; ammo_cost := (5, 10); danger := 40;
               terrain := ["forest"; "mountains"] |}
  end%string.

Definition ANIMALS : list GameAnimal :=
  [RABBIT; WATERFOWL; DEER; ELK; MOUNTAIN_GOAT; BISON; MOOSE; BEAR].

(** [TERRAIN_HUNTING_MODS], [WEATHER_HUNTING_MODS] *)
Definition TERRAIN_HUNTING_MODS : list (string * Z) :=
  [("desert", -30); ("plains", 10); ("mountains", -10); ("forest", 20); ("tundra", -20)]%string.

Definition WEATHER_HUNTING_MODS : list (string * Z) :=
  [("clear", 10); ("cloudy", 5); ("rain", -15); ("storm", -40); ("hot", -10);
   ("cold", -5); ("snow", -25); ("blizzard", -50)]%string.

Record StyleData := {
  success_mod : Z; yield_mod : float; ammo_mod : float; danger_mod : float;
  time_hours : Z }.

(** [STYLE_MODIFIERS] *)
Definition STYLE_MODIFIERS (st : HuntingStyle) : StyleData :=
  match st with
  | CONSERVATIVE => {| success_mod := -10; yield_mod := 0.7; ammo_mod := 0.6;
                       danger_mod := 0.3; time_hours := 2 |}
  | NORMAL => {| success_mod := 0; yield_mod := 1.0; ammo_mod := 1.0;
                 danger_mod := 1.0; time_hours := 4 |}
  | AGGRESSIVE => {| success_mod := 15; yield_mod := 1.3; ammo_mod := 1.5;
                     danger_mod := 2.0; time_hours := 6 |}
  end.

(** [get_available_animals] *)
Definition get_available_animals (t : string) : list GameAnimal :=
  filter (fun a => existsb (String.eqb t) (terrain (ANIMAL_DATA a))) ANIMALS.

(** The weight of one animal in [select_target_animal].  The weight starts
    as the int [max(10, 100 - difficulty)] and becomes a float on the first
    float operation; it is carried as a float from the start, which is exact
    for these small ints. *)
Definition animal_weight (hunter_skill : Z) (prefer_safe : bool) (a : GameAnimal) : option Z :=
  let d := ANIMAL_DATA a in
  w1 <- (if 50 <? hunter_skill then
           skill_bonus <- true_div (hunter_skill - 50) 50 ;;
           x <- mul_if (snd (food_yield d)) skill_bonus ;;
           add_if (Z.max 10 (100 - difficulty d)) (x * 0.1)%float
         else float_of_int (Z.max 10 (100 - difficulty d))) ;;
  let w2 := if prefer_safe && (20 <? danger d) then (w1 * 0.3)%float else w1 in
  w <- int_of_float w2 ;;
  Some (Z.max 1 w).

Fixpoint weights (hunter_skill : Z) (prefer_safe : bool) (l : list GameAnimal)
    : option (list Z) :=
  match l with
  | [] => Some []
  | a :: l' =>
      w <- animal_weight hunter_skill prefer_safe a ;;
      ws <- weights hunter_skill prefer_safe l' ;;
      Some (w :: ws)
  end.

Fixpoint pick (roll cumulative : Z) (l : list (GameAnimal * Z)) : option GameAnimal :=
  match l with
  | [] => None
  | (a, w) :: l' =>
      if roll <=? cumulative + w then Some a else pick roll (cumulative + w) l'
  end.

(** [select_target_animal] *)
Definition select_target_animal (t : string) (hunter_skill : Z) (prefer_safe : bool)
    (s : Rng) : option (option GameAnimal * Rng) :=
  match get_available_animals t with
  | [] => Some (None, s)
  | (a0 :: _) as available =>
      ws <- weights hunter_skill prefer_safe available ;;
      let total := fold_left Z.add ws 0 in
      let '(roll, s) := randint 1 total s in
      match pick roll 0 (combine available ws) with
      | Some a => Some (Some a, s)
      | None => Some (Some a0, s)
      end
  end.

(** [calculate_success_chance] *)
Definition calculate_success_chance (a : GameAnimal) (hunter_skill : Z)
    (t weather : string) (st : HuntingStyle) : Z :=
  let base_chance := hunter_skill - difficulty (ANIMAL_DATA a) + 50 in
  let total_chance := base_chance + get_or t TERRAIN_HUNTING_MODS 0
                      + get_or weather WEATHER_HUNTING_MODS 0
                      + success_mod (STYLE_MODIFIERS st) in
  Z.max 5 (Z.min 95 total_chance).

(** [HuntingResult] without its message and details. *)
Record HuntingResult := {
  h_success : bool;
  h_animal : option GameAnimal;
  food_gained : Z;
  ammo_used : Z;
  hunter_injured : bool;
  injury_damage : Z;
  time_spent : Z }.

Definition no_hunt (time : Z) : HuntingResult :=
  {| h_success := false; h_animal := None; food_gained := 0; ammo_used := 0;
     hunter_injured := false; injury_damage := 0; time_spent := time |}.

Definition injury_range (a : GameAnimal) : Z * Z :=
  match a with
  | BEAR | MOOSE | BISON => (20, 40)
  | ELK | MOUNTAIN_GOAT => (10, 25)
  | _ => (5, 15)
  end.

Definition is_conservative (st : HuntingStyle) : bool :=
  match st with CONSERVATIVE => true | _ => false end.

(** [hunt].  The messages are left out; the [random.choice] among the four
    failure messages still consumes its draw.  [_record_hunt] only appends
    to a history and is left out too. *)
Definition hunt (t weather : string) (hunter_skill hunting_bonus ammo_available : Z)
    (st : HuntingStyle) (location_bonus : Z) (s : Rng)
    : option (HuntingResult * Rng) :=
  let effective_skill :=
    Z.max 10 (Z.min 100 (hunter_skill + hunting_bonus + location_bonus)) in
  let sd := STYLE_MODIFIERS st in
  if ammo_available <? 2 then Some (no_hunt 1, s) else
  sel <- select_target_animal t effective_skill (is_conservative st) s ;;
  let '(animal, s) := sel in
  match animal with
  | None => Some (no_hunt (time_hours sd), s)
  | Some a =>
      let d := ANIMAL_DATA a in
      let success_chance := calculate_success_chance a effective_skill t weather st in
      let '(base_ammo, s) := randint (fst (ammo_cost d)) (snd (ammo_cost d)) s in
      au <- mul_if base_ammo (ammo_mod sd) ;;
      au <- int_of_float au ;;
      let used := Z.min au ammo_available in
      let '(roll, s) := randint 1 100 s in
      let success := roll <=? success_chance in
      danger_chance <- mul_if (danger d) (danger_mod sd) ;;
      let '(injury_roll, s) := randint 1 100 s in
      ir <- float_of_int injury_roll ;;
      let injured := (ir <=? danger_chance)%float in
      let '(dmg, s) :=
        if injured then randint (fst (injury_range a)) (snd (injury_range a)) s
        else (0, s) in
      if success then
        let '(base_yield, s) := randint (fst (food_yield d)) (snd (food_yield d)) s in
        fg <- mul_if base_yield (yield_mod sd) ;;
        fg <- int_of_float fg ;;
        Some ({| h_success := true; h_animal := Some a; food_gained := fg;
                 ammo_used := used; hunter_injured := injured; injury_damage := dmg;
                 time_spent := time_hours sd |}, s)
      else
        let s := if injured then s else snd (choice 0%nat [0; 1; 2; 3]%nat s) in
        Some ({| h_success := false; h_animal := Some a; food_gained := 0;
                 ammo_used := used; hunter_injured := injured; injury_damage := dmg;
                 time_spent := time_hours sd |}, s)
  end.

End Hunting.

(** ** gathering.py *)

Module Gathering.

Inductive ForagingType := BERRIES | HERBS | WATER | FIREWOOD.

Definition ForagingType_eqb (a b : ForagingType) : bool :=
  match a, b with
  | BERRIES, BERRIES | HERBS, HERBS | WATER, WATER | FIREWOOD, FIREWOOD => true
  | _, _ => false
  end.

(** [ForagingType.value] *)
Definition value (f : ForagingType) : string :=
  match f with
  | BERRIES => "berries" | HERBS => "herbs" | WATER => "water" | FIREWOOD => "firewood"
  end%string.

(** [FORAGING_YIELDS] *)
Definition FORAGING_YIELDS : list (string * list (ForagingType * (Z * Z))) :=
  [("desert", [(BERRIES, (0, 2)); (HERBS, (0, 1)); (WATER, (0, 5))]);
   ("plains", [(BERRIES, (2, 8)); (HERBS, (1, 3)); (WATER, (5, 15))]);
   ("mountains", [(BERRIES, (3, 10)); (HERBS, (2, 5)); (WATER, (10, 25))]);
   ("forest", [(BERRIES, (5, 15)); (HERBS, (3, 8)); (WATER, (10, 20))]);
   ("tundra", [(BERRIES, (1, 4)); (HERBS, (0, 2)); (WATER, (5, 15))])]%string.

(** [WEATHER_FORAGING_MODIFIERS] *)
Definition WEATHER_FORAGING_MODIFIERS : list (string * float) :=
  [("clear", 1.2); ("cloudy", 1.0); ("rain", 0.8); ("storm", 0.5); ("hot", 0.9);
   ("cold", 0.8); ("snow", 0.6); ("blizzard", 0.3)]%string%float.

(** [SEASON_FORAGING_MODIFIERS] *)
Definition SEASON_FORAGING_MODIFIERS : list (string * list (string * float)) :=
  [("spring", [("berries", 0.5); ("herbs", 1.2); ("water", 1.0)]);
   ("summer", [("berries", 1.5); ("herbs", 1.0); ("water", 0.9)]);
   ("fall", [("berries", 1.2); ("herbs", 0.8); ("water", 1.0)]);
   ("winter", [("berries", 0.1); ("herbs", 0.2); ("water", 1.1)])]%string%float.

Fixpoint ft_get (f : ForagingType) (l : list (ForagingType * (Z * Z))) : option (Z * Z) :=
  match l with
  | [] => None
  | (f', y) :: l' => if ForagingType_eqb f f' then Some y else ft_get f l'
  end.

(** [FORAGING_YIELDS[terrain].get(forage_type)] *)
Definition base_yields (t : string) (f : ForagingType) : option (Z * Z) :=
  match get t FORAGING_YIELDS with
  | Some ys => ft_get f ys
  | None => None
  end.

(** [can_forage] (without its reason string) *)
Definition can_forage (t : string) (f : ForagingType) : bool :=
  match base_yields t f with
  | Some (_, mx) => negb (mx =? 0)
  | None => false
  end.

(** [ForagingResult] without its message and details. *)
Record ForagingResult := {
  f_success : bool;
  forage_type : ForagingType;
  f_food_gained : Z;
  water_gained : Z;
  f_time_spent : Z }.

(** [forage].  [random.uniform(a, b)] on two ints is [a + (b - a) * random()].
    [_record_foraging] only appends to a history and is left out. *)
Definition forage (t weather season : string) (f : ForagingType)
    (forager_skill party_size : Z) (s : Rng) : option (ForagingResult * Rng) :=
  match (if can_forage t f then base_yields t f else None) with
  | None =>
      Some ({| f_success := false; forage_type := f; f_food_gained := 0;
               water_gained := 0; f_time_spent := 1 |}, s)
  | Some (min_yield, max_yield) =>
      let weather_mod := get_or weather WEATHER_FORAGING_MODIFIERS 1.0%float in
      let season_mod := get_or (value f) (get_or season SEASON_FORAGING_MODIFIERS []) 1.0%float in
      sk <- true_div forager_skill 100 ;;
      let skill_mod := (0.5 + sk)%float in
      pm <- mul_if (party_size - 1) 0.3 ;;
      party_mod <- add_if 1 pm ;;
      let total_mod := (weather_mod * season_mod * skill_mod * party_mod)%float in
      let '(r, s) := random s in
      x <- mul_if (max_yield - min_yield) r ;;
      base_amount <- add_if min_yield x ;;
      final_amount <- int_of_float (base_amount * total_mod)%float ;;
      sc <- true_div forager_skill 3 ;;
      success_chance <- add_if 60 sc ;;
      let '(roll, s) := randint 1 100 s in
      rf <- float_of_int roll ;;
      let success := (rf <=? success_chance)%float in
      final_amount <- (if success then Some final_amount
                       else y <- mul_if final_amount 0.3 ;; int_of_float y) ;;
      let is_water := ForagingType_eqb f WATER in
      Some ({| f_success := success; forage_type := f;
               f_food_gained := if is_water then 0 else final_amount;
               water_gained := if is_water then final_amount else 0;
               f_time_spent := if is_water then 1 else 3 |}, s)
  end.

End Gathering.

(** ** Formulas as the specification states them *)

Module SpecFormulas.

Import Player.

(** [baseValue × (1 + roleBonus/100) × (health/100) × (0.5 + morale/200)],
    multiplied left to right in Python floats and truncated to an int. *)
Definition effective_skill_formula (role_bonus health morale base_value : Z) : option Z :=
  b <- true_div role_bonus 100 ;;
  f1 <- add_if 1 b ;;
  x1 <- mul_if base_value f1 ;;
  h <- true_div health 100 ;;
  m <- true_div morale 200 ;;
  int_of_float (x1 * h * (0.5 + m))%float.

(** The party's speed modifier as the specification states it, for a party
    whose living members have the modifiers [m :: ms]: their minimum and,
    when it is negative, that minimum scaled by [1 - nav_bonus/200] (an
    exact product, truncated toward zero as [int()] does). *)
Definition party_speed_formula (m : Z) (ms : list Z) (nav_bonus : Z) : Z :=
  let worst := fold_left Z.min ms m in
  if worst <? 0 then Z.quot (worst * (200 - nav_bonus)) 200 else worst.

End SpecFormulas.

(** ** Predicates used by the proofs *)

Module Invariants.

Import Player.

(** The sign of a float in its IEEE view: [s], unless NaN. *)
Definition sign_ok (s : bool) (x : spec_float) : Prop :=
  match x with
  | S754_zero s' | S754_infinity s' | S754_finite s' _ _ => s' = s
  | S754_nan => True
  end.

(** Health and liveness of a traveler: health is never negative, a
    traveler flagged dead has health 0, and the maximum stays 100. *)
Definition Inv_h (p : Player) : Prop :=
  0 <= health p /\ (_is_alive p = false -> health p = 0) /\ max_health p = 100.

(** The conditions of a traveler form a set without [HEALTHY]. *)
Definition Inv_c (p : Player) : Prop :=
  NoDup (conditions p) /\ ~ In HEALTHY (conditions p).

Definition Inv (p : Player) : Prop := Inv_h p /\ Inv_c p.

End Invariants.

(** ** Views of the state used in the statements *)

Module Views.

Import Player Resources Party.

(** What the condition operations leave alone: the name, the health and
    the death flag. *)
Definition key (p : Player) : string * Z * bool := (name p, health p, _is_alive p).

(** The names of the members, in order. *)
Definition names (p : Party) : list string := map name (members p).

(** [calculate_daily_consumption(...)[ResourceType.FOOD]] *)
Definition food_consumption (party_size : Z) (terrain rationing : string) : option float :=
  c <- calculate_daily_consumption party_size terrain rationing ;;
  assoc_get FOOD c.

(** [Filling > Normal > Meager > Starving] in daily Food consumption, for
    one party size and terrain. *)
Definition rationing_ordered (n : Z) (t : string) : bool :=
  match food_consumption n t "filling", food_consumption n t "normal",
        food_consumption n t "meager", food_consumption n t "starving" with
  | Some a, Some b, Some c, Some d => (b <? a)%float && (c <? b)%float && (d <? c)%float
  | _, _, _, _ => false
  end.

End Views.

(** ** More of player.py *)

Module PlayerMore.

Import Player.

(** [str.lower] on a string of code points below 256 (Latin-1), one
    [ascii] per code point: [A-Z] and [À-Þ] but [×] move up by 32. *)
Definition lower_char (c : ascii) : ascii :=
  let n := N_of_ascii c in
  if ((65 <=? n) && (n <=? 90))%N || ((192 <=? n) && (n <=? 222) && negb (n =? 215))%N
  then ascii_of_N (n + 32) else c.

Fixpoint py_lower (s : string) : string :=
  match s with
  | EmptyString => EmptyString
  | String c s' => String (lower_char c) (py_lower s')
  end.

(** The members of [Role] and [Condition], in definition order. *)
Definition ROLES : list Role := [TRAVELER; TRAIL_LEADER; HUNTER; MEDIC; SCOUT; MECHANIC].

Definition CONDITIONS : list Condition :=
  [HEALTHY; INJURED; HYPOTHERMIA; DYSENTERY; SCURVY; FROSTBITE; INFECTION;
   EXHAUSTED; STARVING; DEHYDRATED].

(** [Condition.value] *)
Definition condition_value (c : Condition) : string :=
  match c with
  | HEALTHY => "Healthy" | INJURED => "Injured" | HYPOTHERMIA => "Hypothermia"
  | DYSENTERY => "Dysentery" | SCURVY => "Scurvy" | FROSTBITE => "Frostbite"
  | INFECTION => "Infection" | EXHAUSTED => "Exhausted" | STARVING => "Starving"
  | DEHYDRATED => "Dehydrated"
  end%string.

(** [can_work] *)
Definition can_work (p : Player) : bool :=
  if negb (is_alive p) then false
  else forallb (fun c => Player.can_work (CONDITION_EFFECTS c)) (conditions p).

(** The dict of [to_dict]: each key present ([Some]) or absent ([None]),
    each value of the type [to_dict] stores there. *)
Record PlayerData := {
  pd_name : option string;
  pd_role : option string;
  pd_health : option Z;
  pd_max_health : option Z;
  pd_morale : option Z;
  pd_conditions : option (list string);
  pd_days_survived : option Z;
  pd_is_alive : option bool }.

(** [data.get(key, default)] *)
Definition get_d {A} (v : option A) (default : A) : A :=
  match v with Some x => x | None => default end.

(** [to_dict] *)
Definition to_dict (p : Player) : PlayerData :=
  {| pd_name := Some (name p);
     pd_role := Some (Party.role_name (role p));
     pd_health := Some (health p);
     pd_max_health := Some (max_health p);
     pd_morale := Some (morale p);
     pd_conditions := Some (map condition_value (conditions p));
     pd_days_survived := Some (days_survived p);
     pd_is_alive := Some (_is_alive p) |}.

(** [from_dict]: [data["name"]] raises [KeyError] when the name is missing. *)
Definition from_dict (data : PlayerData) : option Player :=
  let role :=
    match find (fun r => match pd_role data with
                         | Some v => String.eqb (Party.role_name r) v
                         | None => false
                         end) ROLES with
    | Some r => r
    | None => TRAVELER
    end in
  n <- pd_name data ;;
  let player := new_player n role (get_d (pd_health data) 100) (get_d (pd_morale data) 75) in
  let cs :=
    fold_left (fun cs cond_name =>
                 match find (fun c => String.eqb (condition_value c) cond_name) CONDITIONS with
                 | Some c => cs ++ [c]
                 | None => cs
                 end)
              (get_d (pd_conditions data) []) (conditions player) in
  Some (mkPlayer (name player) role (health player)
                 (get_d (pd_max_health data) 100) (morale player) cs
                 (get_d (pd_days_survived data) 0) (get_d (pd_is_alive data) true)).

(** [create_player] *)
Definition create_player (n role_name : string) : Player :=
  let role :=
    match find (fun r => String.eqb (py_lower (Party.role_name r)) (py_lower role_name)) ROLES with
    | Some r => r
    | None => TRAVELER
    end in
  new_player n role 100 75.

End PlayerMore.

(** ** More of resources.py *)

Module ResourcesMore.

Import Resources.

Definition RESOURCE_TYPES : list ResourceType :=
  [FOOD; WATER; AMMUNITION; MEDICAL; CLOTHING; TOOLS; MONEY].

(** [has_enough]: [get_quantity(t) >= amount]. *)
Definition has_enough (rm : ResourceManager) (t : ResourceType) (amount : float) : bool :=
  (amount <=? get_quantity rm t)%float.

(** [remove_multiple], on the dict of requests as the list of its items. *)
Definition remove_multiple (rm : ResourceManager) (req : list (ResourceType * float))
    : bool * list (ResourceType * float) * ResourceManager :=
  if negb (forallb (fun '(t, amount) => has_enough rm t amount) req) then (false, [], rm) else
  let '(result, rm) :=
    fold_left (fun '(result, rm) '(t, amount) =>
                 let '(x, rm) := rm_remove rm t amount in (result ++ [(t, x)], rm))
              req ([], rm) in
  (true, result, rm).

(** The dict of [Resource.to_dict]. *)
Record ResourceData := {
  rd_type : option string;
  rd_quantity : option float;
  rd_max_capacity : option float;
  rd_quality : option float }.

(** [Resource.to_dict] *)
Definition resource_to_dict (r : Resource float) : ResourceData :=
  {| rd_type := Some (value (resource_type r)); rd_quantity := Some (quantity r);
     rd_max_capacity := Some (max_capacity r); rd_quality := Some (quality r) |}.

(** [Resource.from_dict]: [KeyError] without a type, [ValueError] on an
    unknown one. *)
Definition resource_from_dict (data : ResourceData) : option (Resource float) :=
  v <- rd_type data ;;
  resource_type <- find (fun t => String.eqb (value t) v) RESOURCE_TYPES ;;
  Some (mkResource resource_type (PlayerMore.get_d (rd_quantity data) 0%float)
          (PlayerMore.get_d (rd_max_capacity data) 1000%float)
          (PlayerMore.get_d (rd_quality data) 100%float)).

(** The dict of [ResourceManager.to_dict]. *)
Record ManagerData := { md_resources : option (list (string * ResourceData)) }.

(** [ResourceManager.to_dict] *)
Definition manager_to_dict (rm : ResourceManager) : ManagerData :=
  {| md_resources := Some (map (fun '(t, r) => (value t, resource_to_dict r)) rm) |}.

(** [ResourceManager.from_dict] *)
Definition manager_from_dict (data : ManagerData) : option ResourceManager :=
  fold_left (fun acc '(_, resource_data) =>
               manager <- acc ;;
               resource <- resource_from_dict resource_data ;;
               Some (rm_put (resource_type resource) resource manager))
            (PlayerMore.get_d (md_resources data) []) (Some new_manager).

End ResourcesMore.

(** ** More of party.py *)

Module PartyMore.

Import Player Resources Party PlayerMore ResourcesMore.

(** [dead_members], [working_members], [is_party_alive] *)
Definition dead_members (p : Party) : list Player := filter (fun m => negb (is_alive m)) (members p).
Definition working_members (p : Party) : list Player :=
  filter (fun m => is_alive m && can_work m) (members p).
Definition is_party_alive (p : Party) : bool := 0 <? alive_count p.

(** [get_best_for_skill]; [None] when [get_effective_skill] raises. *)
Definition get_best_for_skill (p : Party) (skill : string) : option (option Player) :=
  r <- fold_left (fun acc member =>
                    st <- acc ;;
                    let '(best_member, best_skill) := st in
                    effective <- get_effective_skill member skill 50 ;;
                    if best_skill <? effective then Some (Some member, effective)
                    else Some (best_member, best_skill))
                 (working_members p) (Some (None, -1)) ;;
  Some (fst r).

(** Builtin [min(xs, key=k)] on a non-empty list [x :: xs]: the first
    element of least key. *)
Definition min_key (k : Player -> Z) (x : Player) (xs : list Player) : Player :=
  fold_left (fun best y => if k y <? k best then y else best) xs x.

(** [lowest_health_member], [lowest_morale_member] *)
Definition lowest_health_member (p : Party) : option Player :=
  match alive_members p with
  | [] => None
  | m :: ms => Some (min_key health m ms)
  end.

Definition lowest_morale_member (p : Party) : option Player :=
  match alive_members p with
  | [] => None
  | m :: ms => Some (min_key morale m ms)
  end.

(** [heal_party]: the [healed] list, the [total] and the new party.  The
    loop runs over the living members; healing one member changes no
    other, so walking the member list and skipping the dead visits the
    same members in the same order. *)
Definition heal_party (p : Party) (amount : Z) : option (list (string * Z) * Z * Party) :=
  let has_medic := has_role p MEDIC in
  r <- fold_left (fun acc member =>
                    st <- acc ;;
                    let '(ms, healed_list, total) := st in
                    if is_alive member then
                      hm <- heal member amount has_medic ;;
                      let '(healed, member) := hm in
                      if 0 <? healed then
                        Some (ms ++ [member], healed_list ++ [(name member, healed)], total + healed)
                      else Some (ms ++ [member], healed_list, total)
                    else Some (ms ++ [member], healed_list, total))
                 (members p) (Some ([], [], 0)) ;;
  let '(ms, healed_list, total) := r in
  Some (healed_list, total, set_members p ms).

(** [calculate_daily_miles] *)
Definition calculate_daily_miles (p : Party) (base_miles : Z) (terrain_modifier : float)
    : option Z :=
  speed_modifier <- get_travel_speed_modifier p ;;
  q <- true_div speed_modifier 100 ;;
  effective_modifier <- add_if 1 q ;;
  x <- mul_if base_miles terrain_modifier ;;
  miles <- int_of_float (x * effective_modifier)%float ;;
  Some (Z.max 1 miles).

Definition set_current_rationing (p : Party) (r : string) : Party :=
  mkParty (party_name p) (members p) (resources p) (days_traveled p)
          (miles_traveled p) r (death_log p).

Definition VALID_LEVELS : list string := ["filling"; "normal"; "meager"; "starving"]%string.

(** [set_rationing] *)
Definition set_rationing (p : Party) (level : string) : bool * Party :=
  if existsb (String.eqb (py_lower level)) VALID_LEVELS
  then (true, set_current_rationing p (py_lower level))
  else (false, p).

(** The dict of [Party.to_dict]; [death_log] holds its entries as they are. *)
Record PartyData := {
  pa_name : option string;
  pa_members : option (list PlayerData);
  pa_resources : option ManagerData;
  pa_days_traveled : option Z;
  pa_miles_traveled : option Z;
  pa_current_rationing : option string;
  pa_death_log : option (list DeathEntry) }.

(** [Party.to_dict] *)
Definition party_to_dict (p : Party) : PartyData :=
  {| pa_name := Some (party_name p);
     pa_members := Some (map PlayerMore.to_dict (members p));
     pa_resources := Some (manager_to_dict (resources p));
     pa_days_traveled := Some (days_traveled p);
     pa_miles_traveled := Some (miles_traveled p);
     pa_current_rationing := Some (current_rationing p);
     pa_death_log := Some (death_log p) |}.

(** [Party.from_dict] *)
Definition party_from_dict (data : PartyData) : option Party :=
  let party := new_party (get_d (pa_name data) "Expedition"%string) in
  ms <- fold_left (fun acc member_data =>
                     ms <- acc ;;
                     player <- PlayerMore.from_dict member_data ;;
                     Some (ms ++ [player]))
                  (get_d (pa_members data) []) (Some (members party)) ;;
  rm <- manager_from_dict (get_d (pa_resources data) {| md_resources := None |}) ;;
  Some (mkParty (party_name party) ms rm
                (get_d (pa_days_traveled data) 0) (get_d (pa_miles_traveled data) 0)
                (get_d (pa_current_rationing data) "normal"%string)
                (get_d (pa_death_log data) [])).

End PartyMore.

(** * Proofs *)

(** Signs of float results, from the IEEE specification of the kernel floats. *)

Module FloatFacts.

Import Invariants.

Lemma sign_ok_round_aux s mx ex lx :
  sign_ok s (SpecFloat.binary_round_aux FloatOps.prec FloatOps.emax s mx ex lx).
Proof.
  unfold SpecFloat.binary_round_aux.
  destruct (SpecFloat.shr_fexp _ _ _ _ _) as [m1 e1].
  destruct (SpecFloat.shr_fexp _ _ _ _ _) as [m2 e2].
  destruct (SpecFloat.shr_m m2) as [|p|p]; simpl; auto.
  destruct (e2 <=? _); simpl; auto.
Qed.

Lemma sign_ok_round s m e :
  sign_ok s (SpecFloat.binary_round FloatOps.prec FloatOps.emax s m e).
Proof.
  unfold SpecFloat.binary_round.
  destruct (SpecFloat.shl_align _ _ _). apply sign_ok_round_aux.
Qed.

Lemma sign_ok_normalize z : 0 <= z ->
  sign_ok false (SpecFloat.binary_normalize FloatOps.prec FloatOps.emax z 0 false).
Proof.
  intros Hz. destruct z as [|p|p]; simpl; auto.
  - apply sign_ok_round.
  - lia.
Qed.

Lemma sign_ok_ldexp s x e : sign_ok s x -> sign_ok s (SpecFloat.SFldexp FloatOps.prec FloatOps.emax x e).
Proof.
  destruct x; simpl; auto. intros ->. apply sign_ok_round.
Qed.

Lemma sign_ok_SF2Prim x : sign_ok false x -> sign_ok false (Prim2SF (SF2Prim x)).
Proof.
  destruct x as [s|s| |s m e]; simpl; intros H; subst.
  - vm_compute. reflexivity.
  - vm_compute. reflexivity.
  - vm_compute. exact I.
  - unfold FloatOps.Z.ldexp. rewrite FloatAxioms.ldshiftexp_spec.
    apply sign_ok_ldexp. rewrite FloatAxioms.of_uint63_spec.
    apply sign_ok_normalize. apply Uint63.to_Z_bounded.
Qed.

Lemma sign_ok_mul x y : sign_ok false x -> sign_ok false y ->
  sign_ok false (SpecFloat.SFmul FloatOps.prec FloatOps.emax x y).
Proof.
  destruct x as [sx|sx| |sx mx ex], y as [sy|sy| |sy my ey]; simpl; intros Hx Hy;
    subst; simpl; auto.
  apply sign_ok_round_aux.
Qed.

Lemma sign_ok_float_of_int a x : 0 <= a -> float_of_int a = Some x -> sign_ok false (Prim2SF x).
Proof.
  unfold float_of_int. intros Ha.
  destruct (PrimFloat.is_infinity _); intros H; inversion H; subst.
  apply sign_ok_SF2Prim, sign_ok_normalize; exact Ha.
Qed.

Lemma int_of_float_nonneg f v : sign_ok false (Prim2SF f) -> int_of_float f = Some v -> 0 <= v.
Proof.
  unfold int_of_float. destruct (Prim2SF f) as [s|s| |s m e]; simpl; intros Hs H;
    inversion H; subst; try lia.
  destruct (0 <=? e).
  - apply Z.shiftl_nonneg. lia.
  - apply Z.shiftr_nonneg. lia.
Qed.

Lemma mul_if_int_nonneg a c f v :
  0 <= a -> sign_ok false (Prim2SF c) -> mul_if a c = Some f -> int_of_float f = Some v -> 0 <= v.
Proof.
  unfold mul_if. intros Ha Hc.
  destruct (float_of_int a) as [x|] eqn:Ex; [|discriminate].
  intros H; inversion H; subst.
  apply int_of_float_nonneg. rewrite FloatAxioms.mul_spec.
  apply sign_ok_mul; [|exact Hc]. eapply sign_ok_float_of_int; eauto.
Qed.

Lemma heal_medic_nonneg a f v : 0 <= a -> mul_if a 1.35 = Some f -> int_of_float f = Some v -> 0 <= v.
Proof. intros Ha. apply mul_if_int_nonneg; [exact Ha | vm_compute; reflexivity]. Qed.

End FloatFacts.

Module PlayerFacts.

Import Player Invariants FloatFacts.

Lemma Condition_eqb_spec a b : Condition_eqb a b = true <-> a = b.
Proof. unfold Condition_eqb. destruct (Condition_eq_dec a b); split; congruence. Qed.

Lemma in_conditions_spec c cs : in_conditions c cs = true <-> In c cs.
Proof.
  unfold in_conditions. rewrite existsb_exists. split.
  - intros [x [Hx Hc]]. apply Condition_eqb_spec in Hc. subst. exact Hx.
  - intros H. exists c. split; [exact H | apply Condition_eqb_spec; reflexivity].
Qed.

Lemma list_remove_incl c cs x : In x (list_remove c cs) -> In x cs.
Proof.
  induction cs as [|c' cs IH]; simpl; [auto|].
  destruct (Condition_eqb c c'); simpl; [auto|]. intros [H|H]; auto.
Qed.

Lemma list_remove_nodup c cs : NoDup cs -> NoDup (list_remove c cs).
Proof.
  induction cs as [|c' cs IH]; simpl; intros H; [constructor|].
  inversion H as [|? ? Hn Hd]; subst.
  destruct (Condition_eqb c c'); [exact Hd|].
  constructor; [|auto]. intros Hin. apply Hn. eapply list_remove_incl; eauto.
Qed.

Lemma list_remove_absent c cs : ~ In c cs -> list_remove c cs = cs.
Proof.
  induction cs as [|c' cs IH]; simpl; intros H; [reflexivity|].
  destruct (Condition_eqb c c') eqn:E.
  - apply Condition_eqb_spec in E. subst. exfalso. auto.
  - f_equal. auto.
Qed.

Lemma add_condition_shape p c :
  exists cs, snd (add_condition p c) = set_conditions p cs.
Proof.
  unfold add_condition. destruct (_ && _); simpl.
  - eexists; reflexivity.
  - exists (conditions p). destruct p; reflexivity.
Qed.

Lemma remove_condition_shape p c :
  exists cs, snd (remove_condition p c) = set_conditions p cs.
Proof.
  unfold remove_condition. destruct (in_conditions _ _); simpl.
  - eexists; reflexivity.
  - exists (conditions p). destruct p; reflexivity.
Qed.

Lemma add_condition_inv_c p c : Inv_c p -> Inv_c (snd (add_condition p c)).
Proof.
  unfold add_condition, Inv_c. intros [Hd Hh].
  destruct (negb (in_conditions c (conditions p))) eqn:E1; simpl; [|auto].
  destruct (negb (Condition_eqb c HEALTHY)) eqn:E2; simpl; [|auto].
  apply negb_true_iff in E1, E2.
  assert (~ In c (conditions p)) by (rewrite <- in_conditions_spec; congruence).
  assert (c <> HEALTHY) by (rewrite <- Condition_eqb_spec; congruence).
  split.
  - apply NoDup_app; auto.
    + constructor; [simpl; auto | constructor].
    + intros x Hx [Hy|[]]. subst. auto.
  - rewrite in_app_iff. simpl. intuition.
Qed.

Lemma remove_condition_inv_c p c : Inv_c p -> Inv_c (snd (remove_condition p c)).
Proof.
  unfold remove_condition, Inv_c. intros [Hd Hh].
  destruct (in_conditions c (conditions p)); simpl; [|auto].
  split; [apply list_remove_nodup; exact Hd|].
  intros H. apply Hh. eapply list_remove_incl; eauto.
Qed.

Lemma set_conditions_inv_h p cs : Inv_h p -> Inv_h (set_conditions p cs).
Proof. destruct p; unfold Inv_h; simpl; auto. Qed.


Lemma add_condition_inv p c : Inv p -> Inv (snd (add_condition p c)).
Proof.
  intros [Hh Hc]. split; [|apply add_condition_inv_c; exact Hc].
  destruct (add_condition_shape p c) as [cs ->]. apply set_conditions_inv_h; exact Hh.
Qed.

Lemma remove_condition_inv p c : Inv p -> Inv (snd (remove_condition p c)).
Proof.
  intros [Hh Hc]. split; [|apply remove_condition_inv_c; exact Hc].
  destruct (remove_condition_shape p c) as [cs ->]. apply set_conditions_inv_h; exact Hh.
Qed.

Lemma change_morale_inv p a : Inv p -> Inv (change_morale p a).
Proof. destruct p; unfold Inv, Inv_h, Inv_c; simpl; auto. Qed.

Lemma set_days_survived_inv p d : Inv p -> Inv (set_days_survived p d).
Proof. destruct p; unfold Inv, Inv_h, Inv_c; simpl; auto. Qed.

Lemma take_damage_inv p a : Inv p -> Inv (snd (take_damage p a)).
Proof.
  destruct p as [n r h mh m cs d al]; unfold Inv, Inv_h, Inv_c, take_damage, is_alive; simpl.
  intros [[H0 [Hd Hm]] [Hc1 Hc2]].
  destruct (al && (0 <? h)) eqn:Ea; simpl; [|tauto].
  apply andb_true_iff in Ea as [-> Ea]. apply Z.ltb_lt in Ea.
  unfold set_dead, set_health; simpl.
  destruct (h - Z.min a h <=? 0) eqn:E; simpl.
  - repeat split; auto; lia.
  - apply Z.leb_gt in E. repeat split; auto; try lia; discriminate.
Qed.

Lemma take_damage_conditions p a : conditions (snd (take_damage p a)) = conditions p.
Proof.
  unfold take_damage. destruct (negb (is_alive p)); [reflexivity|].
  destruct (_ <=? 0); reflexivity.
Qed.

Ltac split_lets :=
  repeat match goal with
  | |- context [let '(_, _) := ?x in _] => destruct x eqn:?
  | |- context [if ?b then _ else _] => destruct b eqn:?
  | H : context [let '(_, _) := ?x in _] |- _ => destruct x eqn:?
  | H : context [if ?b then _ else _] |- _ => destruct b eqn:?
  | H : (_, _) = (_, _) |- _ => inversion H; subst; clear H
  end.

Lemma add_condition_inv' p c x q : add_condition p c = (x, q) -> Inv p -> Inv q.
Proof.
  intros E H. change q with (snd (x, q)). rewrite <- E. apply add_condition_inv; exact H.
Qed.

Lemma condition_roll_inv st c :
  Inv (fst (fst (fst st))) -> Inv (fst (fst (fst (condition_roll st c)))).
Proof.
  destruct st as [[[p w] b] s]. simpl. intros H. unfold condition_roll.
  split_lets; simpl in *; subst;
    repeat match goal with
    | E : add_condition _ _ = (_, _) |- _ => apply add_condition_inv' in E; [|assumption]
    end;
    try assumption; try (apply remove_condition_inv; assumption).
Qed.

Lemma fold_condition_roll_inv cs st :
  Inv (fst (fst (fst st))) -> Inv (fst (fst (fst (fold_left condition_roll cs st)))).
Proof.
  revert st. induction cs as [|c cs IH]; simpl; intros st H; [exact H|].
  apply IH, condition_roll_inv, H.
Qed.

Lemma take_damage_inv' p a x q : take_damage p a = (x, q) -> Inv p -> Inv q.
Proof.
  intros E H. change q with (snd (x, q)). rewrite <- E. apply take_damage_inv; exact H.
Qed.

Lemma daily_update_inv p s : Inv p -> Inv (snd (fst (daily_update p s))).
Proof.
  intros H. unfold daily_update.
  destruct (negb (is_alive p)); [exact H|].
  pose proof (set_days_survived_inv p (days_survived p + 1) H) as H1.
  set (p1 := set_days_survived p (days_survived p + 1)) in *.
  clearbody p1.
  split_lets; simpl in *;
    match goal with
    | E : fold_left condition_roll ?cs ?st = _ |- _ =>
        let K := fresh in
        pose proof (fold_condition_roll_inv cs st) as K; rewrite E in K; simpl in K; apply K
    end;
    unfold boost_morale, reduce_morale;
    repeat apply change_morale_inv;
    try assumption;
    match goal with
    | E : take_damage _ _ = (_, _) |- _ => apply (take_damage_inv' _ _ _ _ E); assumption
    end.
Qed.

Lemma heal_inv p a m x q : 0 <= a -> heal p a m = Some (x, q) -> Inv p -> Inv q.
Proof.
  intros Ha. unfold heal.
  destruct (is_alive p) eqn:Ealive; simpl.
  2:{ intros E H. inversion E; subst. exact H. }
  assert (Hamt : forall v, (if m then (f <- mul_if a 1.35 ;; int_of_float f) else Some a) = Some v -> 0 <= v).
  { intros v. destruct m.
    - destruct (mul_if a 1.35) as [f|] eqn:Ef; [|discriminate].
      intros Ev. eapply heal_medic_nonneg; eauto.
    - intros Ev. inversion Ev; subst. exact Ha. }
  destruct (if m then _ else _) as [v|] eqn:Ev; [|discriminate].
  specialize (Hamt v eq_refl).
  intros E. inversion E; subst. clear E.
  destruct p as [n r h mh mo cs d al]. unfold is_alive in Ealive. simpl in *.
  apply andb_true_iff in Ealive as [-> Hh]. apply Z.ltb_lt in Hh.
  unfold Inv, Inv_h, Inv_c, set_health. simpl.
  intros [[H0 [Hd Hm]] [Hc1 Hc2]]. subst mh.
  repeat split; auto; try lia; intros; discriminate.
Qed.

Lemma step_inv p op p' :
  (forall a b, op = OpHeal a b -> 0 <= a) -> step p op = Some p' -> Inv p -> Inv p'.
Proof.
  intros Hop. destruct op; simpl; intros E H.
  - inversion E; subst. apply take_damage_inv; exact H.
  - destruct (heal p amount has_medic_bonus) as [[x q]|] eqn:Eh; [|discriminate].
    inversion E; subst. eapply heal_inv; eauto.
  - destruct (daily_update p s) as [[u q] s'] eqn:Ed. inversion E; subst.
    pose proof (daily_update_inv p s H) as K. rewrite Ed in K. exact K.
  - inversion E; subst. apply add_condition_inv; exact H.
  - inversion E; subst. apply remove_condition_inv; exact H.
  - inversion E; subst. apply change_morale_inv; exact H.
Qed.

Lemma reachable_inv p : reachable p -> Inv p.
Proof.
  induction 1 as [n r h m Hh | p op p' Hr IH Hop Hs].
  - unfold Inv, Inv_h, Inv_c, new_player; simpl.
    repeat split; try lia; try constructor; auto; discriminate.
  - eapply step_inv; eauto.
Qed.

Lemma step_dead p op p' : is_alive p = false -> step p op = Some p' -> is_alive p' = false.
Proof.
  intros Hd. destruct op; simpl; intros E.
  - unfold take_damage in E. rewrite Hd in E. inversion E; subst. exact Hd.
  - unfold heal in E. rewrite Hd in E. inversion E; subst. exact Hd.
  - unfold daily_update in E. rewrite Hd in E. inversion E; subst. exact Hd.
  - inversion E; subst. destruct (add_condition_shape p c) as [cs ->].
    destruct p; exact Hd.
  - inversion E; subst. destruct (remove_condition_shape p c) as [cs ->].
    destruct p; exact Hd.
  - inversion E; subst. destruct p; exact Hd.
Qed.

Lemma run_dead p ops p' : is_alive p = false -> run p ops = Some p' -> is_alive p' = false.
Proof.
  revert p. induction ops as [|op ops IH]; simpl; intros p Hd E.
  - inversion E; subst. exact Hd.
  - destruct (step p op) as [q|] eqn:Es; [|discriminate].
    eapply IH; [|exact E]. eapply step_dead; eauto.
Qed.

Lemma add_condition_false p c :
  In c (conditions p) \/ c = HEALTHY -> add_condition p c = (false, p).
Proof.
  intros H. unfold add_condition.
  destruct H as [H | ->].
  - apply in_conditions_spec in H. rewrite H. reflexivity.
  - rewrite andb_false_r. reflexivity.
Qed.

Lemma add_condition_present p c :
  In c (conditions (snd (add_condition p c))) \/ c = HEALTHY.
Proof.
  unfold add_condition.
  destruct (negb (in_conditions c (conditions p))) eqn:E1; simpl.
  - destruct (negb (Condition_eqb c HEALTHY)) eqn:E2; simpl.
    + left. apply in_or_app. right. left. reflexivity.
    + right. apply negb_false_iff, Condition_eqb_spec in E2. exact E2.
  - left. apply negb_false_iff, in_conditions_spec in E1. exact E1.
Qed.

(** C10: [take_damage] on a traveler who is not alive returns [(0, True)]
    and leaves the whole traveler unchanged, whatever the amount. *)
Theorem take_damage_when_dead (p : Player) (amount : Z) (Hdead : is_alive p = false) :
  take_damage p amount = ((0, true), p).
Proof. unfold take_damage. rewrite Hdead. reflexivity. Qed.

Lemma take_damage_when_dead_witness :
  is_alive (set_dead (new_player "Ann" TRAVELER 100 50)) = false /\
  take_damage (set_dead (new_player "Ann" TRAVELER 100 50)) 30
  = ((0, true), set_dead (new_player "Ann" TRAVELER 100 50)).
Proof.
  split; [reflexivity|]. apply take_damage_when_dead. reflexivity.
Defined.

(** C9: for every traveler the game can produce, the conditions are a list
    without duplicates that never holds [HEALTHY]; [add_condition] on a
    present condition or on [HEALTHY] returns false and changes nothing, so a
    second identical call changes nothing; [remove_condition] on an absent
    condition returns false and changes nothing. *)
Theorem conditions_are_a_set (p : Player) (Hr : reachable p) :
  NoDup (conditions p) /\ ~ In HEALTHY (conditions p) /\
  (forall c, In c (conditions p) \/ c = HEALTHY -> add_condition p c = (false, p)) /\
  (forall c, add_condition (snd (add_condition p c)) c = (false, snd (add_condition p c))) /\
  (forall c, ~ In c (conditions p) -> remove_condition p c = (false, p)).
Proof.
  destruct (reachable_inv p Hr) as [_ [Hd Hh]].
  split; [exact Hd|]. split; [exact Hh|]. split; [apply add_condition_false|].
  split.
  - intros c. apply add_condition_false, add_condition_present.
  - intros c Hc. unfold remove_condition.
    destruct (in_conditions c (conditions p)) eqn:E; [|reflexivity].
    apply in_conditions_spec in E. contradiction.
Qed.

Lemma conditions_are_a_set_witness :
  reachable (new_player "Ann" SCOUT 80 60) /\
  NoDup (conditions (new_player "Ann" SCOUT 80 60)) /\
  ~ In HEALTHY (conditions (new_player "Ann" SCOUT 80 60)) /\
  (forall c, In c (conditions (new_player "Ann" SCOUT 80 60)) \/ c = HEALTHY ->
             add_condition (new_player "Ann" SCOUT 80 60) c = (false, new_player "Ann" SCOUT 80 60)) /\
  (forall c, add_condition (snd (add_condition (new_player "Ann" SCOUT 80 60) c)) c
             = (false, snd (add_condition (new_player "Ann" SCOUT 80 60) c))) /\
  (forall c, ~ In c (conditions (new_player "Ann" SCOUT 80 60)) ->
             remove_condition (new_player "Ann" SCOUT 80 60) c = (false, new_player "Ann" SCOUT 80 60)).
Proof.
  assert (H : reachable (new_player "Ann" SCOUT 80 60)) by (constructor; lia).
  split; [exact H|]. apply conditions_are_a_set. exact H.
Defined.

(** C4: for every traveler the game can produce, health is never negative
    and is 0 exactly when the traveler is not alive; [take_damage] keeps
    health non-negative and, on a living traveler, applies
    [min(amount, health)]; once a traveler is not alive, no sequence of
    operations ([take_damage], [heal], [daily_update], condition and morale
    changes) makes them alive again. *)
Theorem health_and_life (p : Player) (Hr : reachable p) :
  0 <= health p /\ (health p = 0 <-> is_alive p = false) /\
  (forall amount,
     0 <= health (snd (take_damage p amount)) /\
     (is_alive p = true -> fst (fst (take_damage p amount)) = Z.min amount (health p))) /\
  (forall ops p', is_alive p = false -> run p ops = Some p' -> is_alive p' = false).
Proof.
  pose proof (reachable_inv p Hr) as Hinv.
  destruct Hinv as [[H0 [Hd Hm]] Hc].
  split; [exact H0|]. split; [|split].
  - unfold is_alive. split.
    + intros ->. apply andb_false_r.
    + intros E. apply andb_false_iff in E as [E|E].
      * apply Hd, E.
      * apply Z.ltb_ge in E. lia.
  - intros amount. split.
    + destruct (take_damage_inv p amount (conj (conj H0 (conj Hd Hm)) Hc)) as [[K _] _].
      exact K.
    + intros Ha. unfold take_damage. rewrite Ha. simpl.
      destruct (_ <=? 0); reflexivity.
  - apply run_dead.
Qed.

Lemma health_and_life_witness :
  reachable (new_player "Ann" MEDIC 70 50) /\
  (0 <= health (new_player "Ann" MEDIC 70 50) /\
   (health (new_player "Ann" MEDIC 70 50) = 0 <-> is_alive (new_player "Ann" MEDIC 70 50) = false) /\
   (forall amount,
      0 <= health (snd (take_damage (new_player "Ann" MEDIC 70 50) amount)) /\
      (is_alive (new_player "Ann" MEDIC 70 50) = true ->
       fst (fst (take_damage (new_player "Ann" MEDIC 70 50) amount))
       = Z.min amount (health (new_player "Ann" MEDIC 70 50)))) /\
   (forall ops p', is_alive (new_player "Ann" MEDIC 70 50) = false ->
                   run (new_player "Ann" MEDIC 70 50) ops = Some p' -> is_alive p' = false)).
Proof.
  assert (H : reachable (new_player "Ann" MEDIC 70 50)) by (constructor; lia).
  split; [exact H|]. apply health_and_life. exact H.
Defined.

End PlayerFacts.

Module SkillFacts.

Import Player SpecFormulas.

(** C5: [get_effective_skill skill base] is the truncation of
    [base × (1 + bonus/100) × (health/100) × (0.5 + morale/200)], multiplied
    in that order; a Hunter with health 100 and morale 75 gets 56 for
    ["hunting"] with base 50. *)
Theorem effective_skill_is_formula :
  (forall p skill base_value,
     get_effective_skill p skill base_value
     = effective_skill_formula (get_skill_bonus p skill) (health p) (morale p) base_value) /\
  get_effective_skill (new_player "Hank" HUNTER 100 75) "hunting" 50 = Some 56.
Proof.
  split.
  - intros p skill base_value.
    unfold get_effective_skill, effective_skill_formula.
    destruct (true_div (get_skill_bonus p skill) 100) as [b|];
    destruct (true_div (health p) 100) as [h|];
    destruct (true_div (morale p) 200) as [m|]; try reflexivity;
    destruct (add_if 1 b) as [f1|]; try reflexivity;
    destruct (mul_if base_value f1); reflexivity.
  - vm_compute. reflexivity.
Qed.

End SkillFacts.

Module ResourceFacts.

Import Resources.

(** With Python ints (exact arithmetic), [add] and [remove] on a
    resource with [0 <= quantity <= max_capacity] keep that invariant, leave
    the capacity alone, and return the clamped delta, which is exactly the
    change of the quantity: [min(amount, max_capacity - quantity)] for [add],
    [min(amount, quantity)] for [remove], 0 for a non-positive amount. *)
Theorem add_remove_clamped (r : Resource Z) (amount : Z)
    (Hq : 0 <= quantity r <= max_capacity r) :
  (let '(a, r') := add r amount in
   0 <= quantity r' <= max_capacity r' /\ max_capacity r' = max_capacity r /\
   a = (if amount <=? 0 then 0 else Z.min amount (max_capacity r - quantity r)) /\
   quantity r' = quantity r + a) /\
  (let '(a, r') := remove r amount in
   0 <= quantity r' <= max_capacity r' /\ max_capacity r' = max_capacity r /\
   a = (if amount <=? 0 then 0 else Z.min amount (quantity r)) /\
   quantity r' = quantity r - a).
Proof.
  destruct r as [t q c ql]. simpl in *.
  unfold add, remove, py_min, set_quantity. simpl.
  destruct (amount <=? 0) eqn:Ea; simpl.
  - repeat split; lia.
  - apply Z.leb_gt in Ea.
    destruct (c - q <? amount) eqn:E1; destruct (q <? amount) eqn:E2;
      rewrite ?Z.ltb_lt, ?Z.ltb_ge in *; repeat split; lia.
Qed.

(** C3, code bug: [add] clamps the added amount to
    [max_capacity - quantity], but with float quantities both that
    difference and the new quantity are rounded.  A resource holding
    [1.5 * 2^-51] (6.661338147750939e-16) of a capacity of [3 + 2^-51]
    (3.0000000000000004) receives [3.0] from [add(10)], since
    [3 + 2^-51 - 1.5 * 2^-51 = 3 - 2^-52] rounds to [3.0]; the new quantity
    [1.5 * 2^-51 + 3] then rounds to [3 + 2^-50] (3.000000000000001), above
    the capacity. *)
Lemma add_float_overshoot :
  let r := mkResource FOOD 6.661338147750939e-16%float 3.0000000000000004%float 100%float in
  (0 <=? quantity r)%float = true /\ (quantity r <=? max_capacity r)%float = true /\
  fst (add r 10%float) = 3%float /\
  quantity (snd (add r 10%float)) = 3.000000000000001%float /\
  (max_capacity r <? quantity (snd (add r 10%float)))%float = true.
Proof. vm_compute. repeat split; reflexivity. Qed.

End ResourceFacts.

Module PartyFacts.

Import Player Resources Party PlayerFacts.

Lemma add_condition_keeps p c :
  morale (snd (add_condition p c)) = morale p /\ is_alive (snd (add_condition p c)) = is_alive p.
Proof. destruct (add_condition_shape p c) as [cs ->]. destruct p; split; reflexivity. Qed.

Lemma add_condition_alive_morale p c :
  map morale (members (add_condition_alive p c)) = map morale (members p).
Proof.
  unfold add_condition_alive, set_members. simpl. rewrite map_map.
  apply map_ext. intros m. destruct (is_alive m); [apply add_condition_keeps | reflexivity].
Qed.

Lemma add_condition_alive_alive p c :
  map is_alive (members (add_condition_alive p c)) = map is_alive (members p).
Proof.
  unfold add_condition_alive, set_members. simpl. rewrite map_map.
  apply map_ext. intros m. destruct (is_alive m) eqn:E; [|exact E].
  rewrite (proj2 (add_condition_keeps m c)). exact E.
Qed.

Lemma add_condition_alive_has p c m :
  c <> HEALTHY -> In m (members (add_condition_alive p c)) -> is_alive m = true ->
  In c (conditions m).
Proof.
  intros Hc Hin Ha. unfold add_condition_alive, set_members in Hin. simpl in Hin.
  apply in_map_iff in Hin as [m0 [<- _]].
  destruct (is_alive m0) eqn:E.
  - destruct (add_condition_present m0 c) as [H|H]; [exact H | contradiction].
  - congruence.
Qed.

Lemma no_food_members p :
  members (apply_morale_event p "no_food")
  = map (fun m => if is_alive m then change_morale m (-20) else m) (members p).
Proof. reflexivity. Qed.

Lemma no_food_alive p :
  map is_alive (members (apply_morale_event p "no_food")) = map is_alive (members p).
Proof.
  rewrite no_food_members, map_map. apply map_ext. intros m.
  destruct (is_alive m) eqn:E; [destruct m; exact E | exact E].
Qed.

Lemma in_map_alive (f : Player -> Player) ms m :
  (forall x, is_alive (f x) = is_alive x) ->
  In m (map f ms) -> exists m0, m = f m0 /\ In m0 ms.
Proof. intros _ H. apply in_map_iff in H as [m0 [<- H]]. eauto. Qed.

Lemma add_condition_alive_back q c m :
  In m (members (add_condition_alive q c)) ->
  exists m0, In m0 (members q) /\ is_alive m = is_alive m0 /\ incl (conditions m0) (conditions m).
Proof.
  unfold add_condition_alive, set_members. simpl. intros Hin.
  apply in_map_iff in Hin as [m0 [<- Hin]]. exists m0. split; [exact Hin|].
  destruct (is_alive m0) eqn:E.
  - split; [rewrite (proj2 (add_condition_keeps m0 c)); exact E|].
    unfold add_condition. destruct (_ && _); simpl; [apply incl_appl, incl_refl | apply incl_refl].
  - split; [exact E | apply incl_refl].
Qed.

Lemma apply_shortages_fst p c :
  fst (apply_shortages p c)
  = (let q := match assoc_get FOOD (shortages c) with
               | Some _ => add_condition_alive (apply_morale_event p "no_food") STARVING
               | None => p
               end in
     match assoc_get WATER (shortages c) with
     | Some _ => add_condition_alive q DEHYDRATED
     | None => q
     end).
Proof.
  unfold apply_shortages.
  destruct (assoc_get FOOD (shortages c)); destruct (assoc_get WATER (shortages c)); reflexivity.
Qed.

(** C1 (as the code has it): the shortage step of [process_day] adds
    [DEHYDRATED] to every living member on a Water shortage and [STARVING]
    on a Food shortage, but only the Food shortage moves morale: every
    living member's morale becomes [clamp(morale - 20)] (the [no_food]
    event) when Food is short, and stays as it was otherwise, whatever the
    Water shortage. *)
Theorem shortage_effects (p : Party) (c : Consumption) :
  let p' := fst (apply_shortages p c) in
  let food_short := match assoc_get FOOD (shortages c) with Some _ => true | None => false end in
  let water_short := match assoc_get WATER (shortages c) with Some _ => true | None => false end in
  map morale (members p')
  = map (fun m => if food_short && is_alive m then Z.max 0 (Z.min 100 (morale m - 20))
                  else morale m) (members p) /\
  map is_alive (members p') = map is_alive (members p) /\
  (water_short = true -> forall m, In m (members p') -> is_alive m = true ->
                          In DEHYDRATED (conditions m)) /\
  (food_short = true -> forall m, In m (members p') -> is_alive m = true ->
                         In STARVING (conditions m)).
Proof.
  cbv zeta. rewrite apply_shortages_fst.
  destruct (assoc_get FOOD (shortages c)) as [x|];
  destruct (assoc_get WATER (shortages c)) as [y|];
  rewrite ?add_condition_alive_morale, ?add_condition_alive_alive, ?no_food_alive;
  (split; [|split; [|split]]); try discriminate; try reflexivity; cbv zeta.
  all: try (rewrite no_food_members, map_map; apply map_ext; intros m; simpl;
            destruct (is_alive m); simpl; [f_equal; lia | reflexivity]).
  all: intros _ m Hin Ha.
  all: try (eapply add_condition_alive_has; [discriminate | exact Hin | exact Ha]).
  apply add_condition_alive_back in Hin as [m0 [Hin0 [Ha0 Hincl]]].
  apply Hincl. eapply add_condition_alive_has; [discriminate | exact Hin0 | congruence].
Qed.

(** C1 fails: one living member with morale 75, food in stock and no water.
    [process_day] reports a Water shortage, the member ends with morale 69,
    and the whole change is the [-6] morale drain of [DEHYDRATED] reported by
    [daily_update]: no morale event is applied for the Water shortage. *)
Lemma water_shortage_without_morale_event :
  let p := set_members (set_resources (new_party "Oregon") (rm_set_quantity new_manager FOOD 100))
                       [new_player "Ruth" HUNTER 100 75] in
  match process_day p "plains" "cloudy" [] with
  | Some (r, p', _) =>
      option_map shortages (consumption r) = Some [(WATER, 1%float)] /\
      events r = ["The party is dehydrated!"%string] /\
      map conditions (members p') = [[DEHYDRATED]] /\
      map (fun u => morale_change (snd u)) (member_updates r) = [-6] /\
      map morale (members p') = [75 + -6]
  | None => False
  end.
Proof. vm_compute. repeat split; reflexivity. Qed.

End PartyFacts.

Module SpeedFacts.

Import Player Party Invariants PlayerFacts SpecFormulas.

Lemma fold_worst_min (f : Player -> Z) l x :
  fold_left (fun worst m => let modifier := f m in if modifier <? worst then modifier else worst) l x
  = fold_left Z.min (map f l) x.
Proof.
  revert x. induction l as [|m l IH]; simpl; intros x; [reflexivity|].
  rewrite IH. f_equal. destruct (f m <? x) eqn:E; [apply Z.ltb_lt in E | apply Z.ltb_ge in E]; lia.
Qed.

Lemma fold_min_bounds lo hi l x :
  lo <= x <= hi -> (forall y, In y l -> lo <= y <= hi) -> lo <= fold_left Z.min l x <= hi.
Proof.
  revert x. induction l as [|y l IH]; simpl; intros x Hx Hl; [exact Hx|].
  apply IH; [|auto]. specialize (Hl y (or_introl eq_refl)). lia.
Qed.

Lemma sum_drain_bounds cs acc :
  acc - 30 * Z.of_nat (List.length cs)
  <= fold_left (fun acc c => acc + travel_speed (CONDITION_EFFECTS c)) cs acc <= acc.
Proof.
  revert acc. induction cs as [|c cs IH]; simpl; intros acc; [lia|].
  specialize (IH (acc + travel_speed (CONDITION_EFFECTS c))).
  assert (-30 <= travel_speed (CONDITION_EFFECTS c) <= 0) by (destruct c; simpl; lia).
  lia.
Qed.

Lemma conditions_length p : Inv_c p -> (List.length (conditions p) <= 9)%nat.
Proof.
  intros [Hd Hh].
  change 9%nat with (List.length [INJURED; HYPOTHERMIA; DYSENTERY; SCURVY; FROSTBITE;
                                  INFECTION; EXHAUSTED; STARVING; DEHYDRATED]).
  apply NoDup_incl_length; [exact Hd|].
  intros c Hc. destruct c; simpl; auto 10. contradiction.
Qed.

Lemma member_speed_bounds m : reachable m -> -290 <= Player.get_travel_speed_modifier m <= 0.
Proof.
  intros Hr. destruct (reachable_inv m Hr) as [_ Hc].
  pose proof (conditions_length m Hc) as Hl.
  pose proof (sum_drain_bounds (conditions m) 0) as Hs.
  unfold Player.get_travel_speed_modifier, sum_drain.
  destruct (health m <? 30); [|destruct (health m <? 50)]; lia.
Qed.

Lemma navigation_bonus_values p :
  let nb := get_party_skill_bonus p "navigation" in nb = 0 \/ nb = 15 \/ nb = 25.
Proof.
  unfold get_party_skill_bonus.
  assert (H : forall l x, x = 0 \/ x = 15 \/ x = 25 ->
            let r := fold_left (fun best m => let bonus := get_skill_bonus m "navigation" in
                                  if best <? bonus then bonus else best) l x in
            r = 0 \/ r = 15 \/ r = 25).
  { induction l as [|m l IH]; simpl; intros x Hx; [exact Hx|].
    apply IH. destruct (x <? get_skill_bonus m "navigation"); [|exact Hx].
    unfold get_skill_bonus. destruct (role m); simpl; auto. }
  apply H. left. reflexivity.
Qed.

Lemma scaled_exact w nb :
  -290 <= w < 0 -> nb = 15 \/ nb = 25 ->
  (q <- true_div nb 200 ;; f <- sub_if 1 q ;; x <- mul_if w f ;; int_of_float x)
  = Some (Z.quot (w * (200 - nb)) 200).
Proof.
  intros Hw Hnb.
  assert (Hall : forallb (fun nb =>
            forallb (fun w =>
              match (q <- true_div nb 200 ;; f <- sub_if 1 q ;; x <- mul_if w f ;; int_of_float x) with
              | Some v => v =? Z.quot (w * (200 - nb)) 200
              | None => false
              end) (map (fun k => - Z.of_nat k) (seq 1 290))) [15; 25] = true)
    by (vm_compute; reflexivity).
  rewrite forallb_forall in Hall.
  assert (Hin : In nb [15; 25]) by (simpl; lia).
  specialize (Hall nb Hin). rewrite forallb_forall in Hall.
  assert (Hw' : In w (map (fun k => - Z.of_nat k) (seq 1 290))).
  { apply in_map_iff. exists (Z.to_nat (- w)). split; [lia|]. apply in_seq. lia. }
  specialize (Hall w Hw').
  destruct (q <- true_div nb 200 ;; f <- sub_if 1 q ;; x <- mul_if w f ;; int_of_float x);
    [|discriminate].
  apply Z.eqb_eq in Hall. rewrite Hall. reflexivity.
Qed.

(** C6: for a party whose living members (all travelers the game can
    produce) are [a :: rest], [get_travel_speed_modifier] is the minimum of
    their own modifiers, scaled by [1 - navBonus/200] with the party's best
    navigation bonus when that minimum is negative, and unscaled otherwise. *)
Theorem party_speed_is_scaled_min (p : Party) (a : Player) (rest : list Player)
    (Halive : alive_members p = a :: rest)
    (Hr : forall m, In m (a :: rest) -> reachable m) :
  Party.get_travel_speed_modifier p
  = Some (party_speed_formula (Player.get_travel_speed_modifier a)
            (map Player.get_travel_speed_modifier rest)
            (get_party_skill_bonus p "navigation")).
Proof.
  unfold Party.get_travel_speed_modifier, party_speed_formula. rewrite Halive.
  rewrite fold_worst_min. simpl map. simpl fold_left.
  pose proof (member_speed_bounds a (Hr a (or_introl eq_refl))) as Ha.
  replace (Z.min 0 (Player.get_travel_speed_modifier a))
    with (Player.get_travel_speed_modifier a) by lia.
  set (worst := fold_left Z.min (map Player.get_travel_speed_modifier rest)
                          (Player.get_travel_speed_modifier a)).
  assert (Hw : -290 <= worst <= 0).
  { apply fold_min_bounds; [exact Ha|].
    intros y Hy. apply in_map_iff in Hy as [m [<- Hm]].
    apply member_speed_bounds, Hr. right. exact Hm. }
  pose proof (navigation_bonus_values p) as Hnb. simpl in Hnb.
  set (nb := get_party_skill_bonus p "navigation") in *.
  destruct (worst <? 0) eqn:Ew; rewrite ?andb_true_r, ?andb_false_r.
  - apply Z.ltb_lt in Ew.
    destruct (0 <? nb) eqn:En; simpl.
    + apply scaled_exact; [lia|]. apply Z.ltb_lt in En. lia.
    + apply Z.ltb_ge in En. assert (nb = 0) as -> by lia.
      f_equal. replace (200 - 0) with 200 by lia. symmetry. apply Z.quot_mul. lia.
  - reflexivity.
Qed.

Lemma party_speed_is_scaled_min_witness :
  let a := set_conditions (new_player "Ann" SCOUT 40 60) [INJURED] in
  let b := new_player "Ben" HUNTER 90 70 in
  let p := set_members (new_party "Oregon") [a; b] in
  alive_members p = a :: [b] /\
  (forall m, In m (a :: [b]) -> reachable m) /\
  Party.get_travel_speed_modifier p
  = Some (party_speed_formula (Player.get_travel_speed_modifier a)
            (map Player.get_travel_speed_modifier [b])
            (get_party_skill_bonus p "navigation")).
Proof.
  intros a b p.
  assert (Hal : alive_members p = a :: [b]) by reflexivity.
  assert (Hr : forall m, In m (a :: [b]) -> reachable m).
  { intros m [<- | [<- | []]].
    - apply (reach_step (new_player "Ann" SCOUT 40 60) (OpAddCondition INJURED)).
      + constructor. lia.
      + intros x y E. discriminate.
      + reflexivity.
    - constructor. lia. }
  split; [exact Hal|]. split; [exact Hr|].
  exact (party_speed_is_scaled_min p a [b] Hal Hr).
Defined.

End SpeedFacts.

Module MemberFacts.

Import Player Resources Party PlayerFacts PartyFacts Views.

Lemma add_condition_key p c x q : add_condition p c = (x, q) -> key q = key p.
Proof.
  intros E. change q with (snd (x, q)). rewrite <- E.
  destruct (add_condition_shape p c) as [cs ->]. destruct p; reflexivity.
Qed.

Lemma remove_condition_key p c : key (snd (remove_condition p c)) = key p.
Proof. destruct (remove_condition_shape p c) as [cs ->]. destruct p; reflexivity. Qed.

Lemma change_morale_key p a : key (change_morale p a) = key p.
Proof. destruct p; reflexivity. Qed.

Lemma take_damage_name p a x q : take_damage p a = (x, q) -> name q = name p.
Proof.
  intros E. change q with (snd (x, q)). rewrite <- E.
  unfold take_damage. destruct (negb (is_alive p)); [reflexivity|].
  destruct (_ <=? 0); destruct p; reflexivity.
Qed.

Lemma take_damage_died p a x q : take_damage p a = ((x, true), q) -> is_alive q = false.
Proof.
  unfold take_damage. destruct (is_alive p) eqn:Ea; simpl.
  - destruct (_ <=? 0); intros E; inversion E; subst.
    unfold is_alive, set_dead. simpl. reflexivity.
  - intros E. inversion E; subst. exact Ea.
Qed.

Lemma condition_roll_key st c k :
  key (fst (fst (fst st))) = k -> key (fst (fst (fst (condition_roll st c)))) = k.
Proof.
  destruct st as [[[p w] b] s]. simpl. intros H. unfold condition_roll.
  split_lets; simpl in *; subst; rewrite ?remove_condition_key;
    repeat match goal with
    | E : add_condition _ _ = (_, _) |- _ => apply add_condition_key in E; rewrite E
    end; reflexivity.
Qed.

Lemma fold_condition_roll_key cs st k :
  key (fst (fst (fst st))) = k -> key (fst (fst (fst (fold_left condition_roll cs st)))) = k.
Proof.
  revert st. induction cs as [|c cs IH]; simpl; intros st H; [exact H|].
  apply IH, condition_roll_key, H.
Qed.

Lemma key_is_alive p q : key p = key q -> is_alive p = is_alive q.
Proof. unfold key, is_alive. intros E. inversion E. congruence. Qed.

Lemma key_name p q : key p = key q -> name p = name q.
Proof. unfold key. intros E. inversion E. reflexivity. Qed.

(** [daily_update] keeps the name; a member it reports dead is not alive. *)
Lemma daily_update_name_died p s :
  name (snd (fst (daily_update p s))) = name p /\
  (died (fst (fst (daily_update p s))) = true -> is_alive (snd (fst (daily_update p s))) = false).
Proof.
  unfold daily_update.
  destruct (negb (is_alive p)) eqn:Ea; [simpl; split; [reflexivity|discriminate]|].
  assert (H1 : name (set_days_survived p (days_survived p + 1)) = name p)
    by (destruct p; reflexivity).
  set (p1 := set_days_survived p (days_survived p + 1)) in *.
  clearbody p1. cbv zeta.
  set (hd := sum_drain health_drain (conditions p1)).
  set (md := sum_drain morale_drain (conditions p1)).
  destruct (if 0 <? hd then _ else _) as [[hc dd] p2] eqn:E2.
  assert (K2 : name p2 = name p1 /\ (dd = true -> is_alive p2 = false)).
  { destruct (0 <? hd).
    - destruct (take_damage p1 hd) as [[dmg d] q] eqn:Et. inversion E2; subst.
      split; [eapply take_damage_name; eauto | intros ->; eapply take_damage_died; eauto].
    - inversion E2; subst. split; [reflexivity|discriminate]. }
  destruct (if 0 <? md then _ else _) as [mc p3] eqn:E3.
  assert (K3 : key p3 = key p2).
  { destruct (0 <? md); inversion E3; subst; [apply change_morale_key | reflexivity]. }
  destruct (if is_healthy p3 && _ then _ else _) as [[mc' p4] s4] eqn:E4.
  assert (K4 : key p4 = key p3).
  { destruct (is_healthy p3 && _).
    - destruct (randint 1 3 s) eqn:?. inversion E4; subst. apply change_morale_key.
    - inversion E4; subst. reflexivity. }
  destruct (fold_left condition_roll _ _) as [[[p5 w] b] s5] eqn:E5.
  pose proof (fold_condition_roll_key (conditions p4) (p4, [], [], s4) (key p4) eq_refl) as K5.
  rewrite E5 in K5. simpl in K5. simpl.
  destruct K2 as [K2a K2b]. split.
  - rewrite (key_name _ _ K5), (key_name _ _ K4), (key_name _ _ K3). congruence.
  - intros Hd. rewrite (key_is_alive _ _ K5), (key_is_alive _ _ K4), (key_is_alive _ _ K3).
    exact (K2b Hd).
Qed.

Lemma heal_name p a m x q : heal p a m = Some (x, q) -> name q = name p.
Proof.
  unfold heal. destruct (negb (is_alive p)).
  - intros E. inversion E; subst. reflexivity.
  - destruct (if m then _ else _); [|discriminate].
    intros E. inversion E; subst. destruct p; reflexivity.
Qed.

Lemma apply_morale_event_same p e :
  names (apply_morale_event p e) = names p /\ death_log (apply_morale_event p e) = death_log p.
Proof.
  unfold apply_morale_event. destruct (_ =? 0); [split; reflexivity|].
  unfold change_party_morale, names, set_members. simpl. split; [|reflexivity].
  rewrite map_map. apply map_ext. intros m. destruct (is_alive m); [|reflexivity].
  apply key_name, change_morale_key.
Qed.

Lemma add_condition_alive_same p c :
  names (add_condition_alive p c) = names p /\ death_log (add_condition_alive p c) = death_log p.
Proof.
  unfold add_condition_alive, names, set_members. simpl. split; [|reflexivity].
  rewrite map_map. apply map_ext. intros m. destruct (is_alive m); [|reflexivity].
  destruct (add_condition m c) eqn:E. simpl. exact (key_name _ _ (add_condition_key _ _ _ _ E)).
Qed.

Lemma apply_shortages_same p c :
  names (fst (apply_shortages p c)) = names p /\ death_log (fst (apply_shortages p c)) = death_log p.
Proof.
  rewrite apply_shortages_fst. cbv zeta.
  destruct (assoc_get FOOD (shortages c)); destruct (assoc_get WATER (shortages c));
    repeat first [ rewrite (proj1 (add_condition_alive_same _ _))
                 | rewrite (proj2 (add_condition_alive_same _ _))
                 | rewrite (proj1 (apply_morale_event_same _ _))
                 | rewrite (proj2 (apply_morale_event_same _ _)) ];
    split; reflexivity.
Qed.

Lemma update_nth_names i x l y :
  nth_error l i = Some y -> name x = name y -> map name (update_nth i x l) = map name l.
Proof.
  revert i. induction l as [|a l IH]; intros [|i]; simpl; intros E N; try discriminate.
  - inversion E; subst. congruence.
  - f_equal. apply IH; assumption.
Qed.

Lemma member_step_same st i :
  let '(p, _, _, ds, _) := st in
  let '(p', _, _, ds', _) := member_step st i in
  names p' = names p /\
  exists log, death_log p' = death_log p ++ log /\ ds' = ds ++ map d_name log.
Proof.
  destruct st as [[[[p s] ups] ds] ev]. unfold member_step.
  assert (Nil : names p = names p /\
                exists log, death_log p = death_log p ++ log /\ ds = ds ++ map d_name log)
    by (split; [reflexivity | exists []; rewrite !app_nil_r; split; reflexivity]).
  destruct (nth_error (members p) i) as [m|] eqn:En; [|exact Nil].
  destruct (is_alive m); [|exact Nil].
  destruct (daily_update m s) as [[u m'] s'] eqn:Ed.
  pose proof (daily_update_name_died m s) as [Hn _]. rewrite Ed in Hn. simpl in Hn.
  assert (Hu : names (set_members p (update_nth i m' (members p))) = names p)
    by (exact (update_nth_names i m' (members p) m En Hn)).
  destruct (died u).
  - destruct (apply_morale_event_same
                (record_death (set_members p (update_nth i m' (members p))) m' "conditions")
                "death") as [A1 A2].
    rewrite A1, A2. split; [exact Hu|].
    eexists. split; [reflexivity|]. reflexivity.
  - split; [exact Hu|]. exists []. rewrite !app_nil_r. split; reflexivity.
Qed.

Lemma fold_member_step_same is st :
  let '(p, _, _, ds, _) := st in
  let '(p', _, _, ds', _) := fold_left member_step is st in
  names p' = names p /\
  exists log, death_log p' = death_log p ++ log /\ ds' = ds ++ map d_name log.
Proof.
  revert st. induction is as [|i is IH]; intros st; simpl.
  - destruct st as [[[[p s] ups] ds] ev]. split; [reflexivity|].
    exists []. rewrite !app_nil_r. split; reflexivity.
  - pose proof (member_step_same st i) as H1.
    specialize (IH (member_step st i)).
    destruct st as [[[[p s] ups] ds] ev].
    destruct (member_step _ i) as [[[[p1 s1] ups1] ds1] ev1].
    destruct (fold_left member_step is _) as [[[[p2 s2] ups2] ds2] ev2].
    destruct H1 as [N1 [l1 [L1 D1]]]. destruct IH as [N2 [l2 [L2 D2]]].
    split; [congruence|]. exists (l1 ++ l2).
    rewrite L2, L1, D2, D1, map_app, !app_assoc. split; reflexivity.
Qed.

Lemma process_day_same p t w s r p' s' :
  process_day p t w s = Some (r, p', s') ->
  names p' = names p /\
  exists log, death_log p' = death_log p ++ log /\ deaths r = map d_name log.
Proof.
  unfold process_day.
  set (p0 := set_days_traveled p (days_traveled p + 1)).
  assert (S0 : names p0 = names p /\ death_log p0 = death_log p) by (split; reflexivity).
  clearbody p0.
  destruct (if 0 <? alive_count p0 then _ else _) as [[[[c0 wn] ev] p1]|] eqn:E1;
    [|discriminate].
  assert (S1 : names p1 = names p /\ death_log p1 = death_log p).
  { destruct (0 <? alive_count p0); [|inversion E1; subst; exact S0].
    destruct (consume_daily _ _ _ _) as [[c rm]|]; [|discriminate].
    destruct (apply_shortages (set_resources p0 rm) c) as [p2 ev2] eqn:Es.
    inversion E1; subst.
    pose proof (apply_shortages_same (set_resources p0 rm) c) as S2.
    rewrite Es in S2. simpl in S2. destruct S2 as [-> ->]. exact S0. }
  destruct (apply_daily_decay (resources p1) w) as [dec rm] eqn:Edec.
  set (p2 := set_resources p1 rm).
  assert (S2 : names p2 = names p /\ death_log p2 = death_log p) by exact S1.
  clearbody p2.
  pose proof (fold_member_step_same (seq 0 (List.length (members p2))) (p2, s, [], [], ev)) as F.
  destruct (fold_left member_step _ _) as [[[[p3 s3] ups] ds] ev3].
  destruct F as [N3 [log [L3 D3]]].
  destruct (if (w =? "storm")%string || (w =? "blizzard")%string then _ else _)
    as [[p4 ev4] s4] eqn:E4.
  assert (S4 : names p4 = names p3 /\ death_log p4 = death_log p3).
  { destruct (_ || _); [inversion E4; subst; apply apply_morale_event_same|].
    destruct (w =? "clear")%string; [|inversion E4; subst; split; reflexivity].
    destruct (random s3) as [x s5]. destruct (x <? 0.3)%float;
      inversion E4; subst; [apply apply_morale_event_same | split; reflexivity]. }
  destruct (days_of_supplies _ _ _) as [fd|]; [|discriminate].
  destruct (if _ && _ then _ else _) as [p5 wn5] eqn:E5.
  assert (S5 : names p5 = names p4 /\ death_log p5 = death_log p4).
  { destruct (_ && _); inversion E5; subst; [apply apply_morale_event_same | split; reflexivity]. }
  intros E. inversion E; subst. simpl.
  split; [destruct S5, S4, S2; congruence|].
  exists log. split; [destruct S5, S4, S2; congruence | reflexivity].
Qed.

Lemma rest_clear_key cs st k :
  key (fst (fst st)) = k -> key (fst (fst (fold_left rest_clear cs st))) = k.
Proof.
  revert st. induction cs as [|c cs IH]; simpl; intros st H; [exact H|].
  apply IH. destruct st as [[m cl] s0]. unfold rest_clear. simpl in *.
  destruct (_ || _); [|exact H].
  destruct (random s0) as [x s1]. destruct (x <? 0.3)%float; [|exact H].
  simpl. rewrite remove_condition_key. exact H.
Qed.

Lemma fold_rest_member_same hm is st p' hl cl s' :
  fold_left (rest_member hm) is st = Some (p', hl, cl, s') ->
  exists p hl0 cl0 s, st = Some (p, hl0, cl0, s) /\
    names p' = names p /\ death_log p' = death_log p.
Proof.
  revert st. induction is as [|i is IH]; simpl; intros st E.
  - subst. do 4 eexists. split; [reflexivity | split; reflexivity].
  - apply IH in E as [p1 [hl1 [cl1 [s1 [E1 [N1 D1]]]]]].
    destruct st as [[[[p hl0] cl0] s]|]; [|discriminate].
    do 4 eexists. split; [reflexivity|].
    unfold rest_member in E1. simpl in E1.
    destruct (nth_error (members p) i) as [m|] eqn:En.
    2:{ inversion E1; subst. split; assumption. }
    destruct (randint 5 15 s) as [a s2].
    destruct (heal m a hm) as [[healed m2]|] eqn:Eh; [|discriminate].
    pose proof (rest_clear_key (conditions m2) (m2, cl0, s2) _ eq_refl) as K.
    destruct (fold_left rest_clear _ _) as [[m3 cl3] s3].
    inversion E1; subst. simpl in K.
    split; [|exact D1].
    rewrite N1. unfold names at 1. simpl.
    apply (update_nth_names i m3 (members p) m En).
    rewrite (key_name _ _ K). exact (heal_name _ _ _ _ _ Eh).
Qed.

Lemma rest_day_same st p' rep' s' :
  rest_day st = Some (p', rep', s') ->
  exists p rep s, st = Some (p, rep, s) /\ names p' = names p /\ death_log p' = death_log p.
Proof.
  unfold rest_day. destruct st as [[[p rep] s]|]; [|discriminate].
  destruct (fold_left _ _ _) as [[[[p1 hl] cl] s1]|] eqn:Ef; [|discriminate].
  apply fold_rest_member_same in Ef as [p0 [hl0 [cl0 [s0 [E0 [N1 D1]]]]]].
  inversion E0; subst p0.
  destruct (consume_daily _ _ _ _) as [crm|]; [|discriminate].
  intros E. inversion E; subst.
  do 3 eexists. split; [reflexivity|].
  destruct (apply_morale_event_same p1 "rest_day") as [A1 A2].
  split; unfold names in *; simpl in *; congruence.
Qed.

Lemma iter_rest_day_same p n st0 q r0 t :
  (forall q0 r1 t1, st0 = Some (q0, r1, t1) -> names q0 = names p /\ death_log q0 = death_log p) ->
  Nat.iter n rest_day st0 = Some (q, r0, t) -> names q = names p /\ death_log q = death_log p.
Proof.
  intros H0. revert q r0 t. induction n as [|n IH]; simpl; intros q r0 t Ei.
  - exact (H0 _ _ _ Ei).
  - apply rest_day_same in Ei as [q1 [r1 [t1 [E1 [N1 D1]]]]].
    destruct (IH _ _ _ E1) as [N2 D2]. split; congruence.
Qed.

Lemma rest_same p d s rep p' s' :
  rest p d s = Some (rep, p', s') -> names p' = names p /\ death_log p' = death_log p.
Proof.
  unfold rest.
  destruct (Nat.iter (Z.to_nat d) rest_day _) as [[[q r0] t]|] eqn:Ei; [|discriminate].
  intros E. inversion E; subst.
  refine (iter_rest_day_same p _ _ _ _ _ _ Ei).
  intros q0 r1 t1 E0. inversion E0. split; reflexivity.
Qed.

(** C7 (as the code has it): no operation of the game deletes a member;
    [remove_member], which the code defines but never calls, is the one
    that does. [add_member] only appends, a morale event keeps the members
    (same names, in order) and the death log, [process_day] keeps the
    members and extends the death log by one entry per reported death,
    [daily_update] leaves a member it reports dead not alive, [rest] keeps
    the members and the death log, and [_record_death] leaves the members
    as they are and appends one entry for the dead member. *)
Theorem members_kept_except_remove_member :
  (forall p pl, exists extra, members (snd (add_member p pl)) = members p ++ extra) /\
  (forall p e, names (apply_morale_event p e) = names p /\
               death_log (apply_morale_event p e) = death_log p) /\
  (forall p t w s r p' s', process_day p t w s = Some (r, p', s') ->
     names p' = names p /\
     exists log, death_log p' = death_log p ++ log /\ deaths r = map d_name log) /\
  (forall m s, died (fst (fst (daily_update m s))) = true ->
               is_alive (snd (fst (daily_update m s))) = false) /\
  (forall p d s rep p' s', rest p d s = Some (rep, p', s') ->
     names p' = names p /\ death_log p' = death_log p) /\
  (forall p m c, members (record_death p m c) = members p /\
     exists e, death_log (record_death p m c) = death_log p ++ [e] /\ d_name e = name m).
Proof.
  split; [|split; [|split; [|split; [|split]]]].
  - intros p pl. unfold add_member. destruct (_ <=? _).
    + exists []. rewrite app_nil_r. reflexivity.
    + exists [pl]. reflexivity.
  - exact apply_morale_event_same.
  - exact process_day_same.
  - intros m s. exact (proj2 (daily_update_name_died m s)).
  - exact rest_same.
  - intros p m c. split; [reflexivity|]. eexists. split; reflexivity.
Qed.

Lemma members_kept_except_remove_member_witness :
  let p := set_members (new_party "Oregon")
             [set_conditions (set_health (new_player "Ruth" HUNTER 100 75) 3) [DEHYDRATED];
              new_player "Ann" SCOUT 100 75] in
  exists r p' s', process_day p "plains"%string "cloudy"%string [] = Some (r, p', s') /\
    deaths r = ["Ruth"%string] /\
    names p' = names p /\
    exists log, death_log p' = death_log p ++ log /\ deaths r = map d_name log.
Proof.
  intros p.
  destruct (process_day p "plains"%string "cloudy"%string []) as [[[r p'] s']|] eqn:E;
    [|vm_compute in E; discriminate].
  exists r, p', s'. split; [reflexivity|]. split.
  - pose proof E as E'. vm_compute in E'. inversion E'. reflexivity.
  - exact (proj1 (proj2 (proj2 members_kept_except_remove_member))
             p "plains"%string "cloudy"%string [] r p' s' E).
Defined.

(** C7, counterexample: [remove_member] physically deletes the member it
    is given; on a party of one, the members list becomes empty. *)
Lemma remove_member_deletes :
  let ann := new_player "Ann" SCOUT 100 75 in
  let p := set_members (new_party "Oregon") [ann] in
  remove_member p ann = (true, set_members p []) /\
  members (snd (remove_member p ann)) = [].
Proof. vm_compute. split; reflexivity. Qed.

End MemberFacts.

Module ActivityFacts.

Import Hunting Gathering.

Lemma hunt_fail_zero t w sk hb ammo st lb s r s' :
  hunt t w sk hb ammo st lb s = Some (r, s') -> h_success r = false -> food_gained r = 0.
Proof.
  unfold hunt. destruct (ammo <? 2); [intros E; inversion E; reflexivity|].
  destruct (select_target_animal _ _ _ s) as [[[a|] s1]|]; try discriminate;
    [|intros E; inversion E; reflexivity].
  repeat (match goal with |- context [match ?x with _ => _ end] => destruct x eqn:? end);
    intros E; inversion E; subst; simpl; try reflexivity; discriminate.
Qed.

Lemma forage_fail_fraction t w se f sk n d rs rf rest r1 s1 r2 s2 :
  forage t w se f sk n (d :: rs :: rest) = Some (r1, s1) -> f_success r1 = true ->
  forage t w se f sk n (d :: rf :: rest) = Some (r2, s2) -> f_success r2 = false ->
  (y <- mul_if (f_food_gained r1 + water_gained r1) 0.3 ;; int_of_float y)
  = Some (f_food_gained r2 + water_gained r2).
Proof.
  unfold forage. cbv beta iota zeta delta [random next randint].
  destruct (if can_forage t f then base_yields t f else None) as [[mn mx]|];
    [| intros E1 S1; inversion E1; subst; discriminate].
  repeat (match goal with |- context [match ?x with _ => _ end] => destruct x eqn:? end).
  all: intros E1 S1 E2 S2; inversion E1; inversion E2; subst;
    cbn [f_success f_food_gained water_gained] in *; try discriminate.
  all: match goal with
  | S1 : (?a <=? ?c)%float = true, S2 : (?b <=? ?c)%float = false,
    H1 : (if (?a <=? ?c)%float then _ else _) = Some _,
    H2 : (if (?b <=? ?c)%float then _ else _) = Some _ |- _ =>
      rewrite S1 in H1; rewrite S2 in H2; injection H1 as <-
  end.
  all: rewrite ?Z.add_0_l, ?Z.add_0_r in *.
  all: match goal with
  | H : mul_if ?z _ = _, H2 : match mul_if ?z _ with _ => _ end = _ |- _ => rewrite H in H2
  end.
  all: first [assumption | discriminate].
Qed.

(** C2 (as the code has it): a hunt that fails yields no food at all, also
    once game has been found; a forage whose success roll fails, all else
    (the same draw for the amount) being equal, yields [int(F * 0.3)] where
    [F] is what the successful roll yields. *)
Theorem failed_roll_yields :
  (forall t w sk hb ammo st lb s r s',
     hunt t w sk hb ammo st lb s = Some (r, s') -> h_success r = false -> food_gained r = 0) /\
  (forall t w se f sk n d rs rf rest r1 s1 r2 s2,
     forage t w se f sk n (d :: rs :: rest) = Some (r1, s1) -> f_success r1 = true ->
     forage t w se f sk n (d :: rf :: rest) = Some (r2, s2) -> f_success r2 = false ->
     (y <- mul_if (f_food_gained r1 + water_gained r1) 0.3 ;; int_of_float y)
     = Some (f_food_gained r2 + water_gained r2)).
Proof. split; [exact hunt_fail_zero | exact forage_fail_fraction]. Qed.

Lemma failed_roll_yields_witness :
  (exists r s', hunt "forest" "clear" 50 0 100 NORMAL 0 [80; 0; 99; 0; 0; 0; 0] = Some (r, s') /\
     h_success r = false /\ h_animal r = Some WATERFOWL /\ food_gained r = 0) /\
  (exists r1 s1 r2 s2,
     forage "forest" "clear" "summer" BERRIES 50 1 [4503599627370496; 0] = Some (r1, s1) /\
     forage "forest" "clear" "summer" BERRIES 50 1 [4503599627370496; 99] = Some (r2, s2) /\
     f_food_gained r1 = 18 /\ f_food_gained r2 = 5 /\
     (y <- mul_if (f_food_gained r1 + water_gained r1) 0.3 ;; int_of_float y)
     = Some (f_food_gained r2 + water_gained r2)).
Proof.
  split.
  - pose (r := {| h_success := false; h_animal := Some WATERFOWL; food_gained := 0;
                  ammo_used := 2; hunter_injured := false; injury_damage := 0;
                  time_spent := 4 |}).
    assert (E : hunt "forest" "clear" 50 0 100 NORMAL 0 [80; 0; 99; 0; 0; 0; 0]
                = Some (r, [0; 0])) by (vm_compute; reflexivity).
    exists r, [0; 0]. split; [exact E|]. split; [reflexivity|]. split; [reflexivity|].
    exact (proj1 failed_roll_yields _ _ _ _ _ _ _ _ _ _ E eq_refl).
  - pose (r1 := {| f_success := true; forage_type := BERRIES; f_food_gained := 18;
                   water_gained := 0; f_time_spent := 3 |}).
    pose (r2 := {| f_success := false; forage_type := BERRIES; f_food_gained := 5;
                   water_gained := 0; f_time_spent := 3 |}).
    assert (E1 : forage "forest" "clear" "summer" BERRIES 50 1 [4503599627370496; 0]
                 = Some (r1, [])) by (vm_compute; reflexivity).
    assert (E2 : forage "forest" "clear" "summer" BERRIES 50 1 [4503599627370496; 99]
                 = Some (r2, [])) by (vm_compute; reflexivity).
    exists r1, [], r2, []. split; [exact E1|]. split; [exact E2|].
    split; [reflexivity|]. split; [reflexivity|].
    exact (proj2 failed_roll_yields _ _ _ _ _ _ _ _ _ _ _ _ _ _ E1 eq_refl E2 eq_refl).
Defined.

(** C2, counterexample: a hunt that finds game (waterfowl in a clear
    forest) and misses the success roll yields 0 food, where the same draws
    with a successful roll yield 8: the failed yield is no fraction of the
    successful one. *)
Lemma hunt_failure_yields_nothing :
  match hunt "forest" "clear" 50 0 100 NORMAL 0 [80; 0; 99; 0; 0; 0; 0],
        hunt "forest" "clear" 50 0 100 NORMAL 0 [80; 0; 0; 0; 0; 0; 0] with
  | Some (rf, _), Some (rs, _) =>
      h_animal rf = Some WATERFOWL /\ h_success rf = false /\ food_gained rf = 0 /\
      h_animal rs = Some WATERFOWL /\ h_success rs = true /\ food_gained rs = 8
  | _, _ => False
  end.
Proof. vm_compute. repeat split; reflexivity. Qed.

End ActivityFacts.

(** Rounding of binary64 products with normal operands, from the IEEE
    definitions of [SpecFloat]: the facts behind the ration ordering. *)
Module FloatRound.

Import Py.

(** Number of binary digits of a positive mantissa. *)
Definition D (p : positive) : Z := Zpos (digits2_pos p).

Lemma D_log2 p : D p = Z.log2 (Zpos p) + 1.
Proof.
  unfold D. assert (H : digits2_pos p = Pos.size p)
    by (induction p; simpl; try rewrite IHp; reflexivity).
  rewrite H. destruct p as [p|p|]; simpl; try rewrite Pos.add_1_r; reflexivity.
Qed.

Lemma D_bounds p : 1 <= D p /\ 2 ^ (D p - 1) <= Zpos p < 2 ^ D p.
Proof.
  rewrite D_log2. pose proof (Z.log2_spec (Zpos p) ltac:(lia)) as H.
  pose proof (Z.log2_nonneg (Zpos p)).
  replace (Z.log2 (Zpos p) + 1 - 1) with (Z.log2 (Zpos p)) by lia.
  rewrite <- Z.add_1_r in H. lia.
Qed.

Lemma D_unique p k : 0 < k -> 2 ^ (k - 1) <= Zpos p < 2 ^ k -> D p = k.
Proof.
  intros Hk Hp. rewrite D_log2.
  rewrite (Z.log2_unique (Zpos p) (k - 1)); [lia|lia|].
  replace (Z.succ (k - 1)) with k by lia. exact Hp.
Qed.

Lemma iter_pos_nat {A} (f : A -> A) p x :
  SpecFloat.iter_pos f p x = Nat.iter (Pos.to_nat p) f x.
Proof.
  revert x. induction p as [p IH|p IH|]; intros x; cbn [SpecFloat.iter_pos].
  - rewrite IH, IH, Pos2Nat.inj_xI.
    rewrite <- Nat.iter_add, <- Nat.iter_succ_r. f_equal. lia.
  - rewrite IH, IH, Pos2Nat.inj_xO, <- Nat.iter_add. f_equal. lia.
  - reflexivity.
Qed.

Lemma shr_1_m mrs : 0 <= shr_m mrs -> shr_m (shr_1 mrs) = Z.div2 (shr_m mrs).
Proof.
  destruct mrs as [m r s]. simpl. intros H.
  destruct m as [|[p|p|]|p]; try reflexivity. lia.
Qed.

Lemma shr_1_m_nonneg mrs : 0 <= shr_m mrs -> 0 <= shr_m (shr_1 mrs).
Proof. intros H. rewrite shr_1_m by exact H. rewrite Z.div2_div. apply Z.div_pos; lia. Qed.

Lemma iter_shr_m k mrs :
  0 <= shr_m mrs -> shr_m (Nat.iter k shr_1 mrs) = shr_m mrs / 2 ^ Z.of_nat k.
Proof.
  intros H. induction k as [|k IH].
  - simpl. rewrite Z.div_1_r. reflexivity.
  - assert (Hn : 0 <= shr_m (Nat.iter k shr_1 mrs)).
    { rewrite IH. apply Z.div_pos; [exact H | apply Z.pow_pos_nonneg; lia]. }
    change (Nat.iter (S k) shr_1 mrs) with (shr_1 (Nat.iter k shr_1 mrs)).
    assert (Hp : 0 < 2 ^ Z.of_nat k) by (apply Z.pow_pos_nonneg; lia).
    rewrite shr_1_m by exact Hn. rewrite Z.div2_div, IH, Z.div_div by lia.
    f_equal. rewrite Nat2Z.inj_succ, Z.pow_succ_r by lia. lia.
Qed.

Lemma iter_shr_exact k q :
  0 <= q ->
  Nat.iter k shr_1 {| shr_m := q * 2 ^ Z.of_nat k; shr_r := false; shr_s := false |}
  = {| shr_m := q; shr_r := false; shr_s := false |}.
Proof.
  revert q. induction k as [|k IH]; intros q Hq.
  - simpl. rewrite Z.mul_1_r. reflexivity.
  - change (Nat.iter (S k) shr_1 ?x) with (shr_1 (Nat.iter k shr_1 x)).
    replace (q * 2 ^ Z.of_nat (S k)) with ((2 * q) * 2 ^ Z.of_nat k)
      by (rewrite Nat2Z.inj_succ, Z.pow_succ_r by lia; lia).
    rewrite IH by lia. destruct q as [|p|p]; [reflexivity|reflexivity|lia].
Qed.

Lemma rne_bounds m l :
  m <= round_nearest_even m l <= m + 1 /\
  (l = loc_Exact -> round_nearest_even m l = m).
Proof.
  destruct l as [|[]]; simpl; try destruct (Z.even m); split; try lia; try reflexivity;
    discriminate.
Qed.

(** The result of rounding a mantissa [r] (with [2^52 <= r <= 2^53]) at
    exponent [e]. *)
Definition mk (r e : Z) : spec_float :=
  if r =? 2 ^ 53 then
    (if e + 1 <=? 971 then S754_finite false (Z.to_pos (2 ^ 52)) (e + 1)
     else S754_infinity false)
  else if e <=? 971 then S754_finite false (Z.to_pos r) e
  else S754_infinity false.

Lemma fexp_normal z : -1074 <= z - 53 -> SpecFloat.fexp FloatOps.prec FloatOps.emax z = z - 53.
Proof. intros H. unfold SpecFloat.fexp, SpecFloat.emin, FloatOps.prec, FloatOps.emax. lia. Qed.

Lemma Zdigits2_pos p : SpecFloat.Zdigits2 (Zpos p) = D p.
Proof. reflexivity. Qed.

Lemma shr_eq mrs e n :
  0 <= n -> SpecFloat.shr mrs e n = (Nat.iter (Z.to_nat n) shr_1 mrs, e + n).
Proof.
  intros H. unfold SpecFloat.shr. destruct n as [|p|p].
  - simpl. rewrite Z.add_0_r. reflexivity.
  - rewrite iter_pos_nat. reflexivity.
  - lia.
Qed.

Lemma quotient_bounds (P : positive) :
  53 <= D P -> 2 ^ 52 <= Zpos P / 2 ^ (D P - 53) < 2 ^ 53.
Proof.
  intros HD. destruct (D_bounds P) as [_ [H1 H2]].
  assert (Hp : 0 < 2 ^ (D P - 53)) by (apply Z.pow_pos_nonneg; lia).
  split.
  - apply Z.div_le_lower_bound; [exact Hp|].
    rewrite <- Z.pow_add_r by lia. replace (D P - 53 + 52) with (D P - 1) by lia. exact H1.
  - apply Z.div_lt_upper_bound; [exact Hp|].
    rewrite <- Z.pow_add_r by lia. replace (D P - 53 + 53) with (D P) by lia. exact H2.
Qed.

Lemma round_aux_spec (P : positive) : 53 <= D P ->
  exists r, Zpos P / 2 ^ (D P - 53) <= r <= Zpos P / 2 ^ (D P - 53) + 1 /\
    (Zpos P mod 2 ^ (D P - 53) = 0 -> r = Zpos P / 2 ^ (D P - 53)) /\
    forall E, -1074 <= D P + E - 53 ->
      SpecFloat.binary_round_aux FloatOps.prec FloatOps.emax false (Zpos P) E loc_Exact
      = mk r (E + D P - 53).
Proof.
  intros HD.
  set (R0 := {| shr_m := Zpos P; shr_r := false; shr_s := false |}).
  set (R1 := Nat.iter (Z.to_nat (D P - 53)) shr_1 R0).
  assert (Hq : shr_m R1 = Zpos P / 2 ^ (D P - 53)).
  { unfold R1. rewrite iter_shr_m by (simpl; lia). rewrite Z2Nat.id by lia. reflexivity. }
  pose proof (quotient_bounds P HD) as Qb.
  exists (round_nearest_even (shr_m R1) (loc_of_shr_record R1)).
  destruct (rne_bounds (shr_m R1) (loc_of_shr_record R1)) as [Rb Rex].
  split; [rewrite <- Hq; exact Rb|]. split.
  - intros Hm. rewrite Rex, Hq; [reflexivity|].
    assert (HP : Zpos P = (Zpos P / 2 ^ (D P - 53)) * 2 ^ Z.of_nat (Z.to_nat (D P - 53))).
    { rewrite Z2Nat.id by lia. pose proof (Z.div_mod (Zpos P) (2 ^ (D P - 53))) as Hd.
      rewrite Hm in Hd. lia. }
    unfold R1, R0. rewrite HP at 1. rewrite iter_shr_exact by lia. reflexivity.
  - intros E HE. unfold SpecFloat.binary_round_aux, SpecFloat.shr_fexp at 1.
    rewrite Zdigits2_pos, fexp_normal by lia.
    replace (D P + E - 53 - E) with (D P - 53) by lia.
    rewrite shr_eq by lia.
    change (shr_record_of_loc (Zpos P) loc_Exact) with R0. fold R1.
    cbv beta iota.
    set (r := round_nearest_even (shr_m R1) (loc_of_shr_record R1)) in *.
    clearbody r.
    assert (Hr : 2 ^ 52 <= r <= 2 ^ 53) by lia.
    destruct r as [|pr|pr]; [lia| |lia].
    unfold SpecFloat.shr_fexp. rewrite Zdigits2_pos.
    unfold mk.
    destruct (Z.eq_dec (Zpos pr) (2 ^ 53)) as [Eq|Ne].
    + rewrite Eq, Z.eqb_refl.
      assert (Dp : D pr = 54) by (apply D_unique; lia).
      rewrite Dp, fexp_normal by lia.
      rewrite shr_eq by lia.
      replace (Z.to_nat (54 + (E + (D P - 53)) - 53 - (E + (D P - 53)))) with 1%nat by lia.
       cbn -[Z.add Z.sub].
      replace (E + (D P - 53) + (54 + (E + (D P - 53)) - 53 - (E + (D P - 53))))
        with (E + D P - 53 + 1) by lia.
      reflexivity.
    + rewrite (proj2 (Z.eqb_neq _ _) Ne).
      assert (Dp : D pr = 53) by (apply D_unique; lia).
      rewrite Dp, fexp_normal by lia.
      rewrite shr_eq by lia.
      replace (Z.to_nat (53 + (E + (D P - 53)) - 53 - (E + (D P - 53)))) with 0%nat by lia.
      replace (E + (D P - 53) + (53 + (E + (D P - 53)) - 53 - (E + (D P - 53))))
        with (E + D P - 53) by lia.
      cbn [Nat.iter shr_record_of_loc shr_m]. reflexivity.
Qed.

(** A normal binary64 mantissa. *)
Definition canon (m : positive) : Prop := 2 ^ 52 <= Zpos m < 2 ^ 53.

Lemma canon_D m : canon m -> D m = 53.
Proof. unfold canon. intros H. apply D_unique; simpl; lia. Qed.

Lemma mk_cases r e : 2 ^ 52 <= r <= 2 ^ 53 ->
  mk r e = S754_infinity false \/
  exists m e', mk r e = S754_finite false m e' /\ canon m /\ e' <= 971 /\
    (e' = e /\ Zpos m = r \/ e' = e + 1).
Proof.
  intros Hr. unfold mk, canon.
  destruct (Z.eqb_spec r (2 ^ 53)) as [Er|Ner].
  - destruct (Z.leb_spec (e + 1) 971); [right|left; reflexivity].
    exists (Z.to_pos (2 ^ 52)), (e + 1). split; [reflexivity|].
    rewrite Z2Pos.id by lia. lia.
  - destruct (Z.leb_spec e 971); [right|left; reflexivity].
    exists (Z.to_pos r), e. split; [reflexivity|]. rewrite Z2Pos.id by lia. lia.
Qed.

Lemma mk_shift r e k m e' : 0 <= k ->
  mk r e = S754_finite false m e' -> mk r (e - k) = S754_finite false m (e' - k).
Proof.
  intros Hk. unfold mk.
  destruct (r =? 2 ^ 53).
  - destruct (Z.leb_spec (e + 1) 971); [|discriminate].
    intros E; injection E as <- <-.
    rewrite (proj2 (Z.leb_le (e - k + 1) 971)) by lia. f_equal. lia.
  - destruct (Z.leb_spec e 971); [|discriminate].
    intros E; injection E as <- <-.
    rewrite (proj2 (Z.leb_le (e - k) 971)) by lia. reflexivity.
Qed.

Lemma mul_round m1 e1 m2 e2 :
  SpecFloat.SFmul FloatOps.prec FloatOps.emax (S754_finite false m1 e1) (S754_finite false m2 e2)
  = SpecFloat.binary_round_aux FloatOps.prec FloatOps.emax false (Zpos (m1 * m2)) (e1 + e2) loc_Exact.
Proof. reflexivity. Qed.

Lemma D_mul_canon m1 m2 : canon m1 -> canon m2 -> 105 <= D (m1 * m2) <= 106.
Proof.
  unfold canon. intros H1 H2. destruct (D_bounds (m1 * m2)) as [H0 [Hl Hu]].
  rewrite Pos2Z.inj_mul in Hl, Hu.
  assert (Hlo : 2 ^ 104 <= Zpos m1 * Zpos m2).
  { change (2 ^ 104) with (2 ^ 52 * 2 ^ 52). apply Z.mul_le_mono_nonneg; lia. }
  assert (Hhi : Zpos m1 * Zpos m2 < 2 ^ 106).
  { change (2 ^ 106) with (2 ^ 53 * 2 ^ 53). apply Z.mul_lt_mono_nonneg; lia. }
  split.
  - destruct (Z.le_gt_cases 105 (D (m1 * m2))) as [|Hlt]; [assumption|].
    assert (2 ^ D (m1 * m2) <= 2 ^ 104) by (apply Z.pow_le_mono_r; lia). lia.
  - destruct (Z.le_gt_cases (D (m1 * m2)) 106) as [|Hlt]; [assumption|].
    assert (2 ^ 106 <= 2 ^ (D (m1 * m2) - 1)) by (apply Z.pow_le_mono_r; lia). lia.
Qed.

(** The product of two normal mantissas rounds to [mk r] for one [r]
    independent of the exponents. *)
Lemma mul_canon m1 m2 : canon m1 -> canon m2 ->
  exists r, 2 ^ 52 <= r <= 2 ^ 53 /\
    Zpos (m1 * m2) / 2 ^ (D (m1 * m2) - 53) <= r /\
    (Zpos (m1 * m2) mod 2 ^ (D (m1 * m2) - 53) = 0 -> r = Zpos (m1 * m2) / 2 ^ (D (m1 * m2) - 53)) /\
    forall e1 e2, -1074 <= e1 + e2 + 52 ->
      SpecFloat.SFmul FloatOps.prec FloatOps.emax (S754_finite false m1 e1) (S754_finite false m2 e2)
      = mk r (e1 + e2 + D (m1 * m2) - 53).
Proof.
  intros H1 H2. pose proof (D_mul_canon m1 m2 H1 H2) as HD.
  destruct (round_aux_spec (m1 * m2) ltac:(lia)) as [r [Hb [Hex Hr]]].
  pose proof (quotient_bounds (m1 * m2) ltac:(lia)) as Q.
  exists r. split; [lia|]. split; [lia|]. split; [exact Hex|].
  intros e1 e2 He. rewrite mul_round, Hr by lia. reflexivity.
Qed.

Lemma mul_shift m1 e1 m2 e2 k m e : canon m1 -> canon m2 -> 0 <= k ->
  -1074 <= e1 - k + e2 + 52 ->
  SpecFloat.SFmul FloatOps.prec FloatOps.emax (S754_finite false m1 e1) (S754_finite false m2 e2)
  = S754_finite false m e ->
  SpecFloat.SFmul FloatOps.prec FloatOps.emax (S754_finite false m1 (e1 - k)) (S754_finite false m2 e2)
  = S754_finite false m (e - k).
Proof.
  intros H1 H2 Hk He. destruct (mul_canon m1 m2 H1 H2) as [r [_ [_ [_ Hr]]]].
  rewrite !Hr by lia. intros E.
  replace (e1 - k + e2 + D (m1 * m2) - 53) with (e1 + e2 + D (m1 * m2) - 53 - k) by lia.
  apply mk_shift; assumption.
Qed.

(** Multiplying by a power of two ([1.0], [0.5], [0.25]) is exact. *)
Lemma mul_pow2 m e et : canon m -> -1074 <= e + et + 52 -> e + et + 52 <= 971 ->
  SpecFloat.SFmul FloatOps.prec FloatOps.emax (S754_finite false m e)
    (S754_finite false 4503599627370496 et) = S754_finite false m (e + et + 52).
Proof.
  intros Hm Hlo Hhi.
  assert (Hc : canon 4503599627370496) by (unfold canon; simpl; lia).
  destruct (mul_canon m _ Hm Hc) as [r [Hb [_ [Hex Hr]]]].
  assert (HD : D (m * 4503599627370496) = 105).
  { apply D_unique; [lia|]. rewrite Pos2Z.inj_mul. unfold canon in Hm.
    change (Zpos 4503599627370496) with (2 ^ 52).
    change (2 ^ (105 - 1)) with (2 ^ 52 * 2 ^ 52). change (2 ^ 105) with (2 ^ 53 * 2 ^ 52). nia. }
  rewrite HD in Hex. rewrite Pos2Z.inj_mul in Hex.
  change (Zpos 4503599627370496) with (2 ^ 52) in Hex. change (105 - 53) with 52 in Hex.
  rewrite Z.mod_mul, Z.div_mul in Hex by (apply Z.pow_nonzero; lia).
  specialize (Hex eq_refl).
  rewrite Hr by lia. rewrite HD, Hex. unfold mk, canon in *.
  rewrite (proj2 (Z.eqb_neq (Zpos m) (2 ^ 53))) by lia.
  rewrite (proj2 (Z.leb_le _ 971)) by lia. f_equal. lia.
Qed.

(** Multiplying a normal float by [1.5] gives a strictly greater float, or
    overflows. *)
Lemma mul15_gt m e : canon m -> -1000 <= e ->
  SpecFloat.SFmul FloatOps.prec FloatOps.emax (S754_finite false m e)
    (S754_finite false 6755399441055744 (-52)) = S754_infinity false \/
  exists m' e', SpecFloat.SFmul FloatOps.prec FloatOps.emax (S754_finite false m e)
    (S754_finite false 6755399441055744 (-52)) = S754_finite false m' e' /\
    canon m' /\ e' <= 971 /\ (e < e' \/ e = e' /\ Zpos m < Zpos m').
Proof.
  intros Hm He.
  assert (Hc : canon 6755399441055744) by (unfold canon; simpl; lia).
  destruct (mul_canon m _ Hm Hc) as [r [Hb [Hq [_ Hr]]]].
  rewrite Hr by lia.
  pose proof (D_mul_canon m _ Hm Hc) as HD.
  destruct (Z.eq_dec (D (m * 6755399441055744)) 105) as [E105|E106].
  - rewrite E105 in *. change (105 - 53) with 52 in Hq.
    rewrite Pos2Z.inj_mul in Hq.
    assert (Hgt : Zpos m + 1 <= Zpos m * Zpos 6755399441055744 / 2 ^ 52).
    { apply Z.div_le_lower_bound; [lia|]. unfold canon in Hm.
      change (Zpos 6755399441055744) with (3 * 2 ^ 51).
      change (2 ^ 52) with (2 * 2 ^ 51) at 1. nia. }
    destruct (mk_cases r (e + -52 + 105 - 53) Hb) as [Hi | (m' & e' & Em & Hc' & Hle & Hx)];
      [left; exact Hi | right].
    exists m', e'. split; [exact Em|]. split; [exact Hc'|]. split; lia.
  - assert (E : D (m * 6755399441055744) = 106) by lia. rewrite E.
    destruct (mk_cases r (e + -52 + 106 - 53) Hb) as [Hi | (m' & e' & Em & Hc' & Hle & Hx)];
      [left; exact Hi | right].
    exists m', e'. split; [exact Em|]. split; [exact Hc'|]. split; lia.
Qed.

Lemma ltb_finite m1 e1 m2 e2 : e1 < e2 \/ e1 = e2 /\ Zpos m1 < Zpos m2 ->
  SpecFloat.SFltb (S754_finite false m1 e1) (S754_finite false m2 e2) = true.
Proof.
  intros H. unfold SpecFloat.SFltb, SpecFloat.SFcompare.
  destruct H as [H|[-> H]].
  - rewrite (proj2 (Z.compare_lt_iff e1 e2) H). reflexivity.
  - rewrite Z.compare_refl. change (Pos.compare_cont Eq m1 m2) with (Pos.compare m1 m2).
    rewrite (proj2 (Pos.compare_lt_iff m1 m2) H). reflexivity.
Qed.

Lemma ltb_infinity m e :
  SpecFloat.SFltb (S754_finite false m e) (S754_infinity false) = true.
Proof. reflexivity. Qed.

Lemma iter_xO p d : Zpos (Pos.iter xO p d) = Zpos p * 2 ^ Zpos d.
Proof.
  induction d as [|d IH] using Pos.peano_ind.
  - cbn [Pos.iter]. lia.
  - rewrite Pos.iter_succ, Pos2Z.inj_succ, Z.pow_succ_r by lia.
    change (Zpos (xO (Pos.iter xO p d))) with (2 * Zpos (Pos.iter xO p d)).
    rewrite IH. ring.
Qed.

(** [float(p)] for a positive integer [p]: a normal float whose exponent is
    at least [D p - 53], or an overflow. *)
Lemma normalize_cases p :
  SpecFloat.binary_normalize FloatOps.prec FloatOps.emax (Zpos p) 0 false = S754_infinity false \/
  exists m e, SpecFloat.binary_normalize FloatOps.prec FloatOps.emax (Zpos p) 0 false
              = S754_finite false m e /\ canon m /\ D p - 53 <= e <= 971.
Proof.
  destruct (D_bounds p) as [H1 _].
  unfold SpecFloat.binary_normalize, SpecFloat.binary_round.
  change (Zpos (digits2_pos p)) with (D p). rewrite Z.add_0_r, fexp_normal by lia.
  unfold SpecFloat.shl_align. rewrite Z.sub_0_r.
  destruct (D p - 53) as [|d|d] eqn:Ed; cbv beta iota.
  - destruct (round_aux_spec p ltac:(lia)) as [r [Hb [_ Hr]]].
    pose proof (quotient_bounds p ltac:(lia)) as Q.
    rewrite Hr by lia.
    destruct (mk_cases r (0 + D p - 53) ltac:(lia)) as [Hi | (m & e & Em & Hc & He & Hx)];
      [left; exact Hi | right]. exists m, e. rewrite Em. split; [reflexivity|]. split; [exact Hc|lia].
  - destruct (round_aux_spec p ltac:(lia)) as [r [Hb [_ Hr]]].
    pose proof (quotient_bounds p ltac:(lia)) as Q.
    rewrite Hr by lia.
    destruct (mk_cases r (0 + D p - 53) ltac:(lia)) as [Hi | (m & e & Em & Hc & He & Hx)];
      [left; exact Hi | right]. exists m, e. rewrite Em. split; [reflexivity|]. split; [exact Hc|lia].
  - set (q := Pos.iter xO p d).
    assert (Hq : Zpos q = Zpos p * 2 ^ Zpos d) by apply iter_xO.
    destruct (D_bounds p) as [_ [Hl Hu]].
    assert (Dq : D q = 53).
    { apply D_unique; [lia|]. rewrite Hq.
      replace 53 with (D p + Zpos d) by lia.
      rewrite Z.pow_add_r by lia. replace (D p + Zpos d - 1) with (D p - 1 + Zpos d) by lia.
      rewrite Z.pow_add_r by lia. split; apply Z.mul_le_mono_nonneg_r || apply Z.mul_lt_mono_pos_r;
        try lia; apply Z.pow_pos_nonneg; lia. }
    destruct (round_aux_spec q ltac:(lia)) as [r [Hb [_ Hr]]].
    pose proof (quotient_bounds q ltac:(lia)) as Q.
    rewrite Hr by lia.
    destruct (mk_cases r (Zneg d + D q - 53) ltac:(lia)) as [Hi | (m & e & Em & Hc & He & Hx)];
      [left; exact Hi | right]. exists m, e. rewrite Em. split; [reflexivity|]. split; [exact Hc|lia].
Qed.

Lemma valid_canon m e : canon m -> -1074 <= e <= 971 ->
  SpecFloat.valid_binary FloatOps.prec FloatOps.emax (S754_finite false m e) = true.
Proof.
  intros Hm He. unfold SpecFloat.valid_binary, SpecFloat.bounded, SpecFloat.canonical_mantissa.
  change (Zpos (digits2_pos m)) with (D m). rewrite (canon_D m Hm).
  unfold SpecFloat.fexp, SpecFloat.emin, FloatOps.prec, FloatOps.emax.
  apply andb_true_iff. split; apply Z.eqb_eq || apply Z.leb_le; lia.
Qed.

Lemma is_infinity_inf f : Prim2SF f = S754_infinity false -> PrimFloat.is_infinity f = true.
Proof.
  intros H. unfold PrimFloat.is_infinity.
  rewrite FloatAxioms.eqb_spec, FloatAxioms.abs_spec, H. vm_compute. reflexivity.
Qed.

(** [float(z)] of a positive integer, when it does not overflow, is a
    normal float of exponent at least [-52]. *)
Lemma float_of_int_pos z x : 1 <= z -> float_of_int z = Some x ->
  exists m e, Prim2SF x = S754_finite false m e /\ canon m /\ -52 <= e <= 971.
Proof.
  intros Hz. destruct z as [|p|p]; try lia. unfold float_of_int.
  destruct (D_bounds p) as [Hp _].
  destruct (normalize_cases p) as [Hi | (m & e & Em & Hc & He)]; rewrite ?Hi, ?Em.
  - rewrite is_infinity_inf; [discriminate|].
    apply FloatAxioms.Prim2SF_SF2Prim. reflexivity.
  - destruct (PrimFloat.is_infinity _); [discriminate|].
    intros E. replace x with (SF2Prim (S754_finite false m e)) by congruence. exists m, e.
    rewrite FloatAxioms.Prim2SF_SF2Prim by (apply valid_canon; [exact Hc | lia]).
    split; [reflexivity|]. split; [exact Hc | lia].
Qed.

Definition F10 : spec_float := S754_finite false 4503599627370496 (-52).
Definition F15 : spec_float := S754_finite false 6755399441055744 (-52).
Definition F05 : spec_float := S754_finite false 4503599627370496 (-53).
Definition F025 : spec_float := S754_finite false 4503599627370496 (-54).

Lemma Prim2SF_rations :
  Prim2SF 1.0%float = F10 /\ Prim2SF 1.5%float = F15 /\
  Prim2SF 0.5%float = F05 /\ Prim2SF 0.25%float = F025.
Proof. repeat split; reflexivity. Qed.

Local Abbreviation fmul := (SpecFloat.SFmul FloatOps.prec FloatOps.emax).

Lemma mul_inf_F10 : fmul (S754_infinity false) F10 = S754_infinity false.
Proof. reflexivity. Qed.

(** The four rations applied to a normal float [X], then a multiplier [T]
    of [1.0] or [1.5]: as long as the Normal product does not overflow, the
    results are strictly ordered. *)
Lemma ration_chain m e T : canon m -> -52 <= e <= 971 -> T = F10 \/ T = F15 ->
  fmul (fmul (S754_finite false m e) F10) T <> S754_infinity false ->
  SpecFloat.SFltb (fmul (fmul (S754_finite false m e) F10) T)
                  (fmul (fmul (S754_finite false m e) F15) T) = true /\
  SpecFloat.SFltb (fmul (fmul (S754_finite false m e) F05) T)
                  (fmul (fmul (S754_finite false m e) F10) T) = true /\
  SpecFloat.SFltb (fmul (fmul (S754_finite false m e) F025) T)
                  (fmul (fmul (S754_finite false m e) F05) T) = true.
Proof.
  intros Hm He HT Hfin.
  assert (E10 : forall m e, canon m -> -1000 <= e <= 971 ->
                fmul (S754_finite false m e) F10 = S754_finite false m e).
  { intros m0 e0 Hm0 He0. unfold F10. rewrite mul_pow2 by (assumption || lia). f_equal. lia. }
  assert (E05 : fmul (S754_finite false m e) F05 = S754_finite false m (e - 1)).
  { unfold F05. rewrite mul_pow2 by (assumption || lia). f_equal. lia. }
  assert (E025 : fmul (S754_finite false m e) F025 = S754_finite false m (e - 2)).
  { unfold F025. rewrite mul_pow2 by (assumption || lia). f_equal. lia. }
  rewrite (E10 m e Hm ltac:(lia)), E05, E025 in *.
  destruct HT as [-> | ->].
  - rewrite (E10 m e), (E10 m (e - 1)), (E10 m (e - 2)) by (assumption || lia).
    split; [|split; apply ltb_finite; lia].
    destruct (mul15_gt m e Hm ltac:(lia)) as [Hi | (m' & e' & Em & Hc & Hle & Hgt)];
      unfold F15; rewrite ?Hi, ?Em.
    + rewrite mul_inf_F10. apply ltb_infinity.
    + rewrite E10 by (assumption || lia). apply ltb_finite. exact Hgt.
  - destruct (mul15_gt m e Hm ltac:(lia)) as [Hi | (m' & e' & Em & Hc & Hle & Hgt)];
      unfold F15 in *; [contradiction|].
    rewrite Em.
    rewrite (mul_shift m e _ (-52) 1 m' e'), (mul_shift m e _ (-52) 2 m' e')
      by (assumption || unfold canon; simpl; lia).
    split; [|split; apply ltb_finite; lia].
    destruct (mul15_gt m' e' Hc ltac:(lia)) as [Hi | (m'' & e'' & Em' & Hc' & Hle' & Hgt')];
      rewrite ?Hi, ?Em'.
    + apply ltb_infinity.
    + apply ltb_finite. exact Hgt'.
Qed.

End FloatRound.

Module RationFacts.

Import Resources Views.

Lemma get_in {A} k (d : list (string * A)) v : get k d = Some v -> In v (map snd d).
Proof.
  induction d as [|[k' v'] d IH]; simpl; [discriminate|].
  destruct (String.eqb k k'); [intros E; inversion E; auto | intros E; auto].
Qed.

(** Every terrain multiplies Food by 1.0 or by 1.5. *)
Lemma terrain_food_mult t :
  get_or "food" (get_or t TERRAIN_CONSUMPTION_MULTIPLIERS []) 1.0%float = 1.0%float \/
  get_or "food" (get_or t TERRAIN_CONSUMPTION_MULTIPLIERS []) 1.0%float = 1.5%float.
Proof.
  unfold get_or at 2 4. destruct (get t TERRAIN_CONSUMPTION_MULTIPLIERS) as [l|] eqn:E.
  - apply get_in in E. simpl in E.
    repeat destruct E as [<-|E]; try contradiction; vm_compute; auto.
  - vm_compute. auto.
Qed.

Lemma food_consumption_shape n t r :
  food_consumption n t r =
  (d <- mul_if (2 * n) (get_or r [("filling", 1.5); ("normal", 1.0); ("meager", 0.5);
                                  ("starving", 0.25)]%string%float 1.0%float) ;;
   w <- mul_if (1 * n) (get_or r [("filling", 1.5); ("normal", 1.0); ("meager", 0.5);
                                  ("starving", 0.25)]%string%float 1.0%float) ;;
   Some (d * get_or "food" (get_or t TERRAIN_CONSUMPTION_MULTIPLIERS []) 1.0%float)%float).
Proof.
  unfold food_consumption, calculate_daily_consumption, DAILY_CONSUMPTION.
  cbv beta iota zeta.
  destruct (mul_if (2 * n) _); [|reflexivity].
  destruct (mul_if (1 * n) _); reflexivity.
Qed.

(** C8 (as the code has it): for every party size [n >= 1] and every
    terrain, as long as the Normal daily Food consumption is a finite float,
    the consumption is strictly ordered Filling > Normal > Meager >
    Starving. *)
Theorem rationing_strictly_ordered (n : Z) (t : string) (nm : float) (Hn : 1 <= n)
  (Hnm : food_consumption n t "normal" = Some nm) (Hfin : PrimFloat.is_infinity nm = false) :
  exists f m st,
    food_consumption n t "filling" = Some f /\
    food_consumption n t "meager" = Some m /\ food_consumption n t "starving" = Some st /\
    (nm <? f)%float = true /\ (m <? nm)%float = true /\ (st <? m)%float = true.
Proof.
  rewrite !food_consumption_shape in *. unfold mul_if in *.
  set (tm := get_or "food" (get_or t TERRAIN_CONSUMPTION_MULTIPLIERS []) 1.0%float) in *.
  assert (Htm : Prim2SF tm = FloatRound.F10 \/ Prim2SF tm = FloatRound.F15).
  { destruct (terrain_food_mult t) as [E|E]; fold tm in E; rewrite E; [left|right]; reflexivity. }
  destruct (float_of_int (2 * n)) as [x|] eqn:Ex; [|discriminate].
  destruct (float_of_int (1 * n)) as [w|] eqn:Ew; [|discriminate].
  cbn [get_or get String.eqb Ascii.eqb Bool.eqb] in *.
  injection Hnm as <-.
  eexists _, _, _. split; [reflexivity|]. split; [reflexivity|]. split; [reflexivity|].
  destruct (FloatRound.float_of_int_pos (2 * n) x ltac:(lia) Ex) as (mx & e & Hx & Hc & He).
  destruct FloatRound.Prim2SF_rations as (R10 & R15 & R05 & R025).
  rewrite !FloatAxioms.ltb_spec, !FloatAxioms.mul_spec, Hx, R10, R15, R05, R025.
  apply FloatRound.ration_chain; [exact Hc | exact He | exact Htm |].
  intros Hi. rewrite FloatRound.is_infinity_inf in Hfin; [discriminate|].
  rewrite !FloatAxioms.mul_spec, Hx, R10. exact Hi.
Qed.

Lemma rationing_strictly_ordered_witness :
  exists nm, (1 <= 10 ^ 300 /\ food_consumption (10 ^ 300) "mountains" "normal" = Some nm /\
              PrimFloat.is_infinity nm = false) /\
  exists f m st,
    food_consumption (10 ^ 300) "mountains" "filling" = Some f /\
    food_consumption (10 ^ 300) "mountains" "meager" = Some m /\
    food_consumption (10 ^ 300) "mountains" "starving" = Some st /\
    (nm <? f)%float = true /\ (m <? nm)%float = true /\ (st <? m)%float = true.
Proof.
  destruct (food_consumption (10 ^ 300) "mountains" "normal") as [nm|] eqn:E.
  - assert (Hfin : PrimFloat.is_infinity nm = false).
    { revert E. vm_compute. intros E. injection E as <-. reflexivity. }
    exists nm. split; [split; [lia | split; [reflexivity | exact Hfin]]|].
    exact (rationing_strictly_ordered (10 ^ 300) "mountains" nm ltac:(lia) E Hfin).
  - vm_compute in E. discriminate.
Defined.

(** C8, counterexample: for a party size of [6 * 10^307] in the mountains,
    Filling and Normal both come to [inf]: Filling is not strictly more. *)
Lemma rationing_overflow :
  food_consumption (6 * 10 ^ 307) "mountains" "filling" = Some infinity /\
  food_consumption (6 * 10 ^ 307) "mountains" "normal" = Some infinity /\
  rationing_ordered (6 * 10 ^ 307) "mountains" = false.
Proof. vm_compute. repeat split; reflexivity. Qed.

End RationFacts.

Module PlayerMoreFacts.

Import Player Party PlayerMore FloatFacts PlayerFacts.

Lemma lower_char_idem c : lower_char (lower_char c) = lower_char c.
Proof.
  unfold lower_char.
  destruct (((65 <=? N_of_ascii c) && (N_of_ascii c <=? 90))%N
            || ((192 <=? N_of_ascii c) && (N_of_ascii c <=? 222)
                && negb (N_of_ascii c =? 215))%N) eqn:E.
  - assert (Hn : (N_of_ascii c < 256)%N).
    { destruct c as [[] [] [] [] [] [] [] []]; vm_compute; reflexivity. }
    rewrite N_ascii_embedding by (apply orb_true_iff in E;
      destruct E as [E|E]; repeat (apply andb_true_iff in E as [E ?]);
      apply N.leb_le in E; try apply N.leb_le in H; try apply N.leb_le in H0; lia).
    apply orb_true_iff in E.
    destruct (((65 <=? N_of_ascii c + 32) && (N_of_ascii c + 32 <=? 90))%N
              || ((192 <=? N_of_ascii c + 32) && (N_of_ascii c + 32 <=? 222)
                  && negb (N_of_ascii c + 32 =? 215))%N) eqn:E2; [|reflexivity].
    exfalso. apply orb_true_iff in E2.
    destruct E as [E|E], E2 as [E2|E2];
      repeat match goal with
             | H : (_ && _) = true |- _ => apply andb_true_iff in H as [? ?]
             | H : negb _ = true |- _ => apply negb_true_iff in H
             | H : (_ <=? _)%N = true |- _ => apply N.leb_le in H
             | H : (_ =? _)%N = false |- _ => apply N.eqb_neq in H
             end; lia.
  - rewrite E. reflexivity.
Qed.

Lemma py_lower_idem s : py_lower (py_lower s) = py_lower s.
Proof. induction s as [|c s IH]; simpl; [reflexivity|]. rewrite lower_char_idem, IH. reflexivity. Qed.

Lemma condition_value_find c :
  find (fun c' => String.eqb (condition_value c') (condition_value c)) CONDITIONS = Some c.
Proof. destruct c; reflexivity. Qed.

Lemma fold_conditions cs acc :
  fold_left (fun cs cond_name =>
               match find (fun c => String.eqb (condition_value c) cond_name) CONDITIONS with
               | Some c => cs ++ [c]
               | None => cs
               end) (map condition_value cs) acc = acc ++ cs.
Proof.
  revert acc. induction cs as [|c cs IH]; intros acc; cbn [map fold_left].
  - rewrite app_nil_r. reflexivity.
  - rewrite condition_value_find, IH, <- app_assoc. reflexivity.
Qed.

Lemma role_name_find r :
  find (fun r' => String.eqb (role_name r') (role_name r)) ROLES = Some r.
Proof. destruct r; reflexivity. Qed.

Lemma player_round_trip (p : Player) : from_dict (to_dict p) = Some p.
Proof.
  destruct p as [n r h mh m cs d al]. unfold from_dict, to_dict.
  cbn [pd_name pd_role pd_health pd_max_health pd_morale pd_conditions pd_days_survived
       pd_is_alive get_d name role health max_health morale conditions days_survived _is_alive].
  rewrite role_name_find. cbn [new_player conditions name health morale].
  rewrite fold_conditions. reflexivity.
Qed.

(** [from_dict(p.to_dict())] rebuilds [p]. *)
Theorem player_dict_round_trip (p : Player) : from_dict (to_dict p) = Some p.
Proof. exact (player_round_trip p). Qed.

(** [create_player] picks the role whose name matches the given one up to
    case, and falls back to traveler when none does; the player starts
    with health 100 and morale 75. *)
Theorem create_player_role (n s : string) :
  (forall r, py_lower s = py_lower (role_name r) -> create_player n s = new_player n r 100 75) /\
  ((forall r, py_lower s <> py_lower (role_name r)) -> create_player n s = new_player n TRAVELER 100 75).
Proof.
  split.
  - intros r H. unfold create_player. rewrite H. destruct r; reflexivity.
  - intros H. unfold create_player.
    destruct (find _ ROLES) as [r|] eqn:E; [|reflexivity].
    apply find_some in E as [_ E]. apply String.eqb_eq in E. exfalso. exact (H r (eq_sym E)).
Qed.

(** From a morale in [0, 100], [change_morale] stays in [0, 100],
    [boost_morale] never lowers it and [reduce_morale] never raises it. *)
Theorem morale_stays_in_range (p : Player) (amount : Z) (H : 0 <= morale p <= 100) :
  0 <= morale (change_morale p amount) <= 100 /\
  morale p <= morale (boost_morale p amount) <= 100 /\
  0 <= morale (reduce_morale p amount) <= morale p.
Proof.
  unfold boost_morale, reduce_morale, change_morale, set_morale. simpl. lia.
Qed.

Lemma morale_stays_in_range_witness :
  let p := new_player "Ann" SCOUT 80 40 in
  (0 <= morale p <= 100) /\
  0 <= morale (change_morale p (-7)) <= 100 /\
  morale p <= morale (boost_morale p (-7)) <= 100 /\
  0 <= morale (reduce_morale p (-7)) <= morale p.
Proof.
  intros p. split; [simpl; lia|]. apply (morale_stays_in_range p). simpl. lia.
Defined.

Lemma heal_bounds p amount medic healed q :
  0 <= amount -> 0 <= health p <= max_health p -> heal p amount medic = Some (healed, q) ->
  healed = health q - health p /\ health p <= health q <= max_health q /\
  max_health q = max_health p /\ name q = name p /\ _is_alive q = _is_alive p.
Proof.
  intros Ha Hh. unfold heal.
  destruct (is_alive p) eqn:Ealive; simpl.
  2:{ intros E. inversion E; subst. repeat split; lia. }
  destruct (if medic then _ else _) as [v|] eqn:Ev; [|discriminate].
  assert (Hv : 0 <= v).
  { destruct medic.
    - destruct (mul_if amount 1.35) as [f|] eqn:Ef; [|discriminate].
      eapply heal_medic_nonneg; eauto.
    - inversion Ev; subst. exact Ha. }
  intros E. inversion E; subst. unfold set_health. simpl. repeat split; lia.
Qed.

(** [heal] with a non-negative amount on a traveler whose health is in
    [0, max_health] never lowers it nor lifts it past [max_health], and
    returns the gain. *)
Theorem heal_within_max (p : Player) (amount : Z) (medic : bool) (healed : Z) (q : Player)
    (Ha : 0 <= amount) (Hh : 0 <= health p <= max_health p)
    (E : heal p amount medic = Some (healed, q)) :
  healed = health q - health p /\ health p <= health q <= max_health q /\
  max_health q = max_health p.
Proof.
  destruct (heal_bounds p amount medic healed q Ha Hh E) as [H1 [H2 [H3 _]]]. auto.
Qed.

Lemma heal_within_max_witness :
  let p := new_player "Ann" MEDIC 90 50 in
  heal p 10 true = Some (10, set_health p 100) /\
  10 = health (set_health p 100) - health p /\
  health p <= health (set_health p 100) <= max_health (set_health p 100) /\
  max_health (set_health p 100) = max_health p.
Proof.
  intros p. assert (E : heal p 10 true = Some (10, set_health p 100)) by reflexivity.
  split; [exact E|]. apply (heal_within_max p 10 true); [lia | simpl; lia | exact E].
Defined.

End PlayerMoreFacts.

Module PartyMoreFacts.

Import Player Resources Party Views PlayerMore ResourcesMore PartyMore PlayerMoreFacts.

(** Every member is either alive or dead, and the party is alive exactly
    when some member is alive. *)
Theorem alive_dead_partition (p : Party) :
  (List.length (alive_members p) + List.length (dead_members p) = List.length (members p))%nat /\
  (is_party_alive p = true <-> exists m, In m (members p) /\ is_alive m = true).
Proof.
  split.
  - unfold alive_members, dead_members. induction (members p) as [|m ms IH]; simpl; auto.
    destruct (is_alive m); simpl; lia.
  - unfold is_party_alive, alive_count, alive_members. rewrite Z.ltb_lt.
    split.
    + intros H. destruct (filter is_alive (members p)) as [|m l] eqn:E; simpl in H; [lia|].
      exists m. apply (filter_In is_alive). rewrite E. left. reflexivity.
    + intros [m Hm]. apply (filter_In is_alive) in Hm.
      destruct (filter is_alive (members p)); [contradiction|]. simpl. lia.
Qed.

(** [add_member] never takes a party past five members and refuses a new
    member exactly when the party is full. *)
Theorem add_member_bounded (p : Party) (pl : Player)
    (H : (List.length (members p) <= 5)%nat) :
  (List.length (members (snd (add_member p pl))) <= 5)%nat /\
  (fst (add_member p pl) = false <-> List.length (members p) = 5%nat).
Proof.
  unfold add_member, MAX_PARTY_SIZE.
  destruct (5 <=? Z.of_nat (List.length (members p))) eqn:E.
  - apply Z.leb_le in E. simpl. split; [lia|]. split; [intros _; lia|reflexivity].
  - apply Z.leb_gt in E. simpl. rewrite length_app. simpl. split; [lia|].
    split; [discriminate|lia].
Qed.

Lemma add_member_bounded_witness :
  let p := set_members (new_party "Trail") [new_player "A" HUNTER 100 75] in
  (List.length (members p) <= 5)%nat /\
  (List.length (members (snd (add_member p (new_player "B" MEDIC 100 75)))) <= 5)%nat /\
  (fst (add_member p (new_player "B" MEDIC 100 75)) = false <-> List.length (members p) = 5%nat).
Proof.
  intros p. split; [simpl; lia|]. apply add_member_bounded. simpl. lia.
Defined.

(** The loop invariant of [get_best_for_skill] after the members [seen]. *)
Definition best_inv (skill : string) (seen : list Player) (st : option (Player) * Z) : Prop :=
  let '(bm, bs) := st in
  -1 <= bs /\
  (forall w e, In w seen -> get_effective_skill w skill 50 = Some e -> e <= bs) /\
  match bm with
  | None => bs = -1
  | Some m => In m seen /\ get_effective_skill m skill 50 = Some bs
  end.

Lemma best_fold skill l seen st r :
  best_inv skill seen st ->
  fold_left (fun acc member =>
               st <- acc ;;
               let '(best_member, best_skill) := st in
               effective <- get_effective_skill member skill 50 ;;
               if best_skill <? effective then Some (Some member, effective)
               else Some (best_member, best_skill)) l (Some st) = Some r ->
  best_inv skill (seen ++ l) r.
Proof.
  assert (Hnone : forall l, fold_left (fun acc member =>
               st <- acc ;;
               let '(best_member, best_skill) := st in
               effective <- get_effective_skill member skill 50 ;;
               if best_skill <? effective then Some (Some member, effective)
               else Some (best_member, best_skill)) l None = None).
  { induction l0; simpl; auto. }
  revert seen st. induction l as [|m l IH]; intros seen [bm bs] Hinv; simpl.
  - rewrite app_nil_r. intros E. inversion E; subst. exact Hinv.
  - destruct (get_effective_skill m skill 50) as [e|] eqn:Ee.
    2:{ rewrite Hnone. discriminate. }
    replace (seen ++ m :: l) with ((seen ++ [m]) ++ l) by (rewrite <- app_assoc; reflexivity).
    destruct Hinv as [Hb [Hall Hm]].
    destruct (bs <? e) eqn:Elt; apply IH; simpl.
    + apply Z.ltb_lt in Elt. split; [lia|]. split.
      * intros w e' Hw Ew. apply in_app_iff in Hw as [Hw|[<-|[]]].
        -- specialize (Hall w e' Hw Ew). lia.
        -- rewrite Ee in Ew. inversion Ew; lia.
      * split; [apply in_app_iff; right; left; reflexivity | exact Ee].
    + apply Z.ltb_ge in Elt. split; [lia|]. split.
      * intros w e' Hw Ew. apply in_app_iff in Hw as [Hw|[<-|[]]].
        -- exact (Hall w e' Hw Ew).
        -- rewrite Ee in Ew. inversion Ew; lia.
      * destruct bm as [b|]; [|exact Hm]. destruct Hm as [Hb1 Hb2].
        split; [apply in_app_iff; left; exact Hb1 | exact Hb2].
Qed.

(** [get_best_for_skill] returns a working member of greatest effective
    skill, and [None] only when every working member's skill is negative. *)
Theorem get_best_for_skill_max (p : Party) (skill : string) (res : option Player)
    (E : get_best_for_skill p skill = Some res) :
  match res with
  | Some m =>
      In m (working_members p) /\
      exists e, get_effective_skill m skill 50 = Some e /\
        forall w e', In w (working_members p) -> get_effective_skill w skill 50 = Some e' -> e' <= e
  | None =>
      forall w e', In w (working_members p) -> get_effective_skill w skill 50 = Some e' -> e' < 0
  end.
Proof.
  unfold get_best_for_skill in E.
  destruct (fold_left _ (working_members p) (Some (None, -1))) as [[bm bs]|] eqn:F;
    [|discriminate].
  inversion E; subst. clear E.
  apply (best_fold skill (working_members p) [] (None, -1)) in F;
    [|split; [lia|split; [intros w e []|reflexivity]]].
  simpl in F. destruct F as [Hb [Hall Hm]]. destruct res as [m|].
  - destruct Hm as [Hin He]. split; [exact Hin|]. exists bs. split; [exact He|exact Hall].
  - subst bs. intros w e' Hw Ew. specialize (Hall w e' Hw Ew). lia.
Qed.

Lemma get_best_for_skill_max_witness :
  let p := set_members (new_party "Trail")
             [new_player "A" MEDIC 50 50; new_player "B" HUNTER 100 50] in
  get_best_for_skill p "hunting" = Some (Some (new_player "B" HUNTER 100 50)) /\
  In (new_player "B" HUNTER 100 50) (working_members p) /\
  exists e, get_effective_skill (new_player "B" HUNTER 100 50) "hunting" 50 = Some e /\
    forall w e', In w (working_members p) -> get_effective_skill w "hunting" 50 = Some e' -> e' <= e.
Proof.
  intros p. assert (E : get_best_for_skill p "hunting" = Some (Some (new_player "B" HUNTER 100 50)))
    by (vm_compute; reflexivity).
  split; [exact E|]. exact (get_best_for_skill_max p "hunting" _ E).
Defined.

Lemma min_key_spec (k : Player -> Z) x xs :
  In (min_key k x xs) (x :: xs) /\ forall w, In w (x :: xs) -> k (min_key k x xs) <= k w.
Proof.
  unfold min_key. revert x. induction xs as [|y xs IH]; intros x; simpl.
  - split; [left; reflexivity|]. intros w [<-|[]]. lia.
  - destruct (k y <? k x) eqn:E.
    + apply Z.ltb_lt in E. destruct (IH y) as [I1 I2]. split.
      * destruct I1 as [<-|I1]; [right; left; reflexivity | right; right; exact I1].
      * intros w [<-|[<-|Hw]].
        -- specialize (I2 y (or_introl eq_refl)). lia.
        -- apply I2. left. reflexivity.
        -- apply I2. right. exact Hw.
    + apply Z.ltb_ge in E. destruct (IH x) as [I1 I2]. split.
      * destruct I1 as [<-|I1]; [left; reflexivity | right; right; exact I1].
      * intros w [<-|[<-|Hw]].
        -- apply I2. left. reflexivity.
        -- specialize (I2 x (or_introl eq_refl)). lia.
        -- apply I2. right. exact Hw.
Qed.

(** [lowest_health_member] and [lowest_morale_member] return a living
    member of least health (morale), and [None] only for a party with no
    one alive. *)
Theorem lowest_members (p : Party) :
  (lowest_health_member p = None <-> alive_members p = []) /\
  (lowest_morale_member p = None <-> alive_members p = []) /\
  (forall m, lowest_health_member p = Some m ->
     In m (alive_members p) /\ forall w, In w (alive_members p) -> health m <= health w) /\
  (forall m, lowest_morale_member p = Some m ->
     In m (alive_members p) /\ forall w, In w (alive_members p) -> morale m <= morale w).
Proof.
  unfold lowest_health_member, lowest_morale_member.
  destruct (alive_members p) as [|a ms].
  - repeat split; try discriminate; reflexivity.
  - split; [split; discriminate|]. split; [split; discriminate|].
    split; intros ? E; inversion E; subst; apply min_key_spec.
Qed.

End PartyMoreFacts.

Module HealPartyFacts.

Import Player Resources Party Views PlayerMore ResourcesMore PartyMore PlayerMoreFacts MemberFacts.

(** What [heal_party] does to one member. *)
Definition healed_from (amount : Z) (medic : bool) (m m' : Player) : Prop :=
  (is_alive m = false /\ m' = m) \/
  (is_alive m = true /\ exists h, heal m amount medic = Some (h, m')).

Lemma heal_party_fold amount medic l ms0 hl0 t0 ms hl t :
  fold_left (fun acc member =>
               st <- acc ;;
               let '(ms, healed_list, total) := st in
               if is_alive member then
                 hm <- heal member amount medic ;;
                 let '(healed, member) := hm in
                 if 0 <? healed then
                   Some (ms ++ [member], healed_list ++ [(name member, healed)], total + healed)
                 else Some (ms ++ [member], healed_list, total)
               else Some (ms ++ [member], healed_list, total))
            l (Some (ms0, hl0, t0)) = Some (ms, hl, t) ->
  exists ms1 hl1,
    ms = ms0 ++ ms1 /\ hl = hl0 ++ hl1 /\ t = fold_left Z.add (map snd hl1) t0 /\
    Forall (fun e => 0 < snd e) hl1 /\ Forall2 (healed_from amount medic) l ms1.
Proof.
  assert (Hnone : forall l, fold_left (fun acc member =>
               st <- acc ;;
               let '(ms, healed_list, total) := st in
               if is_alive member then
                 hm <- heal member amount medic ;;
                 let '(healed, member) := hm in
                 if 0 <? healed then
                   Some (ms ++ [member], healed_list ++ [(name member, healed)], total + healed)
                 else Some (ms ++ [member], healed_list, total)
               else Some (ms ++ [member], healed_list, total)) l None = None).
  { induction l0; simpl; auto. }
  revert ms0 hl0 t0. induction l as [|m l IH]; intros ms0 hl0 t0; simpl.
  - intros E. inversion E; subst. exists [], []. rewrite !app_nil_r. repeat split; auto.
  - destruct (is_alive m) eqn:Ea.
    + destruct (heal m amount medic) as [[h m']|] eqn:Eh; [|rewrite Hnone; discriminate].
      destruct (0 <? h) eqn:Eh0; intros E; apply IH in E as (ms1 & hl1 & -> & -> & -> & F1 & F2).
      * exists (m' :: ms1), ((name m', h) :: hl1).
        rewrite <- !app_assoc. repeat split; auto.
        -- apply Forall_cons; [simpl; apply Z.ltb_lt; exact Eh0 | exact F1].
        -- constructor; [right; split; [exact Ea | exists h; exact Eh] | exact F2].
      * exists (m' :: ms1), hl1.
        rewrite <- !app_assoc. repeat split; auto.
        constructor; [right; split; [exact Ea | exists h; exact Eh] | exact F2].
    + intros E. apply IH in E as (ms1 & hl1 & -> & -> & -> & F1 & F2).
      exists (m :: ms1), hl1. rewrite <- !app_assoc. repeat split; auto.
      constructor; [left; split; [exact Ea | reflexivity] | exact F2].
Qed.

Lemma heal_party_shape p amount hl total q :
  heal_party p amount = Some (hl, total, q) ->
  q = set_members p (members q) /\ total = fold_left Z.add (map snd hl) 0 /\
  Forall (fun e => 0 < snd e) hl /\
  Forall2 (healed_from amount (has_role p MEDIC)) (members p) (members q).
Proof.
  unfold heal_party.
  destruct (fold_left _ (members p) (Some ([], [], 0))) as [[[ms hl0] t0]|] eqn:F;
    [|discriminate].
  intros E. inversion E; subst. clear E.
  apply heal_party_fold in F as (ms1 & hl1 & -> & -> & -> & F1 & F2).
  simpl. repeat split; auto.
Qed.

Lemma Forall2_nth {A B} (R : A -> B -> Prop) l l' i x :
  Forall2 R l l' -> nth_error l i = Some x -> exists y, nth_error l' i = Some y /\ R x y.
Proof.
  intros H. revert i. induction H as [|a b l l' Hab H IH]; intros [|i]; simpl; try discriminate.
  - intros E. inversion E; subst. exists b. split; [reflexivity|exact Hab].
  - apply IH.
Qed.

(** [heal_party] lists only members it healed by a positive amount, its
    total is the sum of that list, and it keeps the member list: same
    names in the same order, the dead members untouched. *)
Theorem heal_party_report (p : Party) (amount : Z) (hl : list (string * Z)) (total : Z)
    (q : Party) (E : heal_party p amount = Some (hl, total, q)) :
  total = fold_left Z.add (map snd hl) 0 /\
  Forall (fun e => 0 < snd e) hl /\
  names q = names p /\
  (forall i m, nth_error (members p) i = Some m -> is_alive m = false ->
               nth_error (members q) i = Some m).
Proof.
  apply heal_party_shape in E as (Eq & Et & Hpos & F).
  split; [exact Et|]. split; [exact Hpos|]. split.
  - unfold names. clear Eq. induction F as [|m m' l l' Hm F IH]; simpl; [reflexivity|].
    f_equal; [|exact IH].
    destruct Hm as [[_ ->]|[_ [h Eh]]]; [reflexivity|]. exact (heal_name _ _ _ _ _ Eh).
  - intros i m Ei Ed. destruct (Forall2_nth _ _ _ _ _ F Ei) as [m' [Ei' Hm]].
    destruct Hm as [[_ ->]|[Ea _]]; [exact Ei'|congruence].
Qed.

Lemma heal_party_report_witness :
  let p := set_members (new_party "Trail")
             [new_player "A" MEDIC 50 50; new_player "B" HUNTER 0 50] in
  heal_party p 10 = Some ([("A"%string, 13)], 13,
                          set_members p [set_health (new_player "A" MEDIC 50 50) 63;
                                         new_player "B" HUNTER 0 50]) /\
  13 = fold_left Z.add (map snd [("A"%string, 13)]) 0 /\
  Forall (fun e => 0 < snd e) [("A"%string, 13)] /\
  names (set_members p [set_health (new_player "A" MEDIC 50 50) 63;
                        new_player "B" HUNTER 0 50]) = names p /\
  (forall i m, nth_error (members p) i = Some m -> is_alive m = false ->
     nth_error (members (set_members p [set_health (new_player "A" MEDIC 50 50) 63;
                                        new_player "B" HUNTER 0 50])) i = Some m).
Proof.
  intros p.
  assert (E : heal_party p 10 = Some ([("A"%string, 13)], 13,
                set_members p [set_health (new_player "A" MEDIC 50 50) 63;
                               new_player "B" HUNTER 0 50])) by (vm_compute; reflexivity).
  split; [exact E|]. exact (heal_party_report p 10 _ _ _ E).
Defined.

(** With a non-negative amount, [heal_party] never lowers a member's
    health nor lifts it past [max_health], for members whose health is in
    [0, max_health]. *)
Theorem heal_party_health (p : Party) (amount : Z) (hl : list (string * Z)) (total : Z)
    (q : Party) (Ha : 0 <= amount)
    (Hm : Forall (fun m => 0 <= health m <= max_health m) (members p))
    (E : heal_party p amount = Some (hl, total, q)) :
  Forall2 (fun m m' => health m <= health m' <= max_health m' /\ max_health m' = max_health m)
          (members p) (members q).
Proof.
  apply heal_party_shape in E as (_ & _ & _ & F).
  induction F as [|m m' l l' Hr F IH]; constructor.
  - inversion Hm as [|x y Hx Hy]; subst.
    destruct Hr as [[_ ->]|[_ [h Eh]]]; [lia|].
    destruct (heal_bounds m amount _ h m' Ha Hx Eh) as (_ & B1 & B2 & _). lia.
  - apply IH. inversion Hm; assumption.
Qed.

Lemma heal_party_health_witness :
  let p := set_members (new_party "Trail")
             [new_player "A" MEDIC 95 50; new_player "B" HUNTER 0 50] in
  Forall (fun m => 0 <= health m <= max_health m) (members p) /\
  heal_party p 10 = Some ([("A"%string, 5)], 5,
                          set_members p [set_health (new_player "A" MEDIC 95 50) 100;
                                         new_player "B" HUNTER 0 50]) /\
  Forall2 (fun m m' => health m <= health m' <= max_health m' /\ max_health m' = max_health m)
          (members p) (members (set_members p [set_health (new_player "A" MEDIC 95 50) 100;
                                              new_player "B" HUNTER 0 50])).
Proof.
  intros p.
  assert (Hm : Forall (fun m => 0 <= health m <= max_health m) (members p)).
  { repeat constructor; simpl; lia. }
  assert (E : heal_party p 10 = Some ([("A"%string, 5)], 5,
                set_members p [set_health (new_player "A" MEDIC 95 50) 100;
                               new_player "B" HUNTER 0 50])) by (vm_compute; reflexivity).
  split; [exact Hm|]. split; [exact E|].
  exact (heal_party_health p 10 _ _ _ ltac:(lia) Hm E).
Defined.

End HealPartyFacts.

Module SaveFacts.

Import Player Resources Party PlayerMore ResourcesMore PartyMore PlayerMoreFacts.

Lemma resource_round_trip r : resource_from_dict (resource_to_dict r) = Some r.
Proof. destruct r as [[] q c ql]; reflexivity. Qed.

Lemma manager_round_trip rm :
  map fst rm = RESOURCE_TYPES ->
  (forall t r, In (t, r) rm -> resource_type r = t) ->
  manager_from_dict (manager_to_dict rm) = Some rm.
Proof.
  intros Hk Ht.
  do 7 (destruct rm as [|[? ?] rm]; [discriminate|]).
  destruct rm; [|discriminate].
  simpl in Hk. inversion Hk; subst.
  repeat match goal with
         | r : Resource float |- _ =>
             let H := fresh in
             assert (H := Ht _ r ltac:(simpl; tauto)); destruct r; simpl in H; subst
         end.
  reflexivity.
Qed.

(** [ResourceManager.from_dict(rm.to_dict())] rebuilds a manager that holds
    the seven resource types in their order, each stored under its own type. *)
Theorem manager_dict_round_trip (rm : ResourceManager)
    (Hk : map fst rm = RESOURCE_TYPES)
    (Ht : forall t r, In (t, r) rm -> resource_type r = t) :
  manager_from_dict (manager_to_dict rm) = Some rm.
Proof. exact (manager_round_trip rm Hk Ht). Qed.

Lemma manager_dict_round_trip_witness :
  map fst new_manager = RESOURCE_TYPES /\
  (forall t r, In (t, r) new_manager -> resource_type r = t) /\
  manager_from_dict (manager_to_dict new_manager) = Some new_manager.
Proof.
  assert (Hk : map fst new_manager = RESOURCE_TYPES) by reflexivity.
  assert (Ht : forall t r, In (t, r) new_manager -> resource_type r = t).
  { intros t r H. simpl in H. repeat destruct H as [H|H]; try inversion H; reflexivity. }
  split; [exact Hk|]. split; [exact Ht|]. exact (manager_dict_round_trip new_manager Hk Ht).
Defined.

Lemma members_round_trip ms acc :
  fold_left (fun acc member_data =>
               ms <- acc ;;
               player <- PlayerMore.from_dict member_data ;;
               Some (ms ++ [player]))
            (map PlayerMore.to_dict ms) (Some acc) = Some (acc ++ ms).
Proof.
  revert acc. induction ms as [|m ms IH]; intros acc; cbn [map fold_left].
  - rewrite app_nil_r. reflexivity.
  - rewrite player_round_trip, IH, <- app_assoc. reflexivity.
Qed.

(** [Party.from_dict(party.to_dict())] rebuilds the party, given a
    resource manager as above. *)
Theorem party_dict_round_trip (p : Party)
    (Hk : map fst (resources p) = RESOURCE_TYPES)
    (Ht : forall t r, In (t, r) (resources p) -> resource_type r = t) :
  party_from_dict (party_to_dict p) = Some p.
Proof.
  destruct p as [n ms rm d mi r log]. simpl in Hk, Ht.
  unfold party_from_dict, party_to_dict.
  cbn [pa_name pa_members pa_resources pa_days_traveled pa_miles_traveled
       pa_current_rationing pa_death_log get_d party_name members resources days_traveled
       miles_traveled current_rationing death_log new_party].
  rewrite members_round_trip, manager_round_trip by assumption. reflexivity.
Qed.

Lemma party_dict_round_trip_witness :
  let p := set_members (new_party "Trail") [new_player "A" MEDIC 95 50] in
  map fst (resources p) = RESOURCE_TYPES /\
  (forall t r, In (t, r) (resources p) -> resource_type r = t) /\
  party_from_dict (party_to_dict p) = Some p.
Proof.
  intros p.
  assert (Hk : map fst (resources p) = RESOURCE_TYPES) by reflexivity.
  assert (Ht : forall t r, In (t, r) (resources p) -> resource_type r = t).
  { intros t r H. simpl in H. repeat destruct H as [H|H]; try inversion H; reflexivity. }
  split; [exact Hk|]. split; [exact Ht|]. exact (party_dict_round_trip p Hk Ht).
Defined.

End SaveFacts.

Module TravelFacts.

Import Player Resources Party PlayerMore PartyMore PlayerMoreFacts.

(** [set_rationing] keeps the level among the four valid ones, ignores the
    case of its argument, and changes nothing when it refuses a level. *)
Theorem set_rationing_valid (p : Party) (level : string)
    (Hv : In (current_rationing p) VALID_LEVELS) :
  In (current_rationing (snd (set_rationing p level))) VALID_LEVELS /\
  set_rationing p (py_lower level) = set_rationing p level /\
  (fst (set_rationing p level) = true ->
     current_rationing (snd (set_rationing p level)) = py_lower level) /\
  (fst (set_rationing p level) = false -> snd (set_rationing p level) = p).
Proof.
  unfold set_rationing. rewrite py_lower_idem.
  destruct (existsb (String.eqb (py_lower level)) VALID_LEVELS) eqn:E; simpl.
  - apply existsb_exists in E as [x [Hx Ex]]. apply String.eqb_eq in Ex. subst x.
    repeat split; auto. discriminate.
  - repeat split; auto. discriminate.
Qed.

Lemma set_rationing_valid_witness :
  In (current_rationing (new_party "Trail")) VALID_LEVELS /\
  In (current_rationing (snd (set_rationing (new_party "Trail") "Meager"))) VALID_LEVELS /\
  set_rationing (new_party "Trail") (py_lower "Meager") = set_rationing (new_party "Trail") "Meager" /\
  (fst (set_rationing (new_party "Trail") "Meager") = true ->
     current_rationing (snd (set_rationing (new_party "Trail") "Meager")) = py_lower "Meager") /\
  (fst (set_rationing (new_party "Trail") "Meager") = false ->
     snd (set_rationing (new_party "Trail") "Meager") = new_party "Trail").
Proof.
  assert (Hv : In (current_rationing (new_party "Trail")) VALID_LEVELS)
    by (simpl; tauto).
  split; [exact Hv|]. exact (set_rationing_valid (new_party "Trail") "Meager" Hv).
Defined.

Lemma finite_times_zero x :
  PrimFloat.is_finite x = true -> int_of_float (x * 0)%float = Some 0.
Proof.
  unfold PrimFloat.is_finite, PrimFloat.is_nan, PrimFloat.is_infinity, int_of_float.
  rewrite FloatAxioms.mul_spec, !FloatAxioms.eqb_spec, FloatAxioms.abs_spec.
  change (Prim2SF 0%float) with (S754_zero false).
  change (Prim2SF infinity) with (S754_infinity false).
  intros H. destruct (Prim2SF x) as [s|s| |s m e]; try destruct s; vm_compute in H;
    try discriminate; reflexivity.
Qed.

(** With no one alive, the speed modifier is -100 and the party makes the
    minimum of one mile, whatever the base miles and terrain (as long as
    their product is a finite float). *)
Theorem daily_miles_nobody_alive (p : Party) (base_miles : Z) (terrain_modifier x : float)
    (Hd : alive_members p = [])
    (Hx : mul_if base_miles terrain_modifier = Some x)
    (Hf : PrimFloat.is_finite x = true) :
  get_travel_speed_modifier p = Some (-100) /\
  calculate_daily_miles p base_miles terrain_modifier = Some 1.
Proof.
  split; [unfold get_travel_speed_modifier; rewrite Hd; reflexivity|].
  unfold calculate_daily_miles, get_travel_speed_modifier. rewrite Hd.
  replace (true_div (-100) 100) with (Some (-1)%float) by (vm_compute; reflexivity).
  cbv beta iota.
  replace (add_if 1 (-1)%float) with (Some 0%float) by (vm_compute; reflexivity).
  cbv beta iota. rewrite Hx. cbv beta iota.
  rewrite finite_times_zero by exact Hf. reflexivity.
Qed.

Lemma daily_miles_nobody_alive_witness :
  let p := set_members (new_party "Trail") [new_player "A" MEDIC 0 50] in
  alive_members p = [] /\ mul_if 20 1.5 = Some 30%float /\ PrimFloat.is_finite 30 = true /\
  get_travel_speed_modifier p = Some (-100) /\ calculate_daily_miles p 20 1.5 = Some 1.
Proof.
  intros p.
  assert (Hd : alive_members p = []) by reflexivity.
  assert (Hx : mul_if 20 1.5 = Some 30%float) by (vm_compute; reflexivity).
  assert (Hf : PrimFloat.is_finite 30 = true) by (vm_compute; reflexivity).
  split; [exact Hd|]. split; [exact Hx|]. split; [exact Hf|].
  exact (daily_miles_nobody_alive p 20 1.5 30 Hd Hx Hf).
Defined.

End TravelFacts.

(** Comparisons of floats, from their IEEE specification. *)
Module FloatOrder.

Lemma Pos_compare_cont_antisym m1 m2 :
  Pos.compare_cont Eq m2 m1 = CompOpp (Pos.compare_cont Eq m1 m2).
Proof. exact (Pos.compare_antisym m1 m2). Qed.

Lemma SFcompare_antisym x y :
  SpecFloat.SFcompare y x = option_map CompOpp (SpecFloat.SFcompare x y).
Proof.
  destruct x as [sx|sx| |sx mx ex], y as [sy|sy| |sy my ey];
    try destruct sx; try destruct sy; simpl; try reflexivity;
    pose proof (Z.compare_antisym ex ey) as A; pose proof (Pos_compare_cont_antisym mx my) as B;
    destruct (ex ?= ey)%Z, (ey ?= ex)%Z; simpl in A; try discriminate;
    destruct (Pos.compare_cont Eq mx my), (Pos.compare_cont Eq my mx); simpl in B;
    try discriminate; reflexivity.
Qed.

(** [x] is not NaN. *)
Definition ordered (x : float) : Prop := (x <=? x)%float = true.

Lemma SFleb_refl (f : SpecFloat.spec_float) :
  f <> SpecFloat.S754_nan -> SpecFloat.SFleb f f = true.
Proof.
  intros H. destruct f as [s|s| |s m e]; try destruct s; unfold SpecFloat.SFleb; simpl;
    try reflexivity; try congruence;
    rewrite Z.compare_refl; simpl;
    change (PosDef.Pos.compare_cont Eq m m) with (Pos.compare m m);
    rewrite Pos.compare_refl; reflexivity.
Qed.

Lemma leb_ordered_l x y : (x <=? y)%float = true -> ordered x.
Proof.
  unfold ordered. rewrite !FloatAxioms.leb_spec. intros H. apply SFleb_refl.
  intros E. rewrite E in H. discriminate.
Qed.

Lemma leb_ordered_r x y : (x <=? y)%float = true -> ordered y.
Proof.
  unfold ordered. rewrite !FloatAxioms.leb_spec. intros H. apply SFleb_refl.
  intros E. rewrite E in H. destruct (Prim2SF x); discriminate.
Qed.

Lemma ltb_leb x y : (x <? y)%float = true -> (x <=? y)%float = true.
Proof.
  rewrite FloatAxioms.ltb_spec, FloatAxioms.leb_spec.
  unfold SpecFloat.SFltb, SpecFloat.SFleb.
  destruct (SpecFloat.SFcompare _ _) as [[]|]; auto.
Qed.

Lemma leb_not_ltb x y : (x <=? y)%float = true -> (y <? x)%float = false.
Proof.
  rewrite FloatAxioms.ltb_spec, FloatAxioms.leb_spec.
  unfold SpecFloat.SFltb, SpecFloat.SFleb. rewrite SFcompare_antisym.
  destruct (SpecFloat.SFcompare _ _) as [[]|]; simpl; auto.
Qed.

Lemma SFcompare_some f g :
  f <> SpecFloat.S754_nan -> g <> SpecFloat.S754_nan -> exists c, SpecFloat.SFcompare f g = Some c.
Proof.
  intros Hf Hg. destruct f, g; try congruence; simpl; eexists; reflexivity.
Qed.

Lemma ordered_not_nan x : ordered x -> Prim2SF x <> SpecFloat.S754_nan.
Proof. unfold ordered. rewrite FloatAxioms.leb_spec. intros H E. rewrite E in H. discriminate. Qed.

Lemma not_ltb_leb x y : ordered x -> ordered y -> (y <? x)%float = false -> (x <=? y)%float = true.
Proof.
  intros Hx Hy. apply ordered_not_nan in Hx, Hy.
  rewrite FloatAxioms.ltb_spec, FloatAxioms.leb_spec.
  unfold SpecFloat.SFltb, SpecFloat.SFleb. rewrite (SFcompare_antisym (Prim2SF x) (Prim2SF y)).
  destruct (SFcompare_some _ _ Hx Hy) as [c ->]. destruct c; simpl; auto.
Qed.

Lemma leb_refl x : ordered x -> (x <=? x)%float = true.
Proof. auto. Qed.

End FloatOrder.

Module ManagerFacts.

Import Resources ResourcesMore FloatOrder.

Lemma eqb_iff a b : ResourceType_eqb a b = true <-> a = b.
Proof. unfold ResourceType_eqb. destruct (ResourceType_eq_dec a b); split; congruence. Qed.

Lemma eqb_refl a : ResourceType_eqb a a = true.
Proof. apply eqb_iff. reflexivity. Qed.

Lemma rm_get_put t t' r rm :
  rm_get t (rm_put t' r rm) = if ResourceType_eqb t t' then Some r else rm_get t rm.
Proof.
  induction rm as [|[t0 r0] rm IH]; simpl.
  - reflexivity.
  - destruct (ResourceType_eqb t' t0) eqn:E1; simpl.
    + apply eqb_iff in E1. subst t0.
      destruct (ResourceType_eqb t t'); reflexivity.
    + rewrite IH. destruct (ResourceType_eqb t t0) eqn:E2; [|reflexivity].
      apply eqb_iff in E2. subst t0.
      destruct (ResourceType_eqb t t') eqn:E3; [|reflexivity].
      apply eqb_iff in E3. subst t'. rewrite eqb_refl in E1. discriminate.
Qed.

Lemma rm_put_keys t r r0 rm : rm_get t rm = Some r0 -> map fst (rm_put t r rm) = map fst rm.
Proof.
  induction rm as [|[t0 r1] rm IH]; simpl; [discriminate|].
  destruct (ResourceType_eqb t t0) eqn:E; simpl; [reflexivity|].
  intros H. rewrite (IH H). reflexivity.
Qed.

Lemma zero_ordered : ordered 0%float.
Proof. vm_compute. reflexivity. Qed.

Lemma py_max_0_nonneg v : (0 <=? py_max 0%float v)%float = true.
Proof.
  unfold py_max. cbn [nltb PyNum_float].
  destruct (0 <? v)%float eqn:E; [apply ltb_leb; exact E | exact zero_ordered].
Qed.

(** [set_quantity] on a resource of non-negative capacity leaves a quantity
    in [0, max_capacity] (the amount itself when it is positive and fits),
    and changes nothing else. *)
Theorem set_quantity_clamped (rm : ResourceManager) (t : ResourceType) (amount : float)
    (r : Resource float)
    (Hr : rm_get t rm = Some r) (Hc : (0 <=? max_capacity r)%float = true) :
  exists r', rm_get t (rm_set_quantity rm t amount) = Some r' /\
    (0 <=? quantity r')%float = true /\ (quantity r' <=? max_capacity r')%float = true /\
    resource_type r' = resource_type r /\ max_capacity r' = max_capacity r /\
    quality r' = quality r /\
    (((0 <? amount)%float && (amount <=? max_capacity r)%float) = true -> quantity r' = amount) /\
    (forall t', t' <> t -> rm_get t' (rm_set_quantity rm t amount) = rm_get t' rm).
Proof.
  unfold rm_set_quantity. rewrite Hr. eexists. split.
  { rewrite rm_get_put, eqb_refl. reflexivity. }
  assert (Oc : ordered (max_capacity r)) by exact (leb_ordered_r _ _ Hc).
  unfold set_quantity. cbn [quantity max_capacity resource_type quality].
  split; [apply py_max_0_nonneg|].
  split.
  { unfold py_max, py_min. cbn [nltb PyNum_float].
    destruct (max_capacity r <? amount)%float eqn:E1; destruct (0 <? _)%float eqn:E2;
      try exact Hc; [exact Oc|].
    apply not_ltb_leb; [exact (leb_ordered_r _ _ (ltb_leb _ _ E2)) | exact Oc | exact E1]. }
  split; [reflexivity|]. split; [reflexivity|]. split; [reflexivity|]. split.
  - intros H. apply andb_true_iff in H as [H1 H2].
    unfold py_max, py_min. cbn [nltb PyNum_float].
    rewrite (leb_not_ltb _ _ H2), H1. reflexivity.
  - intros t' Ht. rewrite rm_get_put.
    destruct (ResourceType_eqb t' t) eqn:E; [apply eqb_iff in E; contradiction|reflexivity].
Qed.

Lemma set_quantity_clamped_witness :
  rm_get FOOD new_manager = Some (mkResource FOOD 0%float 500%float 100%float) /\
  (0 <=? max_capacity (mkResource FOOD 0%float 500%float 100%float))%float = true /\
  exists r', rm_get FOOD (rm_set_quantity new_manager FOOD 750%float) = Some r' /\
    (0 <=? quantity r')%float = true /\ (quantity r' <=? max_capacity r')%float = true /\
    resource_type r' = resource_type (mkResource FOOD 0%float 500%float 100%float) /\
    max_capacity r' = max_capacity (mkResource FOOD 0%float 500%float 100%float) /\
    quality r' = quality (mkResource FOOD 0%float 500%float 100%float) /\
    (((0 <? 750)%float && (750 <=? max_capacity (mkResource FOOD 0%float 500%float 100%float))%float) = true ->
       quantity r' = 750%float) /\
    (forall t', t' <> FOOD -> rm_get t' (rm_set_quantity new_manager FOOD 750%float) = rm_get t' new_manager).
Proof.
  assert (Hr : rm_get FOOD new_manager = Some (mkResource FOOD 0%float 500%float 100%float))
    by reflexivity.
  assert (Hc : (0 <=? max_capacity (mkResource FOOD 0%float 500%float 100%float))%float = true)
    by (vm_compute; reflexivity).
  split; [exact Hr|]. split; [exact Hc|].
  exact (set_quantity_clamped new_manager FOOD 750%float _ Hr Hc).
Defined.

Lemma get_quantity_same rm rm' t : rm_get t rm' = rm_get t rm -> get_quantity rm' t = get_quantity rm t.
Proof. unfold get_quantity. intros ->. reflexivity. Qed.

Lemma rm_remove_enough rm t a (H : has_enough rm t a = true) :
  fst (rm_remove rm t a) = (if (a <=? 0)%float then 0%float else a) /\
  get_quantity (snd (rm_remove rm t a)) t =
    (if (a <=? 0)%float then get_quantity rm t else (get_quantity rm t - a)%float) /\
  (forall t', t' <> t -> rm_get t' (snd (rm_remove rm t a)) = rm_get t' rm).
Proof.
  unfold has_enough in H. unfold rm_remove, get_quantity in *.
  assert (Hput : forall r, (forall t', t' <> t -> rm_get t' (rm_put t r rm) = rm_get t' rm)).
  { intros r t' Ht. rewrite rm_get_put.
    destruct (ResourceType_eqb t' t) eqn:E; [apply eqb_iff in E; contradiction|reflexivity]. }
  destruct (rm_get t rm) as [r|] eqn:Er.
  - unfold remove. cbn [nleb nzero nsub PyNum_float].
    destruct (a <=? 0)%float eqn:Ea; cbn [fst snd].
    + rewrite rm_get_put, eqb_refl. auto.
    + unfold py_min. cbn [nltb PyNum_float]. rewrite (leb_not_ltb _ _ H). cbn [fst snd].
      rewrite rm_get_put, eqb_refl. auto.
  - rewrite H. cbn [fst snd]. rewrite Er. auto.
Qed.

Lemma remove_fold req : forall rm acc,
  NoDup (map fst req) ->
  Forall (fun '(t, a) => has_enough rm t a = true) req ->
  let '(result, rm') :=
    fold_left (fun '(result, rm) '(t, amount) =>
                 let '(x, rm) := rm_remove rm t amount in (result ++ [(t, x)], rm))
              req (acc, rm) in
  result = acc ++ map (fun '(t, a) => (t, if (a <=? 0)%float then 0%float else a)) req /\
  (forall t a, In (t, a) req ->
     get_quantity rm' t =
       (if (a <=? 0)%float then get_quantity rm t else (get_quantity rm t - a)%float)) /\
  (forall t, ~ In t (map fst req) -> rm_get t rm' = rm_get t rm).
Proof.
  induction req as [|[t a] req IH]; intros rm acc Hn Hall; cbn [fold_left].
  - rewrite app_nil_r. split; [reflexivity|]. split; [intros ? ? []|auto].
  - inversion Hall as [|x y He Hrest]; subst. inversion Hn as [|x y Hni Hn']; subst.
    destruct (rm_remove_enough rm t a He) as [S1 [S2 S3]].
    destruct (rm_remove rm t a) as [x rm1] eqn:Er. cbn [fst snd] in S1, S2, S3. subst x.
    assert (Hall1 : Forall (fun '(t, a) => has_enough rm1 t a = true) req).
    { apply Forall_forall. intros [t' a'] Hin.
      rewrite Forall_forall in Hrest. specialize (Hrest _ Hin). cbn beta iota in Hrest.
      unfold has_enough. rewrite (get_quantity_same rm rm1); [exact Hrest|].
      apply S3. intros ->. apply Hni. apply (in_map fst) in Hin. exact Hin. }
    specialize (IH rm1 (acc ++ [(t, if (a <=? 0)%float then 0%float else a)]) Hn' Hall1).
    destruct (fold_left _ req _) as [result rm'].
    destruct IH as [I1 [I2 I3]]. split; [|split].
    + rewrite I1, <- app_assoc. reflexivity.
    + intros t' a' [E|Hin].
      * inversion E; subst t' a'. rewrite (get_quantity_same rm1 rm'); [exact S2|].
        apply I3. exact Hni.
      * rewrite (I2 t' a' Hin).
        assert (Ht : t' <> t).
        { intros ->. apply Hni. apply (in_map fst) in Hin. exact Hin. }
        rewrite (get_quantity_same rm rm1 t' (S3 t' Ht)). reflexivity.
    + intros t' Hni'. simpl in Hni'. apply Decidable.not_or in Hni' as [Ht Hni'].
      rewrite (I3 t' Hni'). apply S3. intros ->. apply Ht. reflexivity.
Qed.

(** [remove_multiple] removes all the requested amounts or nothing: it
    refuses, leaving the stock as it is, exactly when some request is not
    covered, and otherwise takes each (positive) amount in full and touches
    no other resource. *)
Theorem remove_multiple_all_or_nothing (rm : ResourceManager) (req : list (ResourceType * float))
    (Hn : NoDup (map fst req)) :
  let '(ok, result, rm') := remove_multiple rm req in
  (ok = false ->
     result = [] /\ rm' = rm /\ exists t a, In (t, a) req /\ has_enough rm t a = false) /\
  ((exists t a, In (t, a) req /\ has_enough rm t a = false) -> ok = false) /\
  (ok = true ->
     result = map (fun '(t, a) => (t, if (a <=? 0)%float then 0%float else a)) req /\
     (forall t a, In (t, a) req ->
        get_quantity rm' t =
          (if (a <=? 0)%float then get_quantity rm t else (get_quantity rm t - a)%float)) /\
     (forall t, ~ In t (map fst req) -> rm_get t rm' = rm_get t rm)).
Proof.
  unfold remove_multiple.
  destruct (forallb (fun '(t, amount) => has_enough rm t amount) req) eqn:E; cbn [negb].
  - assert (Hall : Forall (fun '(t, a) => has_enough rm t a = true) req).
    { apply Forall_forall. intros [t a] Hin. rewrite forallb_forall in E.
      exact (E _ Hin). }
    pose proof (remove_fold req rm [] Hn Hall) as F.
    destruct (fold_left _ req _) as [result rm']. split; [discriminate|].
    split; [|intros _; exact F].
    intros (t & a & Hin & Ha). rewrite forallb_forall in E.
    specialize (E _ Hin). cbv beta iota in E. congruence.
  - split; [|split; [reflexivity|discriminate]]. intros _. split; [reflexivity|]. split; [reflexivity|].
    induction req as [|[t a] req IH]; simpl in E; [discriminate|].
    destruct (has_enough rm t a) eqn:Ea.
    + inversion Hn; subst.
      destruct (IH H2 E) as [t' [a' [Hin Ht]]]. exists t', a'. split; [right|]; assumption.
    + exists t, a. split; [left; reflexivity|exact Ea].
Qed.

Lemma remove_multiple_all_or_nothing_witness :
  let rm := rm_set_quantity (rm_set_quantity new_manager FOOD 100%float) WATER 40%float in
  NoDup (map fst [(FOOD, 30%float); (WATER, 50%float)]) /\
  remove_multiple rm [(FOOD, 30%float); (WATER, 50%float)] = (false, [], rm) /\
  NoDup (map fst [(FOOD, 30%float); (WATER, 20%float)]) /\
  let '(ok, result, rm') := remove_multiple rm [(FOOD, 30%float); (WATER, 20%float)] in
  (ok = false ->
     result = [] /\ rm' = rm /\ exists t a, In (t, a) [(FOOD, 30%float); (WATER, 20%float)] /\
                                 has_enough rm t a = false) /\
  ((exists t a, In (t, a) [(FOOD, 30%float); (WATER, 20%float)] /\ has_enough rm t a = false) ->
     ok = false) /\
  (ok = true ->
     result = map (fun '(t, a) => (t, if (a <=? 0)%float then 0%float else a))
                  [(FOOD, 30%float); (WATER, 20%float)] /\
     (forall t a, In (t, a) [(FOOD, 30%float); (WATER, 20%float)] ->
        get_quantity rm' t =
          (if (a <=? 0)%float then get_quantity rm t else (get_quantity rm t - a)%float)) /\
     (forall t, ~ In t (map fst [(FOOD, 30%float); (WATER, 20%float)]) -> rm_get t rm' = rm_get t rm)).
Proof.
  intros rm.
  assert (Hn1 : NoDup (map fst [(FOOD, 30%float); (WATER, 50%float)]))
    by (constructor; [simpl; intuition discriminate | constructor; [simpl; tauto | constructor]]).
  assert (Hn2 : NoDup (map fst [(FOOD, 30%float); (WATER, 20%float)]))
    by (constructor; [simpl; intuition discriminate | constructor; [simpl; tauto | constructor]]).
  split; [exact Hn1|]. split; [vm_compute; reflexivity|]. split; [exact Hn2|].
  exact (remove_multiple_all_or_nothing rm _ Hn2).
Defined.

(** A resource [r'] that [apply_daily_decay] may leave where [r] was: same
    type and capacity, and no quantity or quality pushed below zero. *)
Definition decay_rel (r r' : Resource float) : Prop :=
  resource_type r' = resource_type r /\ max_capacity r' = max_capacity r /\
  ((0 <=? quantity r)%float = true -> (0 <=? quantity r')%float = true) /\
  ((0 <=? quality r)%float = true -> (0 <=? quality r')%float = true).

Lemma decay_rel_refl r : decay_rel r r.
Proof. unfold decay_rel. auto. Qed.

Lemma decay_rel_trans r1 r2 r3 : decay_rel r1 r2 -> decay_rel r2 r3 -> decay_rel r1 r3.
Proof. unfold decay_rel. intros [A1 [B1 [C1 D1]]] [A2 [B2 [C2 D2]]]. repeat split; congruence || auto. Qed.

Lemma decay_props r wm : decay_rel r (snd (apply_decay r wm)).
Proof.
  unfold apply_decay. destruct (DECAY_RATES (resource_type r) <=? 0)%float; cbn [snd].
  - apply decay_rel_refl.
  - unfold decay_rel. cbn [resource_type max_capacity quantity quality].
    repeat split; intros; apply py_max_0_nonneg.
Qed.

(** The body of the loop of [apply_daily_decay]. *)
Definition decay_step_fn (weather_mult : float) :=
  fun '(losses, rm) t =>
    match rm_get t rm with
    | Some r =>
        if (0 <? quantity r)%float then
          let '(loss, r') := apply_decay r weather_mult in
          let rm := rm_put t r' rm in
          if (0 <? loss)%float then (losses ++ [(t, loss)], rm) else (losses, rm)
        else (losses, rm)
    | None => (losses, rm)
    end.

Lemma apply_daily_decay_fold rm weather :
  apply_daily_decay rm weather =
  fold_left (decay_step_fn (get_or weather WEATHER_DECAY_MULTIPLIERS 1.0%float))
            [FOOD; WATER; CLOTHING] ([], rm).
Proof. reflexivity. Qed.

Lemma decay_step wm losses rm t :
  let '(losses1, rm1) := decay_step_fn wm (losses, rm) t in
  (losses1 = losses \/ exists loss, losses1 = losses ++ [(t, loss)] /\ (0 <? loss)%float = true) /\
  map fst rm1 = map fst rm /\
  (forall k, rm_get k rm = None -> rm_get k rm1 = None) /\
  (forall k r, rm_get k rm = Some r ->
     exists r1, rm_get k rm1 = Some r1 /\ decay_rel r r1 /\
       (k <> t \/ (0 <? quantity r)%float = false -> r1 = r)).
Proof.
  assert (Same : forall k r, rm_get k rm = Some r ->
            exists r1, rm_get k rm = Some r1 /\ decay_rel r r1 /\
              (k <> t \/ (0 <? quantity r)%float = false -> r1 = r))
    by (intros k r H; exists r; split; [exact H|split; [apply decay_rel_refl|auto]]).
  unfold decay_step_fn. destruct (rm_get t rm) as [r|] eqn:Er.
  2:{ split; [left; reflexivity|]. split; [reflexivity|]. split; [auto|exact Same]. }
  destruct (0 <? quantity r)%float eqn:Eq.
  2:{ split; [left; reflexivity|]. split; [reflexivity|]. split; [auto|exact Same]. }
  pose proof (decay_props r wm) as D.
  destruct (apply_decay r wm) as [loss r'] eqn:Ed. cbn [snd] in D.
  assert (C : map fst (rm_put t r' rm) = map fst rm /\
    (forall k, rm_get k rm = None -> rm_get k (rm_put t r' rm) = None) /\
    (forall k r0, rm_get k rm = Some r0 ->
       exists r1, rm_get k (rm_put t r' rm) = Some r1 /\ decay_rel r0 r1 /\
         (k <> t \/ (0 <? quantity r0)%float = false -> r1 = r0))).
  { split; [exact (rm_put_keys t r' r rm Er)|]. split.
    - intros k Hk. rewrite rm_get_put.
      destruct (ResourceType_eqb k t) eqn:E; [|exact Hk].
      apply eqb_iff in E. subst k. congruence.
    - intros k r0 Hk. rewrite rm_get_put.
      destruct (ResourceType_eqb k t) eqn:E.
      + apply eqb_iff in E. subst k. rewrite Er in Hk. inversion Hk; subst r0.
        exists r'. split; [reflexivity|]. split; [exact D|].
        intros [H|H]; [contradiction H; reflexivity | congruence].
      + exists r0. split; [exact Hk|]. split; [apply decay_rel_refl|auto]. }
  destruct (0 <? loss)%float eqn:El.
  - split; [right; exists loss; split; [reflexivity|exact El]|exact C].
  - split; [left; reflexivity|exact C].
Qed.

Lemma decay_fold wm ts : forall losses rm, NoDup ts ->
  let '(losses', rm') := fold_left (decay_step_fn wm) ts (losses, rm) in
  (exists new, losses' = losses ++ new /\
     Forall (fun '(t, l) => In t ts /\ (0 <? l)%float = true) new /\ NoDup (map fst new)) /\
  map fst rm' = map fst rm /\
  (forall t, rm_get t rm = None -> rm_get t rm' = None) /\
  (forall t r, rm_get t rm = Some r ->
     exists r', rm_get t rm' = Some r' /\ decay_rel r r' /\
       (~ In t ts \/ (0 <? quantity r)%float = false -> r' = r)).
Proof.
  induction ts as [|t ts IH]; intros losses rm Hn; cbn [fold_left].
  - split; [exists []; rewrite app_nil_r; split; [reflexivity|split; constructor]|].
    split; [reflexivity|]. split; [auto|].
    intros t r H. exists r. split; [exact H|]. split; [apply decay_rel_refl|auto].
  - inversion Hn as [|? ? Hni Hn']; subst.
    pose proof (decay_step wm losses rm t) as S.
    destruct (decay_step_fn wm (losses, rm) t) as [losses1 rm1].
    destruct S as [S0 [S1 [S2 S3]]].
    specialize (IH losses1 rm1 Hn').
    destruct (fold_left _ ts _) as [losses' rm'].
    destruct IH as [[new [N1 [N2 N3]]] [I1 [I2 I3]]].
    split; [|split; [congruence|split; [auto|]]].
    + destruct S0 as [->|[loss [-> Hl]]].
      * exists new. split; [exact N1|]. split; [|exact N3].
        eapply Forall_impl; [|exact N2]. intros [k l] [Hk Hl]. split; [right|]; assumption.
      * exists ((t, loss) :: new). split; [rewrite N1, <- app_assoc; reflexivity|].
        split.
        -- constructor; [split; [left; reflexivity|exact Hl]|].
           eapply Forall_impl; [|exact N2]. intros [k l] [Hk Hl']. split; [right|]; assumption.
        -- cbn [map fst]. constructor; [|exact N3].
           intros Hin. apply in_map_iff in Hin as [[k l] [Ek Hin]]. cbn [fst] in Ek. subst k.
           rewrite Forall_forall in N2. destruct (N2 _ Hin) as [Hk _]. contradiction.
    + intros k r Hk. destruct (S3 k r Hk) as [r1 [E1 [D1 K1]]].
      destruct (I3 k r1 E1) as [r' [E' [D' K']]].
      exists r'. split; [exact E'|]. split; [exact (decay_rel_trans _ _ _ D1 D')|].
      intros [Hni'|Hq].
      * simpl in Hni'. apply Decidable.not_or in Hni' as [Ht Hni'].
        rewrite K'; [apply K1; left; intros ->; apply Ht; reflexivity | left; exact Hni'].
      * assert (r1 = r) by (apply K1; right; exact Hq). subst r1.
        apply K'. right. exact Hq.
Qed.

(** [apply_daily_decay] only reports positive losses, at most one per
    perishable resource; it keeps the set of resources, each one's type
    and capacity, never turns a non-negative quantity or quality negative,
    and leaves alone the resources that are not perishable or not in stock. *)
Theorem daily_decay_keeps_stock (rm : ResourceManager) (weather : string) :
  let '(losses, rm') := apply_daily_decay rm weather in
  Forall (fun '(t, loss) => In t [FOOD; WATER; CLOTHING] /\ (0 <? loss)%float = true) losses /\
  NoDup (map fst losses) /\
  map fst rm' = map fst rm /\
  (forall t, rm_get t rm = None -> rm_get t rm' = None) /\
  (forall t r, rm_get t rm = Some r ->
     exists r', rm_get t rm' = Some r' /\
       resource_type r' = resource_type r /\ max_capacity r' = max_capacity r /\
       ((0 <=? quantity r)%float = true -> (0 <=? quantity r')%float = true) /\
       ((0 <=? quality r)%float = true -> (0 <=? quality r')%float = true) /\
       (~ In t [FOOD; WATER; CLOTHING] \/ (0 <? quantity r)%float = false -> r' = r)).
Proof.
  rewrite apply_daily_decay_fold.
  assert (Hn : NoDup [FOOD; WATER; CLOTHING])
    by (repeat constructor; simpl; intuition discriminate).
  pose proof (decay_fold (get_or weather WEATHER_DECAY_MULTIPLIERS 1.0%float)
                [FOOD; WATER; CLOTHING] [] rm Hn) as F.
  destruct (fold_left _ _ _) as [losses rm'].
  destruct F as [[new [N1 [N2 N3]]] [I1 [I2 I3]]]. cbn [app] in N1. subst new.
  split; [exact N2|]. split; [exact N3|]. split; [exact I1|]. split; [exact I2|].
  intros t r Hr. destruct (I3 t r Hr) as [r' [E [[D1 [D2 [D3 D4]]] K]]].
  exists r'. auto 7.
Qed.

End ManagerFacts.

(** Signs of the floats the activities compute. *)
Module FloatSign.

Import Invariants FloatFacts.

Definition nonneg (f : float) : Prop := sign_ok false (Prim2SF f).

Lemma sign_ok_normalize_any z e : 0 <= z ->
  sign_ok false (SpecFloat.binary_normalize FloatOps.prec FloatOps.emax z e false).
Proof.
  intros Hz. destruct z as [|p|p]; simpl; auto.
  - apply sign_ok_round.
  - lia.
Qed.

Lemma sign_ok_add x y : sign_ok false x -> sign_ok false y ->
  sign_ok false (SpecFloat.SFadd FloatOps.prec FloatOps.emax x y).
Proof.
  destruct x as [sx|sx| |sx mx ex], y as [sy|sy| |sy my ey]; simpl; intros Hx Hy;
    subst; simpl; auto.
  apply sign_ok_round.
Qed.

Lemma nonneg_mul x y : nonneg x -> nonneg y -> nonneg (x * y)%float.
Proof. unfold nonneg. rewrite FloatAxioms.mul_spec. apply sign_ok_mul. Qed.

Lemma nonneg_add x y : nonneg x -> nonneg y -> nonneg (x + y)%float.
Proof. unfold nonneg. rewrite FloatAxioms.add_spec. apply sign_ok_add. Qed.

Lemma nonneg_float_of_int a x : 0 <= a -> float_of_int a = Some x -> nonneg x.
Proof. apply sign_ok_float_of_int. Qed.

Lemma nonneg_mul_if a c f : 0 <= a -> nonneg c -> mul_if a c = Some f -> nonneg f.
Proof.
  unfold mul_if. intros Ha Hc.
  destruct (float_of_int a) as [x|] eqn:Ex; [|discriminate]. intros E; inversion E; subst.
  apply nonneg_mul; [exact (nonneg_float_of_int a x Ha Ex) | exact Hc].
Qed.

Lemma nonneg_add_if a c f : 0 <= a -> nonneg c -> add_if a c = Some f -> nonneg f.
Proof.
  unfold add_if. intros Ha Hc.
  destruct (float_of_int a) as [x|] eqn:Ex; [|discriminate]. intros E; inversion E; subst.
  apply nonneg_add; [exact (nonneg_float_of_int a x Ha Ex) | exact Hc].
Qed.

Lemma nonneg_true_div a b f : 0 <= a -> 0 < b -> true_div a b = Some f -> nonneg f.
Proof.
  unfold true_div, nonneg. intros Ha Hb.
  destruct b as [|pb|pb]; try lia. destruct a as [|pa|pa]; try lia.
  - intros E; inversion E; subst. vm_compute. reflexivity.
  - destruct (PrimFloat.is_infinity _); intros E; inversion E; subst.
    apply sign_ok_SF2Prim. simpl.
    destruct (SpecFloat.SFdiv_core_binary _ _ _ _) as [[mz ez] lz].
    apply sign_ok_round_aux.
Qed.

Lemma nonneg_random s : nonneg (fst (random s)).
Proof.
  unfold random, nonneg. destruct (next s) as [z s']. cbn [fst].
  apply sign_ok_SF2Prim, sign_ok_normalize_any. apply Z.mod_pos_bound. lia.
Qed.

Lemma nonneg_int_of_float f v : nonneg f -> int_of_float f = Some v -> 0 <= v.
Proof. apply int_of_float_nonneg. Qed.

End FloatSign.

Module HuntFacts.

Import Hunting.

Lemma randint_bounds a b s x s' : a <= b -> randint a b s = (x, s') -> a <= x <= b /\ s' = snd (next s).
Proof.
  unfold randint. destruct (next s) as [z s1]. intros Hab E. inversion E; subst.
  pose proof (Z.mod_pos_bound z (b - a + 1)). split; [lia|reflexivity].
Qed.

Lemma pick_in roll c l a : pick roll c l = Some a -> exists w, In (a, w) l.
Proof.
  revert c. induction l as [|[a' w'] l IH]; intros c; simpl; [discriminate|].
  destruct (roll <=? c + w'); [intros E; inversion E; subst; exists w'; left; reflexivity|].
  intros E. destruct (IH _ E) as [w Hw]. exists w. right. exact Hw.
Qed.

Lemma select_shape (t : string) (hunter_skill : Z) (prefer_safe : bool) (s : Rng)
    (res : option GameAnimal * Rng)
    (E : select_target_animal t hunter_skill prefer_safe s = Some res) :
  match fst res with
  | Some a => In a (get_available_animals t) /\ snd res = snd (next s)
  | None => get_available_animals t = [] /\ snd res = s
  end.
Proof.
  unfold select_target_animal in E.
  destruct (get_available_animals t) as [|a0 l] eqn:Ea.
  - inversion E; subst. split; reflexivity.
  - destruct (weights _ _ _) as [ws|]; [|discriminate]. cbn beta iota in E.
    destruct (randint 1 _ s) as [roll s1] eqn:R.
    assert (Hs : s1 = snd (next s)) by (unfold randint in R; destruct (next s); inversion R; reflexivity).
    destruct (pick roll 0 (combine (a0 :: l) ws)) as [a|] eqn:P; inversion E; subst; cbn [fst snd].
    + split; [|reflexivity]. destruct (pick_in _ _ _ _ P) as [w Hw].
      exact (in_combine_l _ _ _ _ Hw).
    + split; [left; reflexivity|reflexivity].
Qed.

(** [select_target_animal] picks one of the animals of the terrain, with
    one draw, and picks nothing, without a draw, only on a terrain without
    game. *)
Theorem select_target_available (t : string) (hunter_skill : Z) (prefer_safe : bool) (s : Rng)
    (res : option GameAnimal * Rng)
    (E : select_target_animal t hunter_skill prefer_safe s = Some res) :
  match fst res with
  | Some a => In a (get_available_animals t) /\ snd res = snd (next s)
  | None => get_available_animals t = [] /\ snd res = s
  end.
Proof. exact (select_shape t hunter_skill prefer_safe s res E). Qed.

Lemma select_target_available_witness :
  select_target_animal "forest" 50 false [80] = Some (Some WATERFOWL, []) /\
  In WATERFOWL (get_available_animals "forest") /\ ([] : Rng) = snd (next [80]).
Proof.
  assert (E : select_target_animal "forest" 50 false [80] = Some (Some WATERFOWL, []))
    by (vm_compute; reflexivity).
  split; [exact E|]. exact (select_target_available _ _ _ _ _ E).
Defined.

Lemma animal_ranges a :
  1 <= fst (ammo_cost (ANIMAL_DATA a)) <= snd (ammo_cost (ANIMAL_DATA a)) /\
  0 <= fst (food_yield (ANIMAL_DATA a)) <= snd (food_yield (ANIMAL_DATA a)) /\
  fst (injury_range a) <= snd (injury_range a).
Proof. destruct a; simpl; lia. Qed.

Lemma style_nonneg st :
  FloatSign.nonneg (ammo_mod (STYLE_MODIFIERS st)) /\ FloatSign.nonneg (yield_mod (STYLE_MODIFIERS st)).
Proof. destruct st; split; vm_compute; reflexivity. Qed.

(** A hunt spends between 0 and the ammunition at hand, never gains a
    negative amount of food, does harm within the animal's injury range only
    when the hunter is injured, and takes the style's hours; without game or
    with fewer than 2 rounds it does nothing, and draws nothing. *)
Theorem hunt_bounds (t weather : string) (hunter_skill hunting_bonus ammo_available : Z)
    (st : HuntingStyle) (location_bonus : Z) (s : Rng) (r : HuntingResult) (s' : Rng)
    (E : hunt t weather hunter_skill hunting_bonus ammo_available st location_bonus s = Some (r, s')) :
  0 <= ammo_used r <= Z.max 0 ammo_available /\
  0 <= food_gained r /\
  match h_animal r with
  | Some a =>
      (hunter_injured r = true -> fst (injury_range a) <= injury_damage r <= snd (injury_range a)) /\
      (hunter_injured r = false -> injury_damage r = 0) /\
      time_spent r = time_hours (STYLE_MODIFIERS st)
  | None =>
      r = no_hunt (if ammo_available <? 2 then 1 else time_hours (STYLE_MODIFIERS st)) /\ s' = s
  end.
Proof.
  unfold hunt in E. destruct (ammo_available <? 2) eqn:Ea.
  { inversion E; subst. cbn. split; [lia|]. split; [lia|]. auto. }
  destruct (select_target_animal _ _ _ s) as [[sel s1]|] eqn:Es; [|discriminate].
  pose proof (select_shape _ _ _ _ _ Es) as Sh. cbn [fst snd] in Sh.
  cbv beta iota in E.
  destruct sel as [a|].
  2:{ inversion E; subst. destruct Sh as [_ ->]. cbn. split; [lia|]. split; [lia|]. auto. }
  destruct (animal_ranges a) as [A1 [A2 A3]]. destruct (style_nonneg st) as [N1 N2].
  destruct (randint (fst (ammo_cost (ANIMAL_DATA a))) _ s1) as [ba s2] eqn:R1.
  apply randint_bounds in R1; [destruct R1 as [B1 _]|lia].
  cbv beta iota in E.
  destruct (mul_if ba _) as [au1|] eqn:M1; [|discriminate]. cbv beta iota in E.
  destruct (int_of_float au1) as [au|] eqn:I1; [|discriminate]. cbv beta iota in E.
  assert (Hau : 0 <= au).
  { apply (FloatSign.nonneg_int_of_float au1); [|exact I1].
    exact (FloatSign.nonneg_mul_if ba _ au1 ltac:(lia) N1 M1). }
  destruct (randint 1 100 s2) as [roll s3]. cbv beta iota in E.
  destruct (mul_if (danger _) _) as [dc|]; [|discriminate]. cbv beta iota in E.
  destruct (randint 1 100 s3) as [ir s4]. cbv beta iota in E.
  destruct (float_of_int ir) as [irf|]; [|discriminate]. cbv beta iota zeta in E.
  destruct (irf <=? dc)%float eqn:Inj.
  - destruct (randint (fst (injury_range a)) _ s4) as [dmg s5] eqn:R4.
    apply randint_bounds in R4; [destruct R4 as [B4 _]|lia].
    cbv beta iota in E.
    destruct (roll <=? _).
    + destruct (randint (fst (food_yield (ANIMAL_DATA a))) _ s5) as [by0 s6] eqn:R5.
      apply randint_bounds in R5; [destruct R5 as [B5 _]|lia].
      cbv beta iota in E.
      destruct (mul_if by0 _) as [fg1|] eqn:M3; [|discriminate]. cbv beta iota in E.
      destruct (int_of_float fg1) as [fg|] eqn:I3; [|discriminate].
      inversion E; subst. cbn.
      assert (0 <= fg).
      { apply (FloatSign.nonneg_int_of_float fg1); [|exact I3].
        exact (FloatSign.nonneg_mul_if by0 _ fg1 ltac:(lia) N2 M3). }
      repeat split; try lia; discriminate.
    + inversion E; subst. cbn. repeat split; try lia; discriminate.
  - cbv beta iota in E. destruct (roll <=? _).
    + destruct (randint (fst (food_yield (ANIMAL_DATA a))) _ s4) as [by0 s6] eqn:R5.
      apply randint_bounds in R5; [destruct R5 as [B5 _]|lia].
      cbv beta iota in E.
      destruct (mul_if by0 _) as [fg1|] eqn:M3; [|discriminate]. cbv beta iota in E.
      destruct (int_of_float fg1) as [fg|] eqn:I3; [|discriminate].
      inversion E; subst. cbn.
      assert (0 <= fg).
      { apply (FloatSign.nonneg_int_of_float fg1); [|exact I3].
        exact (FloatSign.nonneg_mul_if by0 _ fg1 ltac:(lia) N2 M3). }
      repeat split; try lia; discriminate.
    + inversion E; subst. cbn. repeat split; try lia; discriminate.
Qed.

Lemma hunt_bounds_witness :
  let r := {| h_success := true; h_animal := Some MOOSE; food_gained := 198; ammo_used := 4;
              hunter_injured := true; injury_damage := 25; time_spent := 6 |} in
  hunt "forest" "clear" 60 0 100 AGGRESSIVE 0 [300; 0; 0; 0; 5; 3; 0] = Some (r, [0]) /\
  0 <= ammo_used r <= Z.max 0 100 /\
  0 <= food_gained r /\
  match h_animal r with
  | Some a =>
      (hunter_injured r = true -> fst (injury_range a) <= injury_damage r <= snd (injury_range a)) /\
      (hunter_injured r = false -> injury_damage r = 0) /\
      time_spent r = time_hours (STYLE_MODIFIERS AGGRESSIVE)
  | None =>
      r = no_hunt (if 100 <? 2 then 1 else time_hours (STYLE_MODIFIERS AGGRESSIVE)) /\ [0] = [300; 0; 0; 0; 5; 3; 0]
  end.
Proof.
  intros r.
  assert (E : hunt "forest" "clear" 60 0 100 AGGRESSIVE 0 [300; 0; 0; 0; 5; 3; 0] = Some (r, [0]))
    by (vm_compute; reflexivity).
  split; [exact E|]. exact (hunt_bounds _ _ _ _ _ _ _ _ _ _ E).
Defined.

End HuntFacts.

Module ForageFacts.

Import Gathering FloatSign.

Lemma base_yields_bounds t f mn mx : base_yields t f = Some (mn, mx) -> 0 <= mn <= mx.
Proof.
  unfold base_yields. destruct (get t FORAGING_YIELDS) as [ys|] eqn:G; [|discriminate].
  apply RationFacts.get_in in G. simpl in G.
  destruct G as [<-|[<-|[<-|[<-|[<-|[]]]]]]; destruct f; simpl; intros Hb; inversion Hb; lia.
Qed.

Lemma weather_mod_nonneg w : nonneg (get_or w WEATHER_FORAGING_MODIFIERS 1.0%float).
Proof.
  unfold get_or. destruct (get w _) as [v|] eqn:G; [|vm_compute; reflexivity].
  apply RationFacts.get_in in G. simpl in G. intuition subst; vm_compute; reflexivity.
Qed.

Lemma season_mod_nonneg k se :
  nonneg (get_or k (get_or se SEASON_FORAGING_MODIFIERS []) 1.0%float).
Proof.
  unfold get_or at 2. destruct (get se _) as [l|] eqn:G1.
  - apply RationFacts.get_in in G1. simpl in G1.
    unfold get_or. destruct (get k l) as [v|] eqn:G2; [|vm_compute; reflexivity].
    apply RationFacts.get_in in G2.
    intuition subst; simpl in G2; intuition subst; vm_compute; reflexivity.
  - vm_compute. reflexivity.
Qed.

Lemma random_next s : snd (random s) = snd (next s).
Proof. unfold random. destruct (next s). reflexivity. Qed.

Lemma randint_next a b s : snd (randint a b s) = snd (next s).
Proof. unfold randint. destruct (next s). reflexivity. Qed.

(** [forage] reports the kind asked for; a kind the terrain does not offer
    gives a failed hour without a draw; otherwise it takes two draws and
    an hour for water, three for the other kinds, and water goes to
    [water_gained] only, the other kinds to [food_gained] only. *)
Theorem forage_kinds (t weather season : string) (f : ForagingType)
    (forager_skill party_size : Z) (s : Rng) (r : ForagingResult) (s' : Rng)
    (E : forage t weather season f forager_skill party_size s = Some (r, s')) :
  forage_type r = f /\
  (can_forage t f = false ->
     r = {| f_success := false; forage_type := f; f_food_gained := 0; water_gained := 0;
            f_time_spent := 1 |} /\ s' = s) /\
  (can_forage t f = true ->
     f_time_spent r = (if ForagingType_eqb f WATER then 1 else 3) /\
     s' = snd (next (snd (next s)))) /\
  (ForagingType_eqb f WATER = true -> f_food_gained r = 0) /\
  (ForagingType_eqb f WATER = false -> water_gained r = 0).
Proof.
  unfold forage in E. destruct (can_forage t f) eqn:Ec.
  2:{ inversion E; subst. cbn. repeat split; discriminate || auto; destruct f; reflexivity. }
  destruct (base_yields t f) as [[mn mx]|] eqn:Eb.
  2:{ unfold can_forage in Ec. rewrite Eb in Ec. discriminate. }
  cbv beta iota zeta in E.
  destruct (true_div forager_skill 100) as [sk|]; [|discriminate]. cbv beta iota zeta in E.
  destruct (mul_if (party_size - 1) 0.3) as [pm|]; [|discriminate]. cbv beta iota zeta in E.
  destruct (add_if 1 pm) as [pmod|]; [|discriminate]. cbv beta iota zeta in E.
  pose proof (random_next s) as Rn. destruct (random s) as [rr s1]. cbn [snd] in Rn.
  cbv beta iota zeta in E.
  destruct (mul_if (mx - mn) rr) as [x|]; [|discriminate]. cbv beta iota zeta in E.
  destruct (add_if mn x) as [ba|]; [|discriminate]. cbv beta iota zeta in E.
  destruct (int_of_float _) as [fa|]; [|discriminate]. cbv beta iota zeta in E.
  destruct (true_div forager_skill 3) as [sc|]; [|discriminate]. cbv beta iota zeta in E.
  destruct (add_if 60 sc) as [sch|]; [|discriminate]. cbv beta iota zeta in E.
  pose proof (randint_next 1 100 s1) as Ri. destruct (randint 1 100 s1) as [roll s2].
  cbn [snd] in Ri. cbv beta iota zeta in E.
  destruct (float_of_int roll) as [rf|]; [|discriminate]. cbv beta iota zeta in E.
  destruct (if (rf <=? sch)%float then _ else _) as [fin|]; [|discriminate].
  inversion E; subst. cbn.
  split; [reflexivity|]. split; [discriminate|]. split.
  - intros _. split; [reflexivity|]. reflexivity.
  - destruct (ForagingType_eqb f WATER); split; intros; reflexivity || discriminate.
Qed.

Lemma forage_kinds_witness :
  let r := {| f_success := false; forage_type := WATER; f_food_gained := 0; water_gained := 1;
              f_time_spent := 1 |} in
  forage "plains" "rain" "fall" WATER 40 3 [123456789; 80] = Some (r, []) /\
  forage_type r = WATER /\
  (can_forage "plains" WATER = false ->
     r = {| f_success := false; forage_type := WATER; f_food_gained := 0; water_gained := 0;
            f_time_spent := 1 |} /\ [] = [123456789; 80]) /\
  (can_forage "plains" WATER = true ->
     f_time_spent r = (if ForagingType_eqb WATER WATER then 1 else 3) /\
     [] = snd (next (snd (next [123456789; 80])))) /\
  (ForagingType_eqb WATER WATER = true -> f_food_gained r = 0) /\
  (ForagingType_eqb WATER WATER = false -> water_gained r = 0).
Proof.
  intros r.
  assert (E : forage "plains" "rain" "fall" WATER 40 3 [123456789; 80] = Some (r, []))
    by (vm_compute; reflexivity).
  split; [exact E|]. exact (forage_kinds _ _ _ _ _ _ _ _ _ E).
Defined.

(** With a non-negative skill and at least one traveler, foraging never
    gains a negative amount of food or water. *)
Theorem forage_nonneg (t weather season : string) (f : ForagingType)
    (forager_skill party_size : Z) (s : Rng) (r : ForagingResult) (s' : Rng)
    (Hs : 0 <= forager_skill) (Hn : 1 <= party_size)
    (E : forage t weather season f forager_skill party_size s = Some (r, s')) :
  0 <= f_food_gained r /\ 0 <= water_gained r.
Proof.
  unfold forage in E. destruct (can_forage t f) eqn:Ec.
  2:{ inversion E; subst. cbn. lia. }
  destruct (base_yields t f) as [[mn mx]|] eqn:Eb.
  2:{ unfold can_forage in Ec. rewrite Eb in Ec. discriminate. }
  pose proof (base_yields_bounds _ _ _ _ Eb) as Hb.
  cbv beta iota zeta in E.
  destruct (true_div forager_skill 100) as [sk|] eqn:D1; [|discriminate]. cbv beta iota zeta in E.
  destruct (mul_if (party_size - 1) 0.3) as [pm|] eqn:M1; [|discriminate]. cbv beta iota zeta in E.
  destruct (add_if 1 pm) as [pmod|] eqn:A1; [|discriminate]. cbv beta iota zeta in E.
  pose proof (nonneg_random s) as Nr. destruct (random s) as [rr s1]. cbn [fst] in Nr.
  cbv beta iota zeta in E.
  destruct (mul_if (mx - mn) rr) as [x|] eqn:M2; [|discriminate]. cbv beta iota zeta in E.
  destruct (add_if mn x) as [ba|] eqn:A2; [|discriminate]. cbv beta iota zeta in E.
  destruct (int_of_float _) as [fa|] eqn:I1; [|discriminate]. cbv beta iota zeta in E.
  assert (Hfa : 0 <= fa).
  { eapply nonneg_int_of_float; [|exact I1]. apply nonneg_mul.
    - apply (nonneg_add_if mn x); [lia| |exact A2].
      apply (nonneg_mul_if (mx - mn) rr); [lia|exact Nr|exact M2].
    - repeat apply nonneg_mul.
      + apply weather_mod_nonneg.
      + apply season_mod_nonneg.
      + apply nonneg_add; [vm_compute; reflexivity|].
        exact (nonneg_true_div forager_skill 100 sk Hs ltac:(lia) D1).
      + apply (nonneg_add_if 1 pm); [lia| |exact A1].
        apply (nonneg_mul_if (party_size - 1) 0.3); [lia|vm_compute; reflexivity|exact M1]. }
  destruct (true_div forager_skill 3) as [sc|]; [|discriminate]. cbv beta iota zeta in E.
  destruct (add_if 60 sc) as [sch|]; [|discriminate]. cbv beta iota zeta in E.
  destruct (randint 1 100 s1) as [roll s2]. cbv beta iota zeta in E.
  destruct (float_of_int roll) as [rf|]; [|discriminate]. cbv beta iota zeta in E.
  destruct (if (rf <=? sch)%float then _ else _) as [fin|] eqn:Fin; [|discriminate].
  assert (Hfin : 0 <= fin).
  { destruct (rf <=? sch)%float.
    - inversion Fin. lia.
    - destruct (mul_if fa 0.3) as [y|] eqn:M3; [|discriminate].
      apply (nonneg_int_of_float y); [|exact Fin].
      apply (nonneg_mul_if fa 0.3); [exact Hfa|vm_compute; reflexivity|exact M3]. }
  inversion E; subst. cbn. destruct (ForagingType_eqb f WATER); lia.
Qed.

Lemma forage_nonneg_witness :
  0 <= 50 /\ 1 <= 1 /\
  forage "forest" "clear" "summer" BERRIES 50 1 [4503599627370496; 0] =
    Some ({| f_success := true; forage_type := BERRIES; f_food_gained := 18; water_gained := 0;
             f_time_spent := 3 |}, []) /\
  0 <= 18 /\ 0 <= 0.
Proof.
  assert (E : forage "forest" "clear" "summer" BERRIES 50 1 [4503599627370496; 0] =
    Some ({| f_success := true; forage_type := BERRIES; f_food_gained := 18; water_gained := 0;
             f_time_spent := 3 |}, [])) by (vm_compute; reflexivity).
  split; [lia|]. split; [lia|]. split; [exact E|].
  exact (forage_nonneg "forest" "clear" "summer" BERRIES 50 1 _ _ _ (ltac:(lia) : 0 <= 50) (ltac:(lia) : 1 <= 1) E).
Defined.

End ForageFacts.

Module DayFacts.

Import Player Resources Party Views PartyFacts MemberFacts.

(** The fields of a party that a day of travel or rest does not touch,
    and which members are alive. *)
Definition meta (p : Party) : string * Z * string :=
  (party_name p, miles_traveled p, current_rationing p).
Definition flags (p : Party) : list bool := map is_alive (members p).

Lemma apply_morale_event_frame p e :
  meta (apply_morale_event p e) = meta p /\
  days_traveled (apply_morale_event p e) = days_traveled p /\
  flags (apply_morale_event p e) = flags p.
Proof.
  unfold apply_morale_event. destruct (_ =? 0); [auto|].
  unfold change_party_morale, set_members, flags, meta; cbn. split; [reflexivity|].
  split; [reflexivity|]. rewrite map_map. apply map_ext. intros m.
  destruct (is_alive m) eqn:E; [|exact E].
  rewrite (key_is_alive _ _ (change_morale_key m _)). exact E.
Qed.

Lemma add_condition_alive_frame p c :
  meta (add_condition_alive p c) = meta p /\
  days_traveled (add_condition_alive p c) = days_traveled p /\
  flags (add_condition_alive p c) = flags p.
Proof.
  unfold add_condition_alive, set_members, flags, meta; cbn. split; [reflexivity|].
  split; [reflexivity|]. rewrite map_map. apply map_ext. intros m.
  destruct (is_alive m) eqn:E; [|exact E].
  destruct (add_condition m c) as [x q] eqn:Ea. cbn [snd].
  rewrite (key_is_alive _ _ (add_condition_key _ _ _ _ Ea)). exact E.
Qed.

Lemma apply_shortages_frame p c :
  meta (fst (apply_shortages p c)) = meta p /\
  days_traveled (fst (apply_shortages p c)) = days_traveled p /\
  flags (fst (apply_shortages p c)) = flags p.
Proof.
  rewrite apply_shortages_fst. cbv zeta.
  destruct (assoc_get FOOD (shortages c)); destruct (assoc_get WATER (shortages c));
    repeat first [ rewrite (proj1 (add_condition_alive_frame _ _))
                 | rewrite (proj1 (proj2 (add_condition_alive_frame _ _)))
                 | rewrite (proj2 (proj2 (add_condition_alive_frame _ _)))
                 | rewrite (proj1 (apply_morale_event_frame _ _))
                 | rewrite (proj1 (proj2 (apply_morale_event_frame _ _)))
                 | rewrite (proj2 (proj2 (apply_morale_event_frame _ _))) ];
    auto.
Qed.

Lemma nth_error_update_nth_other {A} i j (x : A) l :
  j <> i -> nth_error (update_nth i x l) j = nth_error l j.
Proof.
  revert i j. induction l as [|a l IH]; intros [|i] [|j] H; simpl; try reflexivity;
    try (exfalso; lia). apply IH. lia.
Qed.

Lemma length_update_nth {A} i (x : A) l : List.length (update_nth i x l) = List.length l.
Proof. revert i. induction l as [|a l IH]; intros [|i]; simpl; auto. Qed.

Lemma member_step_frame st i :
  let '(p, _, ups, _, _) := st in
  let '(p', _, ups', _, _) := member_step st i in
  meta p' = meta p /\ days_traveled p' = days_traveled p /\
  List.length (members p') = List.length (members p) /\
  (forall j, j <> i -> nth_error (flags p') j = nth_error (flags p) j) /\
  List.length ups' = (List.length ups + match nth_error (flags p) i with
                                       | Some true => 1 | _ => 0 end)%nat.
Proof.
  destruct st as [[[[p s] ups] ds] ev]. unfold member_step.
  replace (nth_error (flags p) i) with (option_map is_alive (nth_error (members p) i))
    by (unfold flags; rewrite nth_error_map; reflexivity).
  destruct (nth_error (members p) i) as [m|] eqn:En; cbn [option_map].
  2:{ repeat split; auto; lia. }
  destruct (is_alive m) eqn:Ea.
  2:{ repeat split; auto; lia. }
  destruct (daily_update m s) as [[u m'] s'] eqn:Ed.
  assert (F : forall q, members q = update_nth i m' (members p) ->
            List.length (members q) = List.length (members p) /\
            forall j, j <> i -> nth_error (flags q) j = nth_error (flags p) j).
  { intros q Hq. unfold flags. rewrite Hq, length_update_nth. split; [reflexivity|].
    intros j Hj. rewrite !nth_error_map, nth_error_update_nth_other by exact Hj. reflexivity. }
  destruct (died u); cbv beta iota; rewrite length_app; cbn [List.length].
  - set (q := record_death (set_members p (update_nth i m' (members p))) m' "conditions").
    destruct (apply_morale_event_frame q "death") as [M1 [D1 F1]].
    destruct (F q eq_refl) as [L2 F2].
    split; [rewrite M1; reflexivity|]. split; [rewrite D1; reflexivity|].
    split.
    + unfold apply_morale_event. destruct (_ =? 0); [exact L2|].
      unfold change_party_morale, set_members. cbn [members]. rewrite length_map. exact L2.
    + split; [|lia]. intros j Hj. rewrite F1. exact (F2 j Hj).
  - destruct (F (set_members p (update_nth i m' (members p))) eq_refl) as [L2 F2].
    repeat split; auto; lia.
Qed.

Fixpoint count_true (l : list bool) : nat :=
  match l with [] => 0 | b :: l' => ((if b then 1 else 0) + count_true l')%nat end.

Lemma skipn_nth_error {A} (l : list A) k :
  skipn k l = match nth_error l k with Some x => x :: skipn (S k) l | None => [] end.
Proof.
  revert l. induction k as [|k IH]; intros [|a l]; simpl; try reflexivity.
  apply IH.
Qed.

Lemma fold_member_step_frame n : forall k st flags0,
  let '(p, _, ups, _, _) := st in
  (forall j, (k <= j)%nat -> nth_error (flags p) j = nth_error flags0 j) ->
  let '(p', _, ups', _, _) := fold_left member_step (seq k n) st in
  meta p' = meta p /\ days_traveled p' = days_traveled p /\
  List.length ups' = (List.length ups + count_true (firstn n (skipn k flags0)))%nat.
Proof.
  induction n as [|n IH]; intros k st flags0.
  - destruct st as [[[[p s] ups] ds] ev]. intros _. cbn. auto.
  - destruct st as [[[[p s] ups] ds] ev]. intros Hf. cbn [seq fold_left].
    pose proof (member_step_frame (p, s, ups, ds, ev) k) as S.
    destruct (member_step _ k) as [[[[p1 s1] ups1] ds1] ev1].
    destruct S as [M1 [D1 [_ [F1 L1]]]].
    specialize (IH (S k) (p1, s1, ups1, ds1, ev1) flags0).
    cbv beta iota in IH.
    assert (Hf1 : forall j, (S k <= j)%nat -> nth_error (flags p1) j = nth_error flags0 j).
    { intros j Hj. rewrite F1 by lia. apply Hf. lia. }
    specialize (IH Hf1).
    destruct (fold_left member_step (seq (S k) n) _) as [[[[p2 s2] ups2] ds2] ev2].
    destruct IH as [M2 [D2 L2]].
    split; [congruence|]. split; [congruence|].
    rewrite L2, L1, (Hf k (le_n k)), (skipn_nth_error flags0 k).
    destruct (nth_error flags0 k) as [[|]|] eqn:Ek; cbn [firstn count_true]; try lia.
    apply nth_error_None in Ek. rewrite (skipn_all2 flags0 (n := S k)) by lia.
    destruct n; cbn [firstn count_true]; lia.
Qed.

Lemma count_true_map (l : list Player) :
  count_true (map is_alive l) = List.length (filter is_alive l).
Proof. induction l as [|a l IH]; simpl; [reflexivity|]. destruct (is_alive a); simpl; lia. Qed.

Lemma process_day_frame p t w s r p' s' :
  process_day p t w s = Some (r, p', s') ->
  meta p' = meta p /\ days_traveled p' = days_traveled p + 1 /\
  day r = days_traveled p + 1 /\
  List.length (member_updates r) = List.length (alive_members p) /\
  (consumption r = None <-> alive_members p = []).
Proof.
  unfold process_day.
  set (p0 := set_days_traveled p (days_traveled p + 1)).
  assert (S0 : meta p0 = meta p /\ days_traveled p0 = days_traveled p + 1 /\ flags p0 = flags p)
    by (split; [|split]; reflexivity).
  assert (H0 : alive_members p0 = alive_members p) by reflexivity.
  clearbody p0.
  destruct (if 0 <? alive_count p0 then _ else _) as [[[[c0 wn] ev] p1]|] eqn:E1;
    [|discriminate].
  assert (C1 : c0 = None <-> alive_members p = []).
  { unfold alive_count in E1. rewrite H0 in E1.
    destruct (alive_members p) as [|a l]; cbn [List.length Z.of_nat Z.ltb Z.compare] in E1.
    - inversion E1; subst. split; reflexivity.
    - destruct (consume_daily _ _ _ _) as [[c rm]|]; [|discriminate].
      destruct (apply_shortages _ _). inversion E1; subst. split; discriminate. }
  assert (S1 : meta p1 = meta p /\ days_traveled p1 = days_traveled p + 1 /\ flags p1 = flags p).
  { destruct (0 <? alive_count p0); [|inversion E1; subst; exact S0].
    destruct (consume_daily _ _ _ _) as [[c rm]|]; [|discriminate].
    destruct (apply_shortages (set_resources p0 rm) c) as [p2 ev2] eqn:Es.
    inversion E1; subst.
    pose proof (apply_shortages_frame (set_resources p0 rm) c) as S2.
    rewrite Es in S2. cbn [fst] in S2. destruct S2 as [-> [-> ->]]. exact S0. }
  destruct (apply_daily_decay (resources p1) w) as [dec rm] eqn:Edec.
  set (p2 := set_resources p1 rm).
  assert (S2 : meta p2 = meta p /\ days_traveled p2 = days_traveled p + 1 /\ flags p2 = flags p)
    by exact S1.
  clearbody p2.
  pose proof (fold_member_step_frame (List.length (members p2)) 0 (p2, s, [], [], ev) (flags p2))
    as F.
  cbv beta iota in F. specialize (F (fun j _ => eq_refl)).
  destruct (fold_left member_step _ _) as [[[[p3 s3] ups] ds] ev3].
  destruct F as [M3 [D3 L3]].
  destruct (if (w =? "storm")%string || (w =? "blizzard")%string then _ else _)
    as [[p4 ev4] s4] eqn:E4.
  assert (S4 : meta p4 = meta p3 /\ days_traveled p4 = days_traveled p3).
  { destruct (_ || _); [inversion E4; subst; split; apply apply_morale_event_frame|].
    destruct (w =? "clear")%string; [|inversion E4; subst; split; reflexivity].
    destruct (random s3) as [x s5]. destruct (x <? 0.3)%float;
      inversion E4; subst; [split; apply apply_morale_event_frame | split; reflexivity]. }
  destruct (days_of_supplies _ _ _) as [fd|]; [|discriminate].
  destruct (if _ && _ then _ else _) as [p5 wn5] eqn:E5.
  assert (S5 : meta p5 = meta p4 /\ days_traveled p5 = days_traveled p4).
  { destruct (_ && _); inversion E5; subst; [split; apply apply_morale_event_frame | split; reflexivity]. }
  intros E. inversion E; subst. cbn [day member_updates].
  destruct S5 as [A5 B5], S4 as [A4 B4], S2 as [A2 [B2 C2]].
  split; [congruence|]. split; [congruence|]. split; [reflexivity|].
  rewrite L3. cbn [List.length plus]. rewrite skipn_O, firstn_all2.
  2:{ unfold flags. rewrite length_map. lia. }
  split; [|exact C1].
  rewrite C2. unfold flags, alive_members. apply count_true_map.
Qed.

Definition cleared_ok (cl : list (string * Condition)) : Prop :=
  Forall (fun x => snd x = EXHAUSTED \/ snd x = INJURED) cl.

Lemma rest_clear_fold cs m cl s :
  cleared_ok cl ->
  let '(_, cl', _) := fold_left rest_clear cs (m, cl, s) in cleared_ok cl'.
Proof.
  revert m cl s. induction cs as [|c cs IH]; intros m cl s H; [exact H|].
  cbn [fold_left]. unfold rest_clear at 2.
  destruct (Condition_eqb c EXHAUSTED || Condition_eqb c INJURED) eqn:Ec; [|apply IH; exact H].
  destruct (random s) as [x s1]. destruct (x <? 0.3)%float; apply IH; [|exact H].
  unfold cleared_ok. apply Forall_app. split; [exact H|]. constructor; [|constructor].
  unfold Condition_eqb in Ec. cbn [snd].
  destruct (Condition_eq_dec c EXHAUSTED); [left; exact e|].
  destruct (Condition_eq_dec c INJURED); [right; exact e|discriminate].
Qed.

Lemma rest_member_none b l :
  fold_left (rest_member b) l None = None.
Proof. induction l; simpl; auto. Qed.

Lemma rest_member_fold b l st st' :
  fold_left (rest_member b) l (Some st) = Some st' ->
  let '(p, hl, cl, _) := st in
  let '(p', hl', cl', _) := st' in
  Forall (fun x => 0 < snd x) hl -> cleared_ok cl ->
  meta p' = meta p /\ days_traveled p' = days_traveled p /\
  Forall (fun x => 0 < snd x) hl' /\ cleared_ok cl'.
Proof.
  revert st. induction l as [|i l IH]; intros [[[p hl] cl] s] E.
  - inversion E; subst. auto.
  - cbn [fold_left] in E. unfold rest_member at 2 in E. cbv beta iota in E.
    destruct (nth_error (members p) i) as [m|].
    2:{ exact (IH _ E). }
    destruct (randint 5 15 s) as [a s1].
    destruct (heal m a b) as [[healed m1]|].
    2:{ rewrite rest_member_none in E. discriminate. }
    cbv beta iota in E.
    pose proof (rest_clear_fold (conditions m1) m1 cl s1) as C.
    destruct (fold_left rest_clear (conditions m1) (m1, cl, s1)) as [[m2 cl2] s2].
    specialize (IH _ E). destruct st' as [[[p' hl'] cl'] s'].
    intros Hh Hc. specialize (C Hc).
    destruct IH as [M [D [H1 H2]]]; [|exact C|].
    + destruct (0 <? healed) eqn:Eh; [|exact Hh].
      apply Forall_app. split; [exact Hh|]. constructor; [|constructor]. apply Z.ltb_lt. exact Eh.
    + split; [exact M|]. split; [exact D|]. split; assumption.
Qed.

Lemma rest_day_step x y :
  rest_day (Some x) = Some y ->
  let '(p, rep, _) := x in
  let '(p', rep', _) := y in
  Forall (fun x => 0 < snd x) (healing rep) -> cleared_ok (conditions_cleared rep) ->
  meta p' = meta p /\ days_traveled p' = days_traveled p + 1 /\
  days_rested rep' = days_rested rep /\ morale_boost rep' = morale_boost rep + 15 /\
  Forall (fun x => 0 < snd x) (healing rep') /\ cleared_ok (conditions_cleared rep').
Proof.
  destruct x as [[p rep] s]. unfold rest_day. cbv beta iota.
  destruct (fold_left _ _ _) as [[[[p1 hl] cl] s1]|] eqn:F; [|discriminate].
  cbv beta iota. apply rest_member_fold in F. cbv beta iota in F.
  destruct (consume_daily _ _ _ _) as [crm|]; [|discriminate].
  intros E. inversion E; subst. intros Hh Hc.
  destruct (F Hh Hc) as [M [D [H1 H2]]].
  destruct (apply_morale_event_frame p1 "rest_day") as [M2 [D2 _]].
  cbn. split; [|split; [|split; [reflexivity|split; [reflexivity|auto]]]].
  - unfold meta in *. cbn in *. congruence.
  - cbn in *. lia.
Qed.

Lemma rest_iter n x y :
  Nat.iter n rest_day (Some x) = Some y ->
  let '(p, rep, _) := x in
  let '(p', rep', _) := y in
  Forall (fun x => 0 < snd x) (healing rep) -> cleared_ok (conditions_cleared rep) ->
  meta p' = meta p /\ days_traveled p' = days_traveled p + Z.of_nat n /\
  days_rested rep' = days_rested rep /\ morale_boost rep' = morale_boost rep + 15 * Z.of_nat n /\
  Forall (fun x => 0 < snd x) (healing rep') /\ cleared_ok (conditions_cleared rep').
Proof.
  revert y. induction n as [|n IH]; intros y E.
  - cbn in E. inversion E; subst. destruct y as [[p rep] s]. intros. repeat split; auto; lia.
  - change (Nat.iter (S n) rest_day (Some x)) with (rest_day (Nat.iter n rest_day (Some x))) in E.
    destruct (Nat.iter n rest_day (Some x)) as [z|] eqn:Ez; [|cbn in E; discriminate].
    specialize (IH z eq_refl). apply rest_day_step in E.
    destruct x as [[p rep] s], z as [[p1 rep1] s1], y as [[p2 rep2] s2].
    intros Hh Hc. destruct (IH Hh Hc) as [M1 [D1 [R1 [B1 [H1 C1]]]]].
    destruct (E H1 C1) as [M2 [D2 [R2 [B2 [H2 C2]]]]].
    repeat split; auto; try congruence; lia.
Qed.

(** A day of travel ([process_day]) advances the day counter by one and
    reports that day, keeps the party's name, miles and rationing, reports
    one update for each member alive at the start of the day, and reports
    a consumption exactly when someone was alive. *)
Theorem process_day_counters (p : Party) (terrain weather : string) (s : Rng)
    (r : DayReport) (p' : Party) (s' : Rng)
    (E : process_day p terrain weather s = Some (r, p', s')) :
  party_name p' = party_name p /\ miles_traveled p' = miles_traveled p /\
  current_rationing p' = current_rationing p /\
  days_traveled p' = days_traveled p + 1 /\ day r = days_traveled p + 1 /\
  List.length (member_updates r) = List.length (alive_members p) /\
  (consumption r = None <-> alive_members p = []).
Proof.
  destruct (process_day_frame p terrain weather s r p' s' E) as [M [D [Dy [L C]]]].
  unfold meta in M. inversion M. auto 10.
Qed.

Lemma process_day_counters_witness :
  let p := set_members (new_party "Oregon")
             [set_conditions (set_health (new_player "Ruth" HUNTER 100 75) 3) [DEHYDRATED];
              new_player "Ann" SCOUT 100 75] in
  exists r p' s', process_day p "plains"%string "clear"%string [0] = Some (r, p', s') /\
    deaths r = ["Ruth"%string] /\
    (party_name p' = party_name p /\ miles_traveled p' = miles_traveled p /\
     current_rationing p' = current_rationing p /\
     days_traveled p' = days_traveled p + 1 /\ day r = days_traveled p + 1 /\
     List.length (member_updates r) = List.length (alive_members p) /\
     (consumption r = None <-> alive_members p = [])).
Proof.
  intros p.
  destruct (process_day p "plains"%string "clear"%string [0]) as [[[r p'] s']|] eqn:E;
    [|vm_compute in E; discriminate].
  exists r, p', s'. split; [reflexivity|]. split.
  - pose proof E as E'. vm_compute in E'. inversion E'. reflexivity.
  - exact (process_day_counters p "plains"%string "clear"%string [0] r p' s' E).
Defined.

(** [rest(days)] reports [days] as rested, adds one day to the day counter
    and 15 to the reported morale boost for each day actually rested (none
    when [days <= 0]), keeps the party's name, miles and rationing, reports
    only positive healing amounts, and clears only [EXHAUSTED] or [INJURED]. *)
Theorem rest_counters (p : Party) (days : Z) (s : Rng) (rep : RestReport) (p' : Party) (s' : Rng)
    (E : rest p days s = Some (rep, p', s')) :
  party_name p' = party_name p /\ miles_traveled p' = miles_traveled p /\
  current_rationing p' = current_rationing p /\
  days_traveled p' = days_traveled p + Z.max 0 days /\
  days_rested rep = days /\ morale_boost rep = 15 * Z.max 0 days /\
  Forall (fun h => 0 < snd h) (healing rep) /\
  Forall (fun c => snd c = EXHAUSTED \/ snd c = INJURED) (conditions_cleared rep).
Proof.
  unfold rest in E.
  destruct (Nat.iter _ _ _) as [[[p1 rep1] s1]|] eqn:F; [|discriminate].
  inversion E; subst. apply rest_iter in F. cbn beta iota in F.
  destruct (F (Forall_nil _) (Forall_nil _)) as [M [D [R [B [H C]]]]].
  unfold meta in M. inversion M. cbn in R, B.
  assert (Hn : Z.of_nat (Z.to_nat days) = Z.max 0 days) by lia.
  rewrite Hn in D, B. repeat split; auto; lia.
Qed.

Lemma rest_counters_witness :
  let p := set_members (new_party "Oregon")
             [set_conditions (set_health (new_player "Ruth" HUNTER 100 75) 50) [INJURED];
              new_player "Ann" MEDIC 100 75] in
  exists rep p' s', rest p 2 [3; 0; 7; 3; 7] = Some (rep, p', s') /\
    healing rep = [("Ruth"%string, 10); ("Ruth"%string, 10)] /\
    conditions_cleared rep = [("Ruth"%string, INJURED)] /\
    (party_name p' = party_name p /\ miles_traveled p' = miles_traveled p /\
     current_rationing p' = current_rationing p /\
     days_traveled p' = days_traveled p + Z.max 0 2 /\
     days_rested rep = 2 /\ morale_boost rep = 15 * Z.max 0 2 /\
     Forall (fun h => 0 < snd h) (healing rep) /\
     Forall (fun c => snd c = EXHAUSTED \/ snd c = INJURED) (conditions_cleared rep)).
Proof.
  intros p.
  destruct (rest p 2 [3; 0; 7; 3; 7]) as [[[rep p'] s']|] eqn:E;
    [|vm_compute in E; discriminate].
  exists rep, p', s'. split; [reflexivity|].
  assert (Hr : healing rep = [("Ruth"%string, 10); ("Ruth"%string, 10)] /\
               conditions_cleared rep = [("Ruth"%string, INJURED)]).
  { pose proof E as E'. vm_compute in E'. inversion E'. split; reflexivity. }
  split; [exact (proj1 Hr)|]. split; [exact (proj2 Hr)|].
  exact (rest_counters p 2 [3; 0; 7; 3; 7] rep p' s' E).
Defined.

End DayFacts.
